(** * k8s-alert-rule-operator: the reconcilers and the rule renderer

    A shallow embedding of the controllers of the operator
    ([internal/controller/alertrule_controller.go],
    [internal/controller/deployment_controller.go], the API types of
    [api/v1] and the configuration-blob version of the AlertRule
    controller), over an in-memory model of the object store the
    controllers talk to through [client.Client]. *)

From stdpp Require Import gmap strings list fin_maps pretty.
From Stdlib Require Import ZArith Ascii.

#[local] Set Warnings "-register-all".
#[local] Open Scope Z_scope.

(** ** Strings as [fmt.Sprintf] and [strings.Join] build them *)

(** The two characters a Go string literal escapes in the sources. *)
Definition dquote : string := String "034"%char EmptyString.
Definition nl : string := String "010"%char EmptyString.

(** [strings.Join(elems, sep)]. *)
Fixpoint Join (elems : list string) (sep : string) : string :=
  match elems with
  | [] => EmptyString
  | [s] => s
  | s :: rest => s +:+ sep +:+ Join rest sep
  end.

(** [s != ""] as a boolean. *)
Definition nonempty (s : string) : bool := bool_decide (s ≠ EmptyString).

(** ** apimachinery: errors, metadata, conditions *)

Module apierrors.

Inductive StatusReason :=
  | NotFound | AlreadyExists | Conflict | ServerTimeout | ServiceUnavailable
  | InternalError.

(** A Go [error]: a status error of the API server, or an error wrapped
    by [fmt.Errorf("...: %w", err)]. *)
Inductive error :=
  | StatusError (reason : StatusReason)
  | Errorf (prefix : string) (cause : error).

#[global] Instance StatusReason_eq_dec : EqDecision StatusReason.
Proof. solve_decision. Defined.
#[global] Instance error_eq_dec : EqDecision error.
Proof. solve_decision. Defined.

(** [apierrors.IsNotFound] looks through wrapped errors ([errors.As]). *)
Fixpoint IsNotFound (err : error) : bool :=
  match err with
  | StatusError r => bool_decide (r = NotFound)
  | Errorf _ cause => IsNotFound cause
  end.

(** [client.IgnoreNotFound]. *)
Definition IgnoreNotFound (err : error) : option error :=
  if IsNotFound err then None else Some err.

End apierrors.
Export apierrors (error).

(** [metav1.Time], counted from Go's zero instant. *)
Definition Time := Z.

(** [IsZero] of a [metav1.Time] pointer: nil and the zero instant are zero. *)
Definition IsZero (t : option Time) : bool :=
  match t with
  | None => true
  | Some z => bool_decide (z = 0)
  end.

Module OwnerReference.
Record t := mk {
  APIVersion : string;
  Kind : string;
  Name : string;
  UID : string;
  Controller : option bool;
  BlockOwnerDeletion : option bool;
}.
#[global] Instance eq_dec : EqDecision t.
Proof. solve_decision. Defined.
End OwnerReference.

Module TypeMeta.
Record t := mk { Kind : string; APIVersion : string }.
#[global] Instance eq_dec : EqDecision t.
Proof. solve_decision. Defined.
End TypeMeta.

Module ObjectMeta.
Record t := mk {
  Name : string;
  Namespace : string;
  Labels : option (gmap string string);
  OwnerReferences : list OwnerReference.t;
  UID : string;
  ResourceVersion : string;
  Generation : Z;
  DeletionTimestamp : option Time;
}.

Definition empty : t := mk EmptyString EmptyString None [] EmptyString EmptyString 0 None.

Definition SetName (v : string) (m : t) : t :=
  mk v (Namespace m) (Labels m) (OwnerReferences m) (UID m) (ResourceVersion m)
     (Generation m) (DeletionTimestamp m).
Definition SetNamespace (v : string) (m : t) : t :=
  mk (Name m) v (Labels m) (OwnerReferences m) (UID m) (ResourceVersion m)
     (Generation m) (DeletionTimestamp m).
Definition SetLabels (v : option (gmap string string)) (m : t) : t :=
  mk (Name m) (Namespace m) v (OwnerReferences m) (UID m) (ResourceVersion m)
     (Generation m) (DeletionTimestamp m).
Definition SetOwnerReferences (v : list OwnerReference.t) (m : t) : t :=
  mk (Name m) (Namespace m) (Labels m) v (UID m) (ResourceVersion m)
     (Generation m) (DeletionTimestamp m).
Definition SetUID (v : string) (m : t) : t :=
  mk (Name m) (Namespace m) (Labels m) (OwnerReferences m) v (ResourceVersion m)
     (Generation m) (DeletionTimestamp m).
Definition SetResourceVersion (v : string) (m : t) : t :=
  mk (Name m) (Namespace m) (Labels m) (OwnerReferences m) (UID m) v
     (Generation m) (DeletionTimestamp m).
Definition SetGeneration (v : Z) (m : t) : t :=
  mk (Name m) (Namespace m) (Labels m) (OwnerReferences m) (UID m)
     (ResourceVersion m) v (DeletionTimestamp m).
End ObjectMeta.

Inductive ConditionStatus := ConditionTrue | ConditionFalse | ConditionUnknown.

#[global] Instance ConditionStatus_eq_dec : EqDecision ConditionStatus.
Proof. solve_decision. Defined.

Module Condition.
Record t := mk {
  Type_ : string;
  Status : ConditionStatus;
  ObservedGeneration : Z;
  LastTransitionTime : Time;
  Reason : string;
  Message : string;
}.
#[global] Instance eq_dec : EqDecision t.
Proof. solve_decision. Defined.

Definition SetLastTransitionTime (v : Time) (c : t) : t :=
  mk (Type_ c) (Status c) (ObservedGeneration c) v (Reason c) (Message c).
Definition SetObservedGeneration (v : Z) (c : t) : t :=
  mk (Type_ c) (Status c) v (LastTransitionTime c) (Reason c) (Message c).
End Condition.

(** [types.NamespacedName] / [client.ObjectKey]: (namespace, name). *)
Abbreviation ObjectKey := (string * string)%type (only parsing).

(** [ctrl.Request] and [ctrl.Result]. *)
Module Request.
Record t := mk { Namespace : string; Name : string }.
Definition NamespacedName (r : t) : ObjectKey := (Namespace r, Name r).
End Request.

Module Result.
Record t := mk { Requeue : bool; RequeueAfter : Z }.
(** [ctrl.Result{}] *)
Definition zero : t := mk false 0.
End Result.

(** ** api/v1: the AlertRule resource (fixed-field shape) *)

Module DeploymentReference.
Record t := mk { Namespace : string; Name : string }.
#[global] Instance eq_dec : EqDecision t.
Proof. solve_decision. Defined.
End DeploymentReference.

(** Go maps and pointers that may be nil are [option]s: [None] is nil. *)
Module AlertRuleSpec.
Record t := mk {
  Alert : string;
  Expr : string;
  Severity : string;
  For : string;
  Labels : option (gmap string string);
  Annotations : option (gmap string string);
  DeploymentRef : option DeploymentReference.t;
}.
#[global] Instance eq_dec : EqDecision t.
Proof. solve_decision. Defined.

Definition SetDeploymentRef (v : option DeploymentReference.t) (s : t) : t :=
  mk (Alert s) (Expr s) (Severity s) (For s) (Labels s) (Annotations s) v.
End AlertRuleSpec.

Module AlertRuleStatus.
Record t := mk { Conditions : list Condition.t }.
End AlertRuleStatus.

Module AlertRule.
Record t := mk {
  TypeMeta_ : TypeMeta.t;
  ObjectMeta_ : ObjectMeta.t;
  Spec : AlertRuleSpec.t;
  Status : AlertRuleStatus.t;
}.

Definition SetObjectMeta (v : ObjectMeta.t) (a : t) : t :=
  mk (TypeMeta_ a) v (Spec a) (Status a).
Definition SetSpec (v : AlertRuleSpec.t) (a : t) : t :=
  mk (TypeMeta_ a) (ObjectMeta_ a) v (Status a).
Definition SetStatus (v : AlertRuleStatus.t) (a : t) : t :=
  mk (TypeMeta_ a) (ObjectMeta_ a) (Spec a) v.

Definition Name (a : t) : string := ObjectMeta.Name (ObjectMeta_ a).
Definition Namespace (a : t) : string := ObjectMeta.Namespace (ObjectMeta_ a).
Definition Conditions (a : t) : list Condition.t :=
  AlertRuleStatus.Conditions (Status a).
End AlertRule.

(** [appsv1.Deployment]; the controllers read its type and object metadata
  only. *)
Module Deployment.
Record t := mk { TypeMeta_ : TypeMeta.t; ObjectMeta_ : ObjectMeta.t }.
Definition Name (d : t) : string := ObjectMeta.Name (ObjectMeta_ d).
Definition Namespace (d : t) : string := ObjectMeta.Namespace (ObjectMeta_ d).
Definition UID (d : t) : string := ObjectMeta.UID (ObjectMeta_ d).
End Deployment.

(** ** Unstructured content: [map[string]interface{}] *)

(** The JSON values the rule-group renderer builds. *)
Inductive Value :=
  | VString (s : string)
  | VMap (m : gmap string Value)
  | VList (l : list Value).

(** [unstructured.Unstructured]: the type and object metadata are kept
  typed, [Object] holds the remaining top-level fields. *)
Module Unstructured.
Record t := mk {
  TypeMeta_ : TypeMeta.t;
  ObjectMeta_ : ObjectMeta.t;
  Object : gmap string Value;
}.
Definition empty : t := mk (TypeMeta.mk EmptyString EmptyString) ObjectMeta.empty ∅.

Definition SetTypeMeta (v : TypeMeta.t) (u : t) : t := mk v (ObjectMeta_ u) (Object u).
Definition SetObjectMeta (v : ObjectMeta.t) (u : t) : t := mk (TypeMeta_ u) v (Object u).

Definition SetName (v : string) (u : t) : t :=
  SetObjectMeta (ObjectMeta.SetName v (ObjectMeta_ u)) u.
Definition SetNamespace (v : string) (u : t) : t :=
  SetObjectMeta (ObjectMeta.SetNamespace v (ObjectMeta_ u)) u.
Definition SetLabels (v : gmap string string) (u : t) : t :=
  SetObjectMeta (ObjectMeta.SetLabels (Some v) (ObjectMeta_ u)) u.
Definition SetOwnerReferences (v : list OwnerReference.t) (u : t) : t :=
  SetObjectMeta (ObjectMeta.SetOwnerReferences v (ObjectMeta_ u)) u.
Definition SetUID (v : string) (u : t) : t :=
  SetObjectMeta (ObjectMeta.SetUID v (ObjectMeta_ u)) u.
Definition SetResourceVersion (v : string) (u : t) : t :=
  SetObjectMeta (ObjectMeta.SetResourceVersion v (ObjectMeta_ u)) u.

Definition GetName (u : t) : string := ObjectMeta.Name (ObjectMeta_ u).
Definition GetNamespace (u : t) : string := ObjectMeta.Namespace (ObjectMeta_ u).
Definition GetLabels (u : t) : option (gmap string string) :=
  ObjectMeta.Labels (ObjectMeta_ u).
Definition GetUID (u : t) : string := ObjectMeta.UID (ObjectMeta_ u).
Definition GetResourceVersion (u : t) : string :=
  ObjectMeta.ResourceVersion (ObjectMeta_ u).

(** [unstructured.SetNestedMap(obj, value, field)] with a single field. *)
Definition SetNestedMap (value : gmap string Value) (field : string) (u : t) : t :=
  mk (TypeMeta_ u) (ObjectMeta_ u) (<[field := VMap value]> (Object u)).
End Unstructured.

(** ** The object store behind [client.Client]

    The controllers reach the API server through [client.Client]
    ([Get], [Create], [Update], [Delete], [Status().Update]).  The store is
    modelled in memory: one finite map per kind, keyed by namespace and
    name; a revision counter from which the server stamps UIDs and resource
    versions; a clock; a script of transient failures (one entry is
    consumed by each call, [Some f] makes that call fail with the error of
    [f] and leave the store alone); and the log of the calls made.  The
    errors that depend on the content of the store (not found, already
    exists, conflict) are produced by the store itself. *)

Inductive Transient := Timeout | Unavailable | Internal.

Definition transientError (f : Transient) : error :=
  match f with
  | Timeout => apierrors.StatusError apierrors.ServerTimeout
  | Unavailable => apierrors.StatusError apierrors.ServiceUnavailable
  | Internal => apierrors.StatusError apierrors.InternalError
  end.

Class Object (T : Type) := {
  GetObjectMeta : T → ObjectMeta.t;
  WithObjectMeta : ObjectMeta.t → T → T;
  (** what the server keeps when [sent] replaces [stored] *)
  onUpdate : T → T → T;
  (** the same through the status subresource *)
  onStatusUpdate : T → T → T;
}.

Definition key_of `{Object T} (o : T) : ObjectKey :=
  (ObjectMeta.Namespace (GetObjectMeta o), ObjectMeta.Name (GetObjectMeta o)).

Inductive Kind := KDeployment | KAlertRule | KArtifact.
Inductive Verb := VGet | VCreate | VUpdate | VDelete | VStatusUpdate.

#[global] Instance Kind_eq_dec : EqDecision Kind.
Proof. solve_decision. Defined.
#[global] Instance Verb_eq_dec : EqDecision Verb.
Proof. solve_decision. Defined.

Module Call.
Record t := mk { verb : Verb; kind : Kind; key : ObjectKey }.
#[global] Instance eq_dec : EqDecision t.
Proof. solve_decision. Defined.
Definition is_write (c : t) : bool := bool_decide (verb c ≠ VGet).
End Call.

Module Cluster.
Record t (AR Art : Type) := mk {
  deployments : gmap ObjectKey Deployment.t;
  alertRules : gmap ObjectKey AR;
  artifacts : gmap ObjectKey Art;
  revision : Z;
  clock : Time;
  faults : list (option Transient);
  calls : list Call.t;
}.
#[global] Arguments mk {AR Art}.
#[global] Arguments deployments {AR Art}.
#[global] Arguments alertRules {AR Art}.
#[global] Arguments artifacts {AR Art}.
#[global] Arguments revision {AR Art}.
#[global] Arguments clock {AR Art}.
#[global] Arguments faults {AR Art}.
#[global] Arguments calls {AR Art}.
End Cluster.

(** The state monad of a reconcile. *)
Definition M (S A : Type) : Type := S → A * S.

#[global] Instance M_ret {S} : MRet (M S) := λ A x s, (x, s).
#[global] Instance M_bind {S} : MBind (M S) :=
  λ A B f m s, let '(a, s') := m s in f a s'.
#[global] Instance M_fmap {S} : FMap (M S) :=
  λ A B f m s, let '(a, s') := m s in (f a, s').

(** A pure store operation on the objects of one kind. *)
Section store.
Context {T : Type} `{!Object T}.

Definition stamp (rev : Z) (o : T) : T :=
  WithObjectMeta (ObjectMeta.SetResourceVersion (pretty rev) (GetObjectMeta o)) o.

Definition store_get (s : gmap ObjectKey T) (k : ObjectKey) : error + T :=
  match s !! k with
  | Some o => inr o
  | None => inl (apierrors.StatusError apierrors.NotFound)
  end.

Definition store_create (rev : Z) (s : gmap ObjectKey T) (o : T)
  : error + (T * gmap ObjectKey T) :=
  match s !! key_of o with
  | Some _ => inl (apierrors.StatusError apierrors.AlreadyExists)
  | None =>
      let m := GetObjectMeta o in
      let m := ObjectMeta.SetUID ("uid-" +:+ pretty rev) m in
      let m := ObjectMeta.SetGeneration 1 m in
      let o' := stamp rev (WithObjectMeta m o) in
      inr (o', <[key_of o := o']> s)
  end.

(** optimistic concurrency: a stale resource version is a conflict *)
Definition stale (stored sent : T) : bool :=
  let rv := ObjectMeta.ResourceVersion (GetObjectMeta sent) in
  nonempty rv &&
  bool_decide (rv ≠ ObjectMeta.ResourceVersion (GetObjectMeta stored)).

Definition store_replace (merge : T → T → T) (rev : Z)
    (s : gmap ObjectKey T) (o : T) : error + (T * gmap ObjectKey T) :=
  match s !! key_of o with
  | None => inl (apierrors.StatusError apierrors.NotFound)
  | Some stored =>
      if stale stored o then inl (apierrors.StatusError apierrors.Conflict)
      else
        let o' := stamp rev (merge stored o) in
        inr (o', <[key_of o := o']> s)
  end.

Definition store_update := store_replace onUpdate.
Definition store_status_update := store_replace onStatusUpdate.

Definition store_delete (s : gmap ObjectKey T) (o : T)
  : error + gmap ObjectKey T :=
  match s !! key_of o with
  | None => inl (apierrors.StatusError apierrors.NotFound)
  | Some _ => inr (delete (key_of o) s)
  end.
End store.

(** The calls of [client.Client], on the store of one kind: [view] and
    [over] select it in the cluster (in Go the type of the object passed
    selects it). *)
Section client.
Context {AR Art : Type}.
#[local] Abbreviation C := (Cluster.t AR Art).

Record Resource (T : Type) := {
  kind : Kind;
  view : C → gmap ObjectKey T;
  over : gmap ObjectKey T → C → C;
}.
#[global] Arguments kind {T}.
#[global] Arguments view {T}.
#[global] Arguments over {T}.

Definition set_revision (r : Z) (c : C) : C :=
  Cluster.mk (Cluster.deployments c) (Cluster.alertRules c) (Cluster.artifacts c)
    r (Cluster.clock c) (Cluster.faults c) (Cluster.calls c).

(** The failure the script holds for the next call. *)
Definition nextFault (c : C) : option Transient :=
  match Cluster.faults c with
  | f :: _ => f
  | [] => None
  end.

(** The cluster once a call is recorded and its entry of the failure
    script consumed. *)
Definition logged (call : Call.t) (c : C) : C :=
  Cluster.mk (Cluster.deployments c) (Cluster.alertRules c) (Cluster.artifacts c)
    (Cluster.revision c) (Cluster.clock c) (tail (Cluster.faults c))
    (Cluster.calls c ++ [call]).

Context {T : Type} `{!Object T}.

Definition Get (R : Resource T) (k : ObjectKey) : M C (error + T) := λ c,
  let c' := logged (Call.mk VGet (kind R) k) c in
  match nextFault c with
  | Some f => (inl (transientError f), c')
  | None => (store_get (view R c) k, c')
  end.

(** A write: on success the revision advances and the stored object is
    handed back (the client fills the caller's object with it). *)
Definition write (verb : Verb) (R : Resource T) (o : T)
    (op : Z → gmap ObjectKey T → T → error + (T * gmap ObjectKey T))
  : M C (error + T) := λ c,
  let c' := logged (Call.mk verb (kind R) (key_of o)) c in
  match nextFault c with
  | Some f => (inl (transientError f), c')
  | None =>
      let rev := Cluster.revision c + 1 in
      match op rev (view R c) o with
      | inl err => (inl err, c')
      | inr (o', s') => (inr o', set_revision rev (over R s' c'))
      end
  end.

Definition Create (R : Resource T) (o : T) : M C (error + T) :=
  write VCreate R o store_create.
Definition Update (R : Resource T) (o : T) : M C (error + T) :=
  write VUpdate R o store_update.
Definition StatusUpdate (R : Resource T) (o : T) : M C (error + T) :=
  write VStatusUpdate R o store_status_update.

Definition Delete (R : Resource T) (o : T) : M C (option error) := λ c,
  let c' := logged (Call.mk VDelete (kind R) (key_of o)) c in
  match nextFault c with
  | Some f => (Some (transientError f), c')
  | None =>
      match store_delete (view R c) o with
      | inl err => (Some err, c')
      | inr s' => (None, set_revision (Cluster.revision c + 1) (over R s' c'))
      end
  end.

(** [metav1.Now()] *)
Definition Now : M C Time := λ c, (Cluster.clock c, c).
End client.

Section resources.
Context {AR Art : Type}.
#[local] Abbreviation C := (Cluster.t AR Art).

Definition Deployments : Resource (AR:=AR) (Art:=Art) Deployment.t :=
  {| kind := KDeployment;
     view := Cluster.deployments;
     over := λ s c, Cluster.mk s (Cluster.alertRules c) (Cluster.artifacts c)
               (Cluster.revision c) (Cluster.clock c) (Cluster.faults c)
               (Cluster.calls c) |}.
Definition AlertRules : Resource (AR:=AR) (Art:=Art) AR :=
  {| kind := KAlertRule;
     view := Cluster.alertRules;
     over := λ s c, Cluster.mk (Cluster.deployments c) s (Cluster.artifacts c)
               (Cluster.revision c) (Cluster.clock c) (Cluster.faults c)
               (Cluster.calls c) |}.
Definition Artifacts : Resource (AR:=AR) (Art:=Art) Art :=
  {| kind := KArtifact;
     view := Cluster.artifacts;
     over := λ s c, Cluster.mk (Cluster.deployments c) (Cluster.alertRules c) s
               (Cluster.revision c) (Cluster.clock c) (Cluster.faults c)
               (Cluster.calls c) |}.
End resources.

(** What the server keeps of the metadata sent with a replace: identity,
    UID and deletion timestamp are the stored ones, labels and owner
    references the ones sent; the generation advances when the spec
    changed. *)
Definition serverMeta (stored sent : ObjectMeta.t) (specChanged : bool) : ObjectMeta.t :=
  ObjectMeta.mk (ObjectMeta.Name stored) (ObjectMeta.Namespace stored)
    (ObjectMeta.Labels sent) (ObjectMeta.OwnerReferences sent)
    (ObjectMeta.UID stored) (ObjectMeta.ResourceVersion stored)
    (if specChanged then ObjectMeta.Generation stored + 1
     else ObjectMeta.Generation stored)
    (ObjectMeta.DeletionTimestamp stored).

(** AlertRule has the status subresource ([+kubebuilder:subresource:status]):
    [Update] leaves the stored status alone, [Status().Update] writes the
    status only. *)
#[global] Instance AlertRule_Object : Object AlertRule.t := {|
  GetObjectMeta := AlertRule.ObjectMeta_;
  WithObjectMeta := AlertRule.SetObjectMeta;
  onUpdate := λ stored sent,
    AlertRule.mk (AlertRule.TypeMeta_ stored)
      (serverMeta (AlertRule.ObjectMeta_ stored) (AlertRule.ObjectMeta_ sent)
         (bool_decide (AlertRule.Spec stored ≠ AlertRule.Spec sent)))
      (AlertRule.Spec sent) (AlertRule.Status stored);
  onStatusUpdate := λ stored sent,
    AlertRule.SetStatus (AlertRule.Status sent) stored;
|}.

#[global] Instance Deployment_Object : Object Deployment.t := {|
  GetObjectMeta := Deployment.ObjectMeta_;
  WithObjectMeta := λ m d, Deployment.mk (Deployment.TypeMeta_ d) m;
  onUpdate := λ stored sent,
    Deployment.mk (Deployment.TypeMeta_ stored)
      (serverMeta (Deployment.ObjectMeta_ stored) (Deployment.ObjectMeta_ sent) false);
  onStatusUpdate := λ stored _, stored;
|}.

(** The generation of an unstructured artifact is not tracked. *)
#[global] Instance Unstructured_Object : Object Unstructured.t := {|
  GetObjectMeta := Unstructured.ObjectMeta_;
  WithObjectMeta := Unstructured.SetObjectMeta;
  onUpdate := λ stored sent,
    Unstructured.mk (Unstructured.TypeMeta_ stored)
      (serverMeta (Unstructured.ObjectMeta_ stored) (Unstructured.ObjectMeta_ sent) false)
      (Unstructured.Object sent);
  onStatusUpdate := λ stored _, stored;
|}.

(** ** controller-runtime: [controllerutil.SetControllerReference] *)

Module controllerutil.

(** [schema.ParseGroupVersion]: group and version, [None] for an error. *)
Fixpoint splitSlash (s : string) : string * option string :=
  match s with
  | EmptyString => (EmptyString, None)
  | String c rest =>
      if bool_decide (c = "/"%char) then (EmptyString, Some rest)
      else let '(a, b) := splitSlash rest in (String c a, b)
  end.

Definition ParseGroupVersion (gv : string) : option (string * string) :=
  match splitSlash gv with
  | (v, None) => Some (EmptyString, v)
  | (g, Some v) =>
      match splitSlash v with
      | (_, None) => Some (g, v)
      | (_, Some _) => None
      end
  end.

Definition referSameObject (a b : OwnerReference.t) : bool :=
  match ParseGroupVersion (OwnerReference.APIVersion a),
        ParseGroupVersion (OwnerReference.APIVersion b) with
  | Some (ga, _), Some (gb, _) =>
      bool_decide (ga = gb) &&
      bool_decide (OwnerReference.Kind a = OwnerReference.Kind b) &&
      bool_decide (OwnerReference.Name a = OwnerReference.Name b)
  | _, _ => false
  end.

(** [metav1.GetControllerOf] *)
Definition isController (r : OwnerReference.t) : bool :=
  match OwnerReference.Controller r with Some true => true | _ => false end.

Definition GetControllerOf (owners : list OwnerReference.t) : option OwnerReference.t :=
  snd <$> list_find (λ r, isController r = true) owners.

Definition upsertOwnerRef (ref : OwnerReference.t) (owners : list OwnerReference.t)
  : list OwnerReference.t :=
  match list_find (λ r, referSameObject r ref = true) owners with
  | None => owners ++ [ref]
  | Some (idx, _) => <[idx := ref]> owners
  end.

(** [scheme] is the group-version-kind the scheme has for the owner's type
    ([None]: the type is not registered).  The owner of a namespaced object
    must be cluster-scoped or live in the same namespace.  The result is the
    owner references of the controlled object and the error. *)
Definition SetControllerReference (scheme : option TypeMeta.t)
    (owner controlled : ObjectMeta.t) : list OwnerReference.t * option error :=
  let owners := ObjectMeta.OwnerReferences controlled in
  let failed := (owners, Some (apierrors.StatusError apierrors.InternalError)) in
  if nonempty (ObjectMeta.Namespace owner) &&
     bool_decide (ObjectMeta.Namespace owner ≠ ObjectMeta.Namespace controlled)
  then failed
  else
    match scheme with
    | None => failed
    | Some gvk =>
        let ref :=
          OwnerReference.mk (TypeMeta.APIVersion gvk) (TypeMeta.Kind gvk)
            (ObjectMeta.Name owner) (ObjectMeta.UID owner) (Some true) (Some true) in
        match GetControllerOf owners with
        | Some existing =>
            if referSameObject existing ref then (upsertOwnerRef ref owners, None)
            else failed
        | None => (upsertOwnerRef ref owners, None)
        end
    end.

End controllerutil.

(** ** internal/controller/deployment_controller.go *)

Module DeploymentReconciler.
Section reconciler.
Context {Art : Type}.
#[local] Abbreviation C := (Cluster.t AlertRule.t Art).
#[local] Abbreviation outcome := (Result.t * option error)%type.

(** [r.Scheme], as far as it is consulted: the group-version-kind
    registered for [appsv1.Deployment]. *)
Variable Scheme : option TypeMeta.t.

(** [fmt.Sprintf("%s-alert", name)] *)
Definition alertRuleNameFor (name : string) : string := name +:+ "-alert".

(** createDefaultAlertRule creates a default AlertRule for a Deployment *)
Definition createDefaultAlertRule (deployment : Deployment.t) (name : string)
  : AlertRule.t :=
  let dName := Deployment.Name deployment in
  let dNamespace := Deployment.Namespace deployment in
  let objectMeta :=
    ObjectMeta.mk name dNamespace
      (Some (<["deployment.kubernetes.io/name" := dName]>
              (<["managed-by" := "alert-rule-operator"]>
                (<["app" := dName]> ∅))))
      [ OwnerReference.mk
          (TypeMeta.APIVersion (Deployment.TypeMeta_ deployment))
          (TypeMeta.Kind (Deployment.TypeMeta_ deployment))
          dName (Deployment.UID deployment) (Some true) None ]
      EmptyString EmptyString 0 None in
  let spec :=
    AlertRuleSpec.mk
      (dName +:+ "PodDown")
      ("up{job=" +:+ dquote +:+ dName +:+ dquote +:+ "} == 0")
      "critical"
      "1m"
      (Some (<["namespace" := dNamespace]> (<["deployment" := dName]> ∅)))
      (Some (<["description" :=
                 "Pod " +:+ dName +:+ " in namespace " +:+ dNamespace +:+
                 " has been down for more than 1 minutes"]>
              (<["summary" := "Pod " +:+ dName +:+ " is down"]> ∅)))
      (Some (DeploymentReference.mk dNamespace dName)) in
  let alertRule :=
    AlertRule.mk (TypeMeta.mk EmptyString EmptyString) objectMeta spec
      (AlertRuleStatus.mk []) in
  (* the error of SetControllerReference is logged only *)
  let '(owners, _) :=
    controllerutil.SetControllerReference Scheme
      (Deployment.ObjectMeta_ deployment) objectMeta in
  AlertRule.SetObjectMeta (ObjectMeta.SetOwnerReferences owners objectMeta) alertRule.

(** deleteAlertRuleForDeployment deletes the AlertRule associated with a
    Deployment *)
Definition deleteAlertRuleForDeployment (namespace deploymentName : string)
  : M C outcome :=
  let alertRuleName := alertRuleNameFor deploymentName in
  r ← Get AlertRules (namespace, alertRuleName);
  match r with
  | inl err =>
      if apierrors.IsNotFound err then mret (Result.zero, None)
      else mret (Result.zero, Some err)
  | inr alertRule =>
      e ← Delete AlertRules alertRule;
      match e with
      | Some err =>
          if negb (apierrors.IsNotFound err) then mret (Result.zero, Some err)
          else mret (Result.zero, None)
      | None => mret (Result.zero, None)
      end
  end.

(** The test of lines 87-89: the reference is nil or names another
    workload. *)
Definition refDiffers (alertRule : AlertRule.t) (deployment : Deployment.t) : bool :=
  match AlertRuleSpec.DeploymentRef (AlertRule.Spec alertRule) with
  | None => true
  | Some ref =>
      bool_decide (DeploymentReference.Namespace ref ≠ Deployment.Namespace deployment)
      || bool_decide (DeploymentReference.Name ref ≠ Deployment.Name deployment)
  end.

Definition Reconcile (req : Request.t) : M C outcome :=
  r ← Get Deployments (Request.NamespacedName req);
  match r with
  | inl err =>
      if apierrors.IsNotFound err
      then deleteAlertRuleForDeployment (Request.Namespace req) (Request.Name req)
      else mret (Result.zero, apierrors.IgnoreNotFound err)
  | inr deployment =>
      if negb (IsZero (ObjectMeta.DeletionTimestamp (Deployment.ObjectMeta_ deployment)))
      then mret (Result.zero, None)
      else
        let alertRuleName := alertRuleNameFor (Deployment.Name deployment) in
        r ← Get AlertRules (Request.Namespace req, alertRuleName);
        match r with
        | inl err =>
            if negb (apierrors.IsNotFound err) then mret (Result.zero, Some err)
            else
              let newAlertRule := createDefaultAlertRule deployment alertRuleName in
              e ← Create AlertRules newAlertRule;
              match e with
              | inl err => mret (Result.zero, Some err)
              | inr _ => mret (Result.zero, None)
              end
        | inr alertRule =>
            if refDiffers alertRule deployment then
              let alertRule :=
                AlertRule.SetSpec
                  (AlertRuleSpec.SetDeploymentRef
                     (Some (DeploymentReference.mk (Deployment.Namespace deployment)
                              (Deployment.Name deployment)))
                     (AlertRule.Spec alertRule))
                  alertRule in
              e ← Update AlertRules alertRule;
              match e with
              | inl err => mret (Result.zero, Some err)
              | inr _ => mret (Result.zero, None)
              end
            else mret (Result.zero, None)
        end
  end.

End reconciler.
End DeploymentReconciler.

(** ** Status conditions

    Both versions of [updateStatus] end in the same loop
    (alertrule_controller.go, lines 267-278):
<<
    found := false
    for i, c := range alertRule.Status.Conditions {
        if c.Type == condition.Type {
            alertRule.Status.Conditions[i] = condition
            found = true
            break
        }
    }
    if !found {
        alertRule.Status.Conditions = append(alertRule.Status.Conditions, condition)
    }
>>
    The scan stops at the first condition of the same type and overwrites
    it; when it runs off the end, the condition is appended. *)
Fixpoint upsertCondition (conditions : list Condition.t) (condition : Condition.t)
  : list Condition.t :=
  match conditions with
  | [] => [condition]
  | c :: rest =>
      if bool_decide (Condition.Type_ c = Condition.Type_ condition)
      then condition :: rest
      else c :: upsertCondition rest condition
  end.

(** The condition list holds at most one condition of each type. *)
Definition uniqueTypes (conditions : list Condition.t) : Prop :=
  NoDup (Condition.Type_ <$> conditions).

(** The upsert as the design describes it: the first condition of the
    same type is replaced where it stands, a condition of a new type is
    appended. *)
Definition replaceOrAppend (conditions : list Condition.t) (condition : Condition.t)
  : list Condition.t :=
  match list_find (λ c, Condition.Type_ c = Condition.Type_ condition) conditions with
  | Some (i, _) => <[i := condition]> conditions
  | None => conditions ++ [condition]
  end.

(** [err.Error()], as far as the controllers print it. *)
Fixpoint ErrorString (err : error) : string :=
  match err with
  | apierrors.StatusError apierrors.NotFound => "not found"
  | apierrors.StatusError apierrors.AlreadyExists => "already exists"
  | apierrors.StatusError apierrors.Conflict => "the object has been modified"
  | apierrors.StatusError apierrors.ServerTimeout => "server timeout"
  | apierrors.StatusError apierrors.ServiceUnavailable => "service unavailable"
  | apierrors.StatusError apierrors.InternalError => "internal error"
  | apierrors.Errorf prefix cause => prefix +:+ ": " +:+ ErrorString cause
  end.

(** ** internal/controller/alertrule_controller.go (rule-group artifact) *)

Module AlertRuleReconciler.
Section reconciler.
#[local] Abbreviation C := (Cluster.t AlertRule.t Unstructured.t).
#[local] Abbreviation outcome := (Result.t * option error)%type.

(** The order in which [for k, v := range m] visits the entries of a Go
    map is not specified; the runtime picks one. *)
Variable rangeOrder : gmap string string → list (string * string).

(** [for k, v := range src { dst[k] = f(v) }] *)
Definition rangeInto {W : Type} (f : string → W) (src : gmap string string)
    (dst : gmap string W) : gmap string W :=
  foldl (λ acc kv, <[kv.1 := f kv.2]> acc) dst (rangeOrder src).

(** prometheusRuleGVK returns the GroupVersionKind for PrometheusRule *)
Definition prometheusRuleGVK : TypeMeta.t :=
  TypeMeta.mk "PrometheusRule" "monitoring.coreos.com/v1".

(** buildPrometheusRule builds a single Prometheus rule from AlertRule *)
Definition buildPrometheusRule (alertRule : AlertRule.t) : gmap string Value :=
  let spec := AlertRule.Spec alertRule in
  let rule : gmap string Value :=
    <["expr" := VString (AlertRuleSpec.Expr spec)]>
      (<["alert" := VString (AlertRuleSpec.Alert spec)]> ∅) in
  let rule :=
    if nonempty (AlertRuleSpec.For spec)
    then <["for" := VString (AlertRuleSpec.For spec)]> rule
    else rule in
  let labels : gmap string Value :=
    <["severity" := VString (AlertRuleSpec.Severity spec)]> ∅ in
  let labels :=
    match AlertRuleSpec.Labels spec with
    | Some m => rangeInto VString m labels
    | None => labels
    end in
  let rule := <["labels" := VMap labels]> rule in
  match AlertRuleSpec.Annotations spec with
  | Some m => <["annotations" := VMap (rangeInto VString m ∅)]> rule
  | None => rule
  end.

(** createPrometheusRule creates a PrometheusRule unstructured object from
    AlertRule *)
Definition createPrometheusRule (alertRule : AlertRule.t) : Unstructured.t :=
  let prometheusRule := Unstructured.empty in
  let prometheusRule := Unstructured.SetTypeMeta prometheusRuleGVK prometheusRule in
  let prometheusRule := Unstructured.SetName (AlertRule.Name alertRule) prometheusRule in
  let prometheusRule :=
    Unstructured.SetNamespace (AlertRule.Namespace alertRule) prometheusRule in
  let labels : gmap string string :=
    <["release" := "monitoring"]> (<["managed-by" := "alert-rule-operator"]> ∅) in
  let labels :=
    match ObjectMeta.Labels (AlertRule.ObjectMeta_ alertRule) with
    | Some m => rangeInto id m labels
    | None => labels
    end in
  let prometheusRule := Unstructured.SetLabels labels prometheusRule in
  let ownerRef :=
    OwnerReference.mk
      (TypeMeta.APIVersion (AlertRule.TypeMeta_ alertRule))
      (TypeMeta.Kind (AlertRule.TypeMeta_ alertRule))
      (AlertRule.Name alertRule)
      (ObjectMeta.UID (AlertRule.ObjectMeta_ alertRule))
      (Some true) None in
  let prometheusRule := Unstructured.SetOwnerReferences [ownerRef] prometheusRule in
  let groups :=
    [ VMap (<["rules" := VList [VMap (buildPrometheusRule alertRule)]]>
             (<["name" := VString (AlertRule.Name alertRule +:+ "-group")]> ∅)) ] in
  let spec : gmap string Value := <["groups" := VList groups]> ∅ in
  Unstructured.SetNestedMap spec "spec" prometheusRule.

(** reconcilePrometheusRule creates or updates a PrometheusRule based on
    AlertRule *)
Definition reconcilePrometheusRule (alertRule : AlertRule.t) : M C (option error) :=
  let prometheusRuleName := AlertRule.Name alertRule in
  r ← Get Artifacts (AlertRule.Namespace alertRule, prometheusRuleName);
  match r with
  | inl err =>
      if negb (apierrors.IsNotFound err)
      then mret (Some (apierrors.Errorf "unable to fetch PrometheusRule" err))
      else
        let prometheusRule := createPrometheusRule alertRule in
        e ← Create Artifacts prometheusRule;
        match e with
        | inl err => mret (Some (apierrors.Errorf "unable to create PrometheusRule" err))
        | inr _ => mret None
        end
  | inr existingRule =>
      let prometheusRule := createPrometheusRule alertRule in
      let prometheusRule :=
        Unstructured.SetUID (Unstructured.GetUID existingRule) prometheusRule in
      let prometheusRule :=
        Unstructured.SetResourceVersion
          (Unstructured.GetResourceVersion existingRule) prometheusRule in
      e ← Update Artifacts prometheusRule;
      match e with
      | inl err => mret (Some (apierrors.Errorf "unable to update PrometheusRule" err))
      | inr _ => mret None
      end
  end.

(** deletePrometheusRule deletes the PrometheusRule associated with an
    AlertRule *)
Definition deletePrometheusRule (namespace alertRuleName : string) : M C outcome :=
  let prometheusRuleName := alertRuleName in
  r ← Get Artifacts (namespace, prometheusRuleName);
  match r with
  | inl err =>
      if apierrors.IsNotFound err then mret (Result.zero, None)
      else mret (Result.zero, Some err)
  | inr prometheusRule =>
      e ← Delete Artifacts prometheusRule;
      match e with
      | Some err =>
          if negb (apierrors.IsNotFound err) then mret (Result.zero, Some err)
          else mret (Result.zero, None)
      | None => mret (Result.zero, None)
      end
  end.

(** The condition [updateStatus] records, from the outcome of fetching the
    PrometheusRule (lines 246-265). *)
Definition readyCondition (alertRule : AlertRule.t) (now : Time)
    (fetched : error + Unstructured.t) : Condition.t :=
  let generation := ObjectMeta.Generation (AlertRule.ObjectMeta_ alertRule) in
  match fetched with
  | inr _ =>
      Condition.mk "PrometheusRuleReady" ConditionTrue generation now
        "PrometheusRuleCreated" "PrometheusRule has been successfully created"
  | inl err =>
      if apierrors.IsNotFound err
      then Condition.mk "PrometheusRuleReady" ConditionFalse generation now
             "PrometheusRuleNotFound" "PrometheusRule not found"
      else Condition.mk "PrometheusRuleReady" ConditionUnknown generation now
             "Error" ("Error checking PrometheusRule: " +:+ ErrorString err)
  end.

(** updateStatus updates the AlertRule status.  The AlertRule handed back
    is the caller's object as the call leaves it. *)
Definition updateStatus (alertRule : AlertRule.t) : M C (AlertRule.t * option error) :=
  fetched ← Get Artifacts (AlertRule.Namespace alertRule, AlertRule.Name alertRule);
  now ← Now;
  let condition := readyCondition alertRule now fetched in
  let alertRule :=
    AlertRule.SetStatus
      (AlertRuleStatus.mk (upsertCondition (AlertRule.Conditions alertRule) condition))
      alertRule in
  r ← StatusUpdate AlertRules alertRule;
  match r with
  | inl err => mret (alertRule, Some err)
  | inr stored => mret (stored, None)
  end.

Definition Reconcile (req : Request.t) : M C outcome :=
  r ← Get AlertRules (Request.NamespacedName req);
  match r with
  | inl err =>
      if apierrors.IsNotFound err
      then deletePrometheusRule (Request.Namespace req) (Request.Name req)
      else mret (Result.zero, apierrors.IgnoreNotFound err)
  | inr alertRule =>
      if negb (IsZero (ObjectMeta.DeletionTimestamp (AlertRule.ObjectMeta_ alertRule)))
      then mret (Result.zero, None)
      else
        e ← reconcilePrometheusRule alertRule;
        match e with
        | Some err => mret (Result.zero, Some err)
        | None =>
            '(_, e) ← updateStatus alertRule;
            match e with
            | Some err => mret (Result.zero, Some err)
            | None => mret (Result.zero, None)
            end
        end
  end.

End reconciler.
End AlertRuleReconciler.

(** ** The configuration-blob version of the AlertRule controller

    This version of [alertrule_controller.go] reads a list-based AlertRule
    ([Spec.Rules], [Spec.TargetDeployment]) and renders it into the
    [alertrules.yaml] entry of a ConfigMap. *)

Module ConfigBlob.

(** Modelled from the spec: the declaration of the list-based AlertRule
    spec is missing from the sources; the fields are those
    [generateAlertRulesYAML] reads, typed as the spec describes them (a
    rules list, each rule with name, condition, duration, severity and a
    set of discord/email notification endpoints, and a single target
    deployment string). *)
Module Notification.
Record t := mk { Discord : string; Email : string }.
#[global] Instance eq_dec : EqDecision t.
Proof. solve_decision. Defined.
End Notification.

Module Rule.
Record t := mk {
  Name : string;
  Condition : string;
  Duration : string;
  Severity : string;
  Notifications : list Notification.t;
}.
#[global] Instance eq_dec : EqDecision t.
Proof. solve_decision. Defined.
End Rule.

Module AlertRuleSpec.
Record t := mk { Rules : list Rule.t; TargetDeployment : string }.
#[global] Instance eq_dec : EqDecision t.
Proof. solve_decision. Defined.
End AlertRuleSpec.

Module AlertRule.
Record t := mk {
  TypeMeta_ : TypeMeta.t;
  ObjectMeta_ : ObjectMeta.t;
  Spec : AlertRuleSpec.t;
  Status : AlertRuleStatus.t;
}.
Definition SetObjectMeta (v : ObjectMeta.t) (a : t) : t :=
  mk (TypeMeta_ a) v (Spec a) (Status a).
Definition SetStatus (v : AlertRuleStatus.t) (a : t) : t :=
  mk (TypeMeta_ a) (ObjectMeta_ a) (Spec a) v.
Definition Name (a : t) : string := ObjectMeta.Name (ObjectMeta_ a).
Definition Namespace (a : t) : string := ObjectMeta.Namespace (ObjectMeta_ a).
Definition Conditions (a : t) : list Condition.t :=
  AlertRuleStatus.Conditions (Status a).
End AlertRule.

(** [corev1.ConfigMap] *)
Module ConfigMap.
Record t := mk { ObjectMeta_ : ObjectMeta.t; Data : option (gmap string string) }.
Definition SetData (v : option (gmap string string)) (c : t) : t := mk (ObjectMeta_ c) v.
Definition SetLabels (v : option (gmap string string)) (c : t) : t :=
  mk (ObjectMeta.SetLabels v (ObjectMeta_ c)) (Data c).
Definition Name (c : t) : string := ObjectMeta.Name (ObjectMeta_ c).
Definition Namespace (c : t) : string := ObjectMeta.Namespace (ObjectMeta_ c).
End ConfigMap.

#[global] Instance AlertRule_Object : Object AlertRule.t := {|
  GetObjectMeta := AlertRule.ObjectMeta_;
  WithObjectMeta := AlertRule.SetObjectMeta;
  onUpdate := λ stored sent,
    AlertRule.mk (AlertRule.TypeMeta_ stored)
      (serverMeta (AlertRule.ObjectMeta_ stored) (AlertRule.ObjectMeta_ sent)
         (bool_decide (AlertRule.Spec stored ≠ AlertRule.Spec sent)))
      (AlertRule.Spec sent) (AlertRule.Status stored);
  onStatusUpdate := λ stored sent,
    AlertRule.SetStatus (AlertRule.Status sent) stored;
|}.

#[global] Instance ConfigMap_Object : Object ConfigMap.t := {|
  GetObjectMeta := ConfigMap.ObjectMeta_;
  WithObjectMeta := λ m c, ConfigMap.mk m (ConfigMap.Data c);
  onUpdate := λ stored sent,
    ConfigMap.mk
      (serverMeta (ConfigMap.ObjectMeta_ stored) (ConfigMap.ObjectMeta_ sent) false)
      (ConfigMap.Data sent);
  onStatusUpdate := λ stored _, stored;
|}.

Module AlertRuleReconciler.
Section reconciler.
#[local] Abbreviation C := (Cluster.t AlertRule.t ConfigMap.t).
#[local] Abbreviation outcome := (Result.t * option error)%type.

(** The annotation lines of one rule (lines 177-190). *)
Definition notificationLines (notif : Notification.t) : list string :=
  (if nonempty (Notification.Discord notif)
   then ["    discord: " +:+ dquote +:+ Notification.Discord notif +:+ dquote]
   else []) ++
  (if nonempty (Notification.Email notif)
   then ["    email: " +:+ dquote +:+ Notification.Email notif +:+ dquote]
   else []).

Definition annotationLines (rule : Rule.t) : list string :=
  [ "    summary: " +:+ dquote +:+ Rule.Name rule +:+ dquote;
    "    severity: " +:+ dquote +:+ Rule.Severity rule +:+ dquote ]
  ++ concat (notificationLines <$> Rule.Notifications rule).

(** The label lines of one rule (lines 193-197). *)
Definition labelLines (alertRule : AlertRule.t) (rule : Rule.t) : list string :=
  [ "    alertname: " +:+ dquote +:+ Rule.Name rule +:+ dquote;
    "    severity: " +:+ dquote +:+ Rule.Severity rule +:+ dquote;
    "    deployment: " +:+ dquote +:+
      AlertRuleSpec.TargetDeployment (AlertRule.Spec alertRule) +:+ dquote ].

(** The text of one rule (lines 200-207). *)
Definition ruleYAML (alertRule : AlertRule.t) (rule : Rule.t) : string :=
  "- alert: " +:+ Rule.Name rule +:+ nl +:+
  "  expr: " +:+ Rule.Condition rule +:+ nl +:+
  "  for: " +:+ Rule.Duration rule +:+ nl +:+
  "  labels:" +:+ nl +:+
  Join (labelLines alertRule rule) nl +:+ nl +:+
  "  annotations:" +:+ nl +:+
  Join (annotationLines rule) nl +:+ nl.

(** generateAlertRulesYAML converts AlertRule to Prometheus alert rules YAML
    format *)
Definition generateAlertRulesYAML (alertRule : AlertRule.t) : string * option error :=
  let rules := ruleYAML alertRule <$> AlertRuleSpec.Rules (AlertRule.Spec alertRule) in
  ("groups:" +:+ nl +:+ "- name: " +:+ AlertRule.Name alertRule +:+ nl +:+
   "  rules:" +:+ nl +:+ Join rules EmptyString,
   None).

(** updateStatus updates the status conditions of AlertRule.  The AlertRule
    handed back is the caller's object as the call leaves it. *)
Definition updateStatus (alertRule : AlertRule.t) (condition : Condition.t)
  : M C (AlertRule.t * option error) :=
  now ← Now;
  let condition := Condition.SetLastTransitionTime now condition in
  let condition :=
    Condition.SetObservedGeneration
      (ObjectMeta.Generation (AlertRule.ObjectMeta_ alertRule)) condition in
  let alertRule :=
    AlertRule.SetStatus
      (AlertRuleStatus.mk (upsertCondition (AlertRule.Conditions alertRule) condition))
      alertRule in
  r ← StatusUpdate AlertRules alertRule;
  match r with
  | inl err => mret (alertRule, Some err)
  | inr stored => mret (stored, None)
  end.

(** A condition literal: time and generation are Go's zero values. *)
Definition newCondition (type : string) (status : ConditionStatus)
    (reason message : string) : Condition.t :=
  Condition.mk type status 0 0 reason message.

(** [fmt.Sprintf("alertrule-%s", alertRule.Name)] *)
Definition configMapNameFor (name : string) : string := "alertrule-" +:+ name.

(** The ConfigMap literal of lines 93-115. *)
Definition desiredConfigMap (alertRule : AlertRule.t) (alertRulesYAML : string)
  : ConfigMap.t :=
  ConfigMap.mk
    (ObjectMeta.mk (configMapNameFor (AlertRule.Name alertRule))
       (AlertRule.Namespace alertRule)
       (Some (<["alertrule.monitoring.my.domain" := AlertRule.Name alertRule]>
               (<["app.kubernetes.io/managed-by" := "alertrule-controller"]>
                 (<["app.kubernetes.io/name" := "k8s-alert-rule-operator"]> ∅))))
       [ OwnerReference.mk
           (TypeMeta.APIVersion (AlertRule.TypeMeta_ alertRule))
           (TypeMeta.Kind (AlertRule.TypeMeta_ alertRule))
           (AlertRule.Name alertRule)
           (ObjectMeta.UID (AlertRule.ObjectMeta_ alertRule))
           (Some true) None ]
       EmptyString EmptyString 0 None)
    (Some (<["alertrules.yaml" := alertRulesYAML]> ∅)).

(** After a failed write of the ConfigMap: record [Degraded] (an error of
    that status update is logged only) and report the write's error. *)
Definition degraded (alertRule : AlertRule.t) (reason message : string)
    (err : error) : M C outcome :=
  '(_, _) ← updateStatus alertRule (newCondition "Degraded" ConditionTrue reason message);
  mret (Result.zero, Some err).

Definition Reconcile (req : Request.t) : M C outcome :=
  r ← Get AlertRules (Request.NamespacedName req);
  match r with
  | inl err =>
      if apierrors.IsNotFound err then mret (Result.zero, None)
      else mret (Result.zero, Some err)
  | inr alertRule =>
      '(alertRule, e) ←
        updateStatus alertRule
          (newCondition "Progressing" ConditionTrue "Reconciling" "Reconciling AlertRule");
      match e with
      | Some err => mret (Result.zero, Some err)
      | None =>
          let '(alertRulesYAML, err) := generateAlertRulesYAML alertRule in
          match err with
          | Some err =>
              degraded alertRule "GenerationFailed"
                ("Failed to generate alert rules: " +:+ ErrorString err) err
          | None =>
              let configMapName := configMapNameFor (AlertRule.Name alertRule) in
              let configMap := desiredConfigMap alertRule alertRulesYAML in
              r ← Get Artifacts (AlertRule.Namespace alertRule, configMapName);
              written ←
                match r with
                | inl err =>
                    if apierrors.IsNotFound err then
                      e ← Create Artifacts configMap;
                      match e with
                      | inl err =>
                          inl <$> degraded alertRule "ConfigMapCreationFailed"
                            ("Failed to create ConfigMap: " +:+ ErrorString err) err
                      | inr _ => mret (inr ())
                      end
                    else mret (inl (Result.zero, Some err))
                | inr existingConfigMap =>
                    let existingConfigMap :=
                      ConfigMap.SetData (ConfigMap.Data configMap) existingConfigMap in
                    let existingConfigMap :=
                      ConfigMap.SetLabels
                        (ObjectMeta.Labels (ConfigMap.ObjectMeta_ configMap))
                        existingConfigMap in
                    e ← Update Artifacts existingConfigMap;
                    match e with
                    | inl err =>
                        inl <$> degraded alertRule "ConfigMapUpdateFailed"
                          ("Failed to update ConfigMap: " +:+ ErrorString err) err
                    | inr _ => mret (inr ())
                    end
                end;
              match written with
              | inl out => mret out
              | inr _ =>
                  '(_, e) ←
                    updateStatus alertRule
                      (newCondition "Available" ConditionTrue "Reconciled"
                         ("AlertRule reconciled successfully. ConfigMap: " +:+
                          configMapName));
                  match e with
                  | Some err => mret (Result.zero, Some err)
                  | None => mret (Result.zero, None)
                  end
              end
          end
      end
  end.

End reconciler.
End AlertRuleReconciler.
End ConfigBlob.

(** ** Notions the properties are stated with *)

(** An iteration order the Go runtime may pick: the entries of the map,
    each once, in any order. *)
Definition validOrder (order : gmap string string → list (string * string)) : Prop :=
  ∀ m, order m ≡ₚ map_to_list m.

(** The labels [createPrometheusRule] starts from (lines 132-135). *)
Definition builtInLabels : gmap string string :=
  <["release" := "monitoring"]> (<["managed-by" := "alert-rule-operator"]> ∅).

(** User labels laid over the built-in ones: the user's value wins on
    every key it has. *)
Definition overlay (user : option (gmap string string)) (k : string) : option string :=
  match user ≫= (.!! k) with
  | Some v => Some v
  | None => builtInLabels !! k
  end.

(** A reconcile that made one call, a read, and left the store as it
    was. *)
Definition onlyRead {AR Art : Type} (call : Call.t) (c c' : Cluster.t AR Art) : Prop :=
  Call.verb call = VGet ∧
  Cluster.calls c' = Cluster.calls c ++ [call] ∧
  Cluster.deployments c' = Cluster.deployments c ∧
  Cluster.alertRules c' = Cluster.alertRules c ∧
  Cluster.artifacts c' = Cluster.artifacts c ∧
  Cluster.revision c' = Cluster.revision c.

(** Two versions of an AlertRule that differ in the [deploymentRef] of the
    spec at most (and in what the server stamps: resource version and
    generation). *)
Definition sameButRef (a a' : AlertRule.t) : Prop :=
  AlertRuleSpec.Alert (AlertRule.Spec a') = AlertRuleSpec.Alert (AlertRule.Spec a) ∧
  AlertRuleSpec.Expr (AlertRule.Spec a') = AlertRuleSpec.Expr (AlertRule.Spec a) ∧
  AlertRuleSpec.Severity (AlertRule.Spec a') = AlertRuleSpec.Severity (AlertRule.Spec a) ∧
  AlertRuleSpec.For (AlertRule.Spec a') = AlertRuleSpec.For (AlertRule.Spec a) ∧
  AlertRuleSpec.Labels (AlertRule.Spec a') = AlertRuleSpec.Labels (AlertRule.Spec a) ∧
  AlertRuleSpec.Annotations (AlertRule.Spec a') =
    AlertRuleSpec.Annotations (AlertRule.Spec a) ∧
  AlertRule.Status a' = AlertRule.Status a ∧
  ObjectMeta.Labels (AlertRule.ObjectMeta_ a') =
    ObjectMeta.Labels (AlertRule.ObjectMeta_ a) ∧
  ObjectMeta.OwnerReferences (AlertRule.ObjectMeta_ a') =
    ObjectMeta.OwnerReferences (AlertRule.ObjectMeta_ a).

(** What a reconcile of the workload may do to the cluster [c] when the
    AlertRule [a] of the workload is stored under [key]: in [c'] the
    AlertRule is still there, the same but for its [deploymentRef], which is
    the old one or [ref]; nothing is written when the reference was [ref]
    already; the reference is [ref] when no call failed; nothing else in the
    store changed. *)
Definition refReconciled {Art : Type} (key : ObjectKey) (ref : DeploymentReference.t)
    (a : AlertRule.t) (c c' : Cluster.t AlertRule.t Art) : Prop :=
  ∃ a',
    Cluster.alertRules c' !! key = Some a' ∧
    sameButRef a a' ∧
    (AlertRuleSpec.DeploymentRef (AlertRule.Spec a') =
       AlertRuleSpec.DeploymentRef (AlertRule.Spec a) ∨
     AlertRuleSpec.DeploymentRef (AlertRule.Spec a') = Some ref) ∧
    (AlertRuleSpec.DeploymentRef (AlertRule.Spec a) = Some ref →
     Cluster.alertRules c' = Cluster.alertRules c) ∧
    (Cluster.faults c = [] →
     AlertRuleSpec.DeploymentRef (AlertRule.Spec a') = Some ref) ∧
    (∀ k, k ≠ key → Cluster.alertRules c' !! k = Cluster.alertRules c !! k) ∧
    Cluster.deployments c' = Cluster.deployments c ∧
    Cluster.artifacts c' = Cluster.artifacts c.

(** [c'] is [c] after some more calls. *)
Definition extends {AR Art : Type} (c c' : Cluster.t AR Art) : Prop :=
  ∃ rest, Cluster.calls c' = Cluster.calls c ++ rest.

(** A triple for the state monad: from a state in [P], the computation
    ends with a result and a state in [Q]. *)
Definition hoare {S A : Type} (P : S → Prop) (m : M S A) (Q : A → S → Prop) : Prop :=
  ∀ s, P s → Q (m s).1 (m s).2.

(** The condition is in the status of some AlertRule of the cluster. *)
Definition recorded {AR Art : Type} (conditions : AR → list Condition.t)
    (c : Cluster.t AR Art) (condition : Condition.t) : Prop :=
  ∃ k a, Cluster.alertRules c !! k = Some a ∧ condition ∈ conditions a.

(** Conditions of the configuration-blob AlertRule among which every one
    with the reason [GenerationFailed] was recorded in the cluster [c0]
    already. *)
Definition clean (c0 : Cluster.t ConfigBlob.AlertRule.t ConfigBlob.ConfigMap.t)
    (conditions : list Condition.t) : Prop :=
  ∀ cond, cond ∈ conditions → Condition.Reason cond = "GenerationFailed" →
          recorded ConfigBlob.AlertRule.Conditions c0 cond.

(** The same of every AlertRule of the cluster [c]. *)
Definition allClean (c0 c : Cluster.t ConfigBlob.AlertRule.t ConfigBlob.ConfigMap.t)
  : Prop :=
  ∀ k a, Cluster.alertRules c !! k = Some a →
         clean c0 (ConfigBlob.AlertRule.Conditions a).

(** No call between [c] and [c'] met a failure: [c'] is [c] after [n]
    more calls, and the entries of the failure script these calls consumed
    were all empty. *)
Definition undisturbed {AR Art : Type} (c c' : Cluster.t AR Art) : Prop :=
  ∃ n : nat,
    length (Cluster.calls c') = (length (Cluster.calls c) + n)%nat ∧
    Cluster.faults c' = drop n (Cluster.faults c) ∧
    Forall (λ f, f = None) (take n (Cluster.faults c)).

(** The AlertRules of [c'] are those of [c], under the same keys, as far
    as [f] shows them. *)
Definition sameAlertRules {AR Art B : Type} (f : AR → B) (c c' : Cluster.t AR Art)
  : Prop :=
  ∀ k, f <$> Cluster.alertRules c' !! k = f <$> Cluster.alertRules c !! k.

(** What a user declares of an AlertRule: its spec, and the labels and owner
    references of its metadata. *)
Definition declared (a : AlertRule.t)
  : AlertRuleSpec.t * option (gmap string string) * list OwnerReference.t :=
  (AlertRule.Spec a,
   ObjectMeta.Labels (AlertRule.ObjectMeta_ a),
   ObjectMeta.OwnerReferences (AlertRule.ObjectMeta_ a)).

(** The same of the list-based AlertRule. *)
Definition blobDeclared (a : ConfigBlob.AlertRule.t)
  : ConfigBlob.AlertRuleSpec.t * option (gmap string string) * list OwnerReference.t :=
  (ConfigBlob.AlertRule.Spec a,
   ObjectMeta.Labels (ConfigBlob.AlertRule.ObjectMeta_ a),
   ObjectMeta.OwnerReferences (ConfigBlob.AlertRule.ObjectMeta_ a)).

(** A computation that keeps [J], whatever it returns. *)
Definition keeps {S A : Type} (J : S → Prop) (m : M S A) : Prop :=
  hoare J m (λ _ s, J s).

(** Since [c0], no AlertRule was added or removed, none changed as far as
    [f] shows it, and the workloads are the same. *)
Definition untouched {AR Art B : Type} (f : AR → B) (c0 c : Cluster.t AR Art) : Prop :=
  sameAlertRules f c0 c ∧ Cluster.deployments c = Cluster.deployments c0.

(** Every object of the store is stored under its own namespace and
    name. *)
Definition wellKeyed `{Object T} (store : gmap ObjectKey T) : Prop :=
  ∀ k o, store !! k = Some o → key_of o = k.

(** Nothing was written since [c0]: the objects of the three kinds are the
    same. *)
Definition asBefore {AR Art : Type} (c0 c : Cluster.t AR Art) : Prop :=
  Cluster.deployments c = Cluster.deployments c0 ∧
  Cluster.alertRules c = Cluster.alertRules c0 ∧
  Cluster.artifacts c = Cluster.artifacts c0.

(** Since [c0], the AlertRule under [key] was written at most: every other
    AlertRule, the workloads and the artifacts are the same. *)
Definition butAlertRule {AR Art : Type} (key : ObjectKey) (c0 c : Cluster.t AR Art)
  : Prop :=
  Cluster.deployments c = Cluster.deployments c0 ∧
  Cluster.artifacts c = Cluster.artifacts c0 ∧
  ∀ k, k ≠ key → Cluster.alertRules c !! k = Cluster.alertRules c0 !! k.

(** Since [c0], the artifact under [key] was written at most. *)
Definition butArtifact {AR Art : Type} (key : ObjectKey) (c0 c : Cluster.t AR Art)
  : Prop :=
  ∀ k, k ≠ key → Cluster.artifacts c !! k = Cluster.artifacts c0 !! k.

(** The failure the script holds for the call made after [i] more calls. *)
Definition faultAt {AR Art : Type} (i : nat) (c : Cluster.t AR Art) : option Transient :=
  default None (Cluster.faults c !! i).

(** No call is going to fail. *)
Definition quiet {AR Art : Type} (c : Cluster.t AR Art) : Prop :=
  Forall (λ f, f = None) (Cluster.faults c).

(** The stored artifact [o] carries what was rendered: the content, the
    labels and the owner references of [rendered]. *)
Definition renders (rendered o : Unstructured.t) : Prop :=
  Unstructured.Object o = Unstructured.Object rendered ∧
  Unstructured.GetLabels o = Unstructured.GetLabels rendered ∧
  ObjectMeta.OwnerReferences (Unstructured.ObjectMeta_ o) =
    ObjectMeta.OwnerReferences (Unstructured.ObjectMeta_ rendered).

(** Nothing is left to do for the workload of the request: it is gone
    and so is its AlertRule, or it is being deleted, or its AlertRule is
    there and references it. *)
Definition settled {Art : Type} (req : Request.t) (c : Cluster.t AlertRule.t Art) : Prop :=
  let alertRuleKey :=
    (Request.Namespace req, DeploymentReconciler.alertRuleNameFor (Request.Name req)) in
  match Cluster.deployments c !! Request.NamespacedName req with
  | None => Cluster.alertRules c !! alertRuleKey = None
  | Some deployment =>
      IsZero (ObjectMeta.DeletionTimestamp (Deployment.ObjectMeta_ deployment)) = false ∨
      ∃ alertRule,
        Cluster.alertRules c !! alertRuleKey = Some alertRule ∧
        DeploymentReconciler.refDiffers alertRule deployment = false
  end.

(** The calls made from [c] to [c'] were reads. *)
Definition readsOnly {AR Art : Type} (c c' : Cluster.t AR Art) : Prop :=
  ∃ reads, Cluster.calls c' = Cluster.calls c ++ reads ∧
           Forall (λ call, Call.verb call = VGet) reads.

(** Success: [ctrl.Result{}] and a nil error. *)
Definition success : Result.t * option error := (Result.zero, None).

(** ** Concrete objects the properties are tried on *)

Module Examples.

Definition apps : option TypeMeta.t := Some (TypeMeta.mk "Deployment" "apps/v1").

Definition checkout : Deployment.t :=
  Deployment.mk (TypeMeta.mk "Deployment" "apps/v1")
    (ObjectMeta.mk "checkout" "shop" None [] "uid-d" "5" 1 None).

Definition checkoutDeleting : Deployment.t :=
  Deployment.mk (TypeMeta.mk "Deployment" "apps/v1")
    (ObjectMeta.mk "checkout" "shop" None [] "uid-d" "5" 1 (Some 900)).

(** A user-written AlertRule: it overrides [managed-by], leaves [for] and
    the severity empty and carries an empty annotations map. *)
Definition latency : AlertRule.t :=
  AlertRule.mk (TypeMeta.mk "AlertRule" "monitoring.example.com/v1")
    (ObjectMeta.mk "latency" "shop"
       (Some (<["team" := "sre"]> (<["managed-by" := "custom"]> ∅)))
       [] "uid-a" "7" 2 None)
    (AlertRuleSpec.mk "HighLatency" "latency_seconds > 1" EmptyString EmptyString
       (Some (<["team" := "sre"]> ∅)) (Some ∅) None)
    (AlertRuleStatus.mk []).

(** The AlertRule of the workload [checkout], with a stale reference. *)
Definition checkoutAlert : AlertRule.t :=
  AlertRule.mk (TypeMeta.mk "AlertRule" "monitoring.example.com/v1")
    (ObjectMeta.mk "checkout-alert" "shop" None [] "uid-a" "7" 2 None)
    (AlertRuleSpec.mk "CheckoutSlow" "latency_seconds > 1" "warning" "5m"
       (Some (<["team" := "sre"]> ∅)) None
       (Some (DeploymentReference.mk "staging" "checkout")))
    (AlertRuleStatus.mk
       [Condition.mk "PrometheusRuleReady" ConditionTrue 2 100
          "PrometheusRuleCreated" "PrometheusRule has been successfully created"]).

Definition checkoutAlertDeleting : AlertRule.t :=
  AlertRule.SetObjectMeta
    (ObjectMeta.mk "checkout-alert" "shop" None [] "uid-a" "7" 2 (Some 900))
    checkoutAlert.

Definition staleArtifact : Unstructured.t :=
  Unstructured.mk (TypeMeta.mk "PrometheusRule" "monitoring.coreos.com/v1")
    (ObjectMeta.mk "checkout-alert" "shop" None [] "uid-p" "8" 1 None) ∅.

Definition cluster (deployments : list Deployment.t) (alertRules : list AlertRule.t)
    (artifacts : list Unstructured.t) : Cluster.t AlertRule.t Unstructured.t :=
  Cluster.mk
    (list_to_map ((λ o, (key_of o, o)) <$> deployments))
    (list_to_map ((λ o, (key_of o, o)) <$> alertRules))
    (list_to_map ((λ o, (key_of o, o)) <$> artifacts))
    10 1000 [] [].

(** The list-based AlertRule of the configuration-blob version: one rule
    with an empty duration and severity and a discord endpoint only. *)
Definition blobRule : ConfigBlob.Rule.t :=
  ConfigBlob.Rule.mk "PodDown" "up == 0" EmptyString EmptyString
    [ConfigBlob.Notification.mk "https://discord.example/hook" EmptyString].

Definition blobAlert (deletion : option Time) : ConfigBlob.AlertRule.t :=
  ConfigBlob.AlertRule.mk (TypeMeta.mk "AlertRule" "monitoring.my.domain/v1")
    (ObjectMeta.mk "pods" "shop" None [] "uid-b" "3" 1 deletion)
    (ConfigBlob.AlertRuleSpec.mk [blobRule] "checkout")
    (AlertRuleStatus.mk []).

(** A list-based AlertRule without rules, on which a [Degraded] condition
    with the reason [GenerationFailed] was put by hand. *)
Definition emptyBlobAlert : ConfigBlob.AlertRule.t :=
  ConfigBlob.AlertRule.mk (TypeMeta.mk "AlertRule" "monitoring.my.domain/v1")
    (ObjectMeta.mk "pods" "shop" None [] "uid-b" "3" 1 None)
    (ConfigBlob.AlertRuleSpec.mk [] "checkout")
    (AlertRuleStatus.mk
       [Condition.mk "Degraded" ConditionTrue 1 100 "GenerationFailed" "by hand"]).

Definition orphanConfigMap : ConfigBlob.ConfigMap.t :=
  ConfigBlob.ConfigMap.mk
    (ObjectMeta.mk "alertrule-pods" "shop" None [] "uid-c" "4" 1 None)
    (Some (<["alertrules.yaml" := "groups:"]> ∅)).

Definition blobCluster (alertRules : list ConfigBlob.AlertRule.t)
    (configMaps : list ConfigBlob.ConfigMap.t)
  : Cluster.t ConfigBlob.AlertRule.t ConfigBlob.ConfigMap.t :=
  Cluster.mk ∅
    (list_to_map ((λ o, (key_of o, o)) <$> alertRules))
    (list_to_map ((λ o, (key_of o, o)) <$> configMaps))
    10 1000 [] [].

(** The cluster [c] with the failure script [faults]. *)
Definition withFaults {AR Art : Type} (faults : list (option Transient))
    (c : Cluster.t AR Art) : Cluster.t AR Art :=
  Cluster.mk (Cluster.deployments c) (Cluster.alertRules c) (Cluster.artifacts c)
    (Cluster.revision c) (Cluster.clock c) faults (Cluster.calls c).

End Examples.

(** * Properties *)

(** ** Running the calls of the client *)

Lemma bind_run {S A B : Type} (m : M S A) (f : A → M S B) (s : S) :
  (m ≫= f) s = f (m s).1 (m s).2.
Proof. unfold mbind, M_bind. by destruct (m s). Qed.

Lemma IsNotFound_transient f : apierrors.IsNotFound (transientError f) = false.
Proof. by destruct f. Qed.

Lemma nextFault_nil {AR Art : Type} (c : Cluster.t AR Art) :
  Cluster.faults c = [] → nextFault c = None.
Proof. unfold nextFault. by intros ->. Qed.

Lemma faults_logged_nil {AR Art : Type} call (c : Cluster.t AR Art) :
  Cluster.faults c = [] → Cluster.faults (logged call c) = [].
Proof. simpl. by intros ->. Qed.

Lemma stale_same `{Object T} (stored sent : T) :
  ObjectMeta.ResourceVersion (GetObjectMeta sent) =
  ObjectMeta.ResourceVersion (GetObjectMeta stored) →
  stale stored sent = false.
Proof.
  intros Hrv. unfold stale. rewrite Hrv.
  rewrite (bool_decide_eq_false_2 (_ ≠ _)); [apply andb_false_r|]. by intros ?.
Qed.

Section calls.
Context {AR Art T : Type} `{!Object T}.
Context (R : Resource (AR:=AR) (Art:=Art) T).
Implicit Types (c : Cluster.t AR Art) (o : T) (k : string * string).

Lemma Get_fault k c f :
  nextFault c = Some f →
  Get R k c = (inl (transientError f), logged (Call.mk VGet (kind R) k) c).
Proof. unfold Get. by intros ->. Qed.

Lemma Get_found k c o :
  nextFault c = None → view R c !! k = Some o →
  Get R k c = (inr o, logged (Call.mk VGet (kind R) k) c).
Proof. unfold Get, store_get. by intros -> ->. Qed.

Lemma Get_missing k c :
  nextFault c = None → view R c !! k = None →
  Get R k c = (inl (apierrors.StatusError apierrors.NotFound),
               logged (Call.mk VGet (kind R) k) c).
Proof. unfold Get, store_get. by intros -> ->. Qed.

Lemma write_fault verb o op c f :
  nextFault c = Some f →
  write verb R o op c =
    (inl (transientError f), logged (Call.mk verb (kind R) (key_of o)) c).
Proof. unfold write. by intros ->. Qed.

Lemma Create_new o c :
  nextFault c = None → view R c !! key_of o = None →
  ∃ o',
    Create R o c =
      (inr o', set_revision (Cluster.revision c + 1)
                 (over R (<[key_of o := o']> (view R c))
                    (logged (Call.mk VCreate (kind R) (key_of o)) c))) ∧
    o' = stamp (Cluster.revision c + 1)
           (WithObjectMeta
              (ObjectMeta.SetGeneration 1
                 (ObjectMeta.SetUID ("uid-" +:+ pretty (Cluster.revision c + 1))
                    (GetObjectMeta o))) o).
Proof.
  intros Hf Hk. unfold Create, write, store_create. rewrite Hf, Hk. eauto.
Qed.

Lemma replace_fresh (merge : T → T → T) verb o stored c :
  nextFault c = None → view R c !! key_of o = Some stored → stale stored o = false →
  write verb R o (store_replace merge) c =
    (inr (stamp (Cluster.revision c + 1) (merge stored o)),
     set_revision (Cluster.revision c + 1)
       (over R (<[key_of o := stamp (Cluster.revision c + 1) (merge stored o)]> (view R c))
          (logged (Call.mk verb (kind R) (key_of o)) c))).
Proof. intros Hf Hk Hs. unfold write, store_replace. by rewrite Hf, Hk, Hs. Qed.

Lemma replace_stale (merge : T → T → T) verb o stored c :
  nextFault c = None → view R c !! key_of o = Some stored → stale stored o = true →
  write verb R o (store_replace merge) c =
    (inl (apierrors.StatusError apierrors.Conflict),
     logged (Call.mk verb (kind R) (key_of o)) c).
Proof. intros Hf Hk Hs. unfold write, store_replace. by rewrite Hf, Hk, Hs. Qed.

Lemma replace_missing (merge : T → T → T) verb o c :
  nextFault c = None → view R c !! key_of o = None →
  write verb R o (store_replace merge) c =
    (inl (apierrors.StatusError apierrors.NotFound),
     logged (Call.mk verb (kind R) (key_of o)) c).
Proof. intros Hf Hk. unfold write, store_replace. by rewrite Hf, Hk. Qed.

Lemma Delete_fault o c f :
  nextFault c = Some f →
  Delete R o c =
    (Some (transientError f), logged (Call.mk VDelete (kind R) (key_of o)) c).
Proof. unfold Delete. by intros ->. Qed.

Lemma Delete_found o stored c :
  nextFault c = None → view R c !! key_of o = Some stored →
  Delete R o c =
    (None, set_revision (Cluster.revision c + 1)
             (over R (delete (key_of o) (view R c))
                (logged (Call.mk VDelete (kind R) (key_of o)) c))).
Proof. intros Hf Hk. unfold Delete, store_delete. by rewrite Hf, Hk. Qed.

Lemma Delete_missing o c :
  nextFault c = None → view R c !! key_of o = None →
  Delete R o c =
    (Some (apierrors.StatusError apierrors.NotFound),
     logged (Call.mk VDelete (kind R) (key_of o)) c).
Proof. intros Hf Hk. unfold Delete, store_delete. by rewrite Hf, Hk. Qed.
End calls.

(** ** The condition list *)

Lemma upsertCondition_replaceOrAppend conditions condition :
  upsertCondition conditions condition = replaceOrAppend conditions condition.
Proof.
  unfold replaceOrAppend.
  induction conditions as [|c rest IH]; simpl; [done|].
  case_bool_decide as Hty; case_decide; try done.
  rewrite IH. destruct (list_find _ rest) as [[i x]|]; done.
Qed.

Lemma upsertCondition_types conditions condition :
  Condition.Type_ <$> upsertCondition conditions condition =
  if bool_decide (Condition.Type_ condition ∈ Condition.Type_ <$> conditions)
  then Condition.Type_ <$> conditions
  else (Condition.Type_ <$> conditions) ++ [Condition.Type_ condition].
Proof.
  induction conditions as [|c rest IH]; [done|].
  cbn [upsertCondition].
  destruct (decide (Condition.Type_ c = Condition.Type_ condition)) as [Hty|Hty].
  - rewrite (bool_decide_eq_true_2 _ Hty), fmap_cons, bool_decide_eq_true_2.
    + by rewrite fmap_cons, Hty.
    + rewrite fmap_cons, Hty. left.
  - rewrite (bool_decide_eq_false_2 _ Hty), !fmap_cons, IH.
    rewrite (bool_decide_ext (Condition.Type_ condition
      ∈ Condition.Type_ c :: (Condition.Type_ <$> rest))
      (Condition.Type_ condition ∈ Condition.Type_ <$> rest)).
    + by case_bool_decide.
    + rewrite elem_of_cons. intuition congruence.
Qed.

Lemma upsertCondition_unique conditions condition :
  uniqueTypes conditions → uniqueTypes (upsertCondition conditions condition).
Proof.
  unfold uniqueTypes. intros Hnd. rewrite upsertCondition_types.
  case_bool_decide as Hin; [done|].
  apply NoDup_app. split_and!; [done| |apply NoDup_singleton].
  intros t Ht Ht'. apply list_elem_of_singleton in Ht'. by subst.
Qed.

Lemma upsertCondition_elem conditions condition :
  condition ∈ upsertCondition conditions condition.
Proof.
  induction conditions as [|c rest IH]; simpl; [left|].
  case_bool_decide; [left|by right].
Qed.

(** Whatever the upsert leaves in the list is the new condition or was
    there before. *)
Lemma upsertCondition_subset conditions condition c :
  c ∈ upsertCondition conditions condition → c = condition ∨ c ∈ conditions.
Proof.
  induction conditions as [|c0 rest IH]; simpl.
  - intros ->%list_elem_of_singleton. by left.
  - case_bool_decide.
    + intros [->|?]%elem_of_cons; [by left|right; by right].
    + intros [->|Hin]%elem_of_cons; [right; left|].
      destruct (IH Hin) as [->|?]; [by left|right; by right].
Qed.

(** ** Ranging over a map does not depend on the order *)

Section range.
Context {W : Type} (f : string → W).

Lemma foldl_insert_union (l : list (string * string)) (dst : gmap string W) :
  NoDup l.*1 →
  foldl (λ acc kv, <[kv.1 := f kv.2]> acc) dst l = (f <$> list_to_map l) ∪ dst.
Proof.
  revert dst. induction l as [|[k v] l IH]; intros dst Hnd; simpl.
  - by rewrite fmap_empty, (left_id_L ∅ (∪)).
  - apply NoDup_cons in Hnd as [Hk Hnd].
    rewrite IH by done. rewrite fmap_insert.
    apply map_eq. intros i.
    rewrite !lookup_union, !lookup_insert.
    destruct (decide (k = i)) as [->|Hne]; [|done].
    rewrite lookup_fmap, (not_elem_of_list_to_map_1 _ i Hk). simpl.
    by rewrite (left_id_L None (∪)), union_Some_l.
Qed.

Lemma rangeInto_union order (src : gmap string string) (dst : gmap string W) :
  validOrder order →
  AlertRuleReconciler.rangeInto order f src dst = (f <$> src) ∪ dst.
Proof.
  intros Hord. unfold AlertRuleReconciler.rangeInto.
  assert (NoDup (order src).*1) as Hnd.
  { rewrite (Hord src). apply NoDup_fst_map_to_list. }
  rewrite foldl_insert_union by done.
  by rewrite (list_to_map_proper _ _ Hnd (Hord src)), list_to_map_to_list.
Qed.
End range.

Lemma validOrder_map_to_list : validOrder map_to_list.
Proof. intros m. reflexivity. Defined.

(** ** The rule-group renderer *)

Lemma createPrometheusRule_labels order alertRule :
  validOrder order →
  Unstructured.GetLabels (AlertRuleReconciler.createPrometheusRule order alertRule) =
  Some (match ObjectMeta.Labels (AlertRule.ObjectMeta_ alertRule) with
        | Some user => user ∪ builtInLabels
        | None => builtInLabels
        end).
Proof.
  intros Hord. unfold AlertRuleReconciler.createPrometheusRule. simpl.
  destruct (ObjectMeta.Labels _) as [user|]; [|done].
  by rewrite (rangeInto_union id order user _ Hord), map_fmap_id.
Qed.

Lemma buildPrometheusRule_for order alertRule :
  AlertRuleReconciler.buildPrometheusRule order alertRule !! "for" =
  if nonempty (AlertRuleSpec.For (AlertRule.Spec alertRule))
  then Some (VString (AlertRuleSpec.For (AlertRule.Spec alertRule)))
  else None.
Proof.
  unfold AlertRuleReconciler.buildPrometheusRule.
  destruct (AlertRuleSpec.Annotations _), (nonempty _); by simplify_map_eq.
Qed.

Lemma buildPrometheusRule_annotations order alertRule :
  validOrder order →
  AlertRuleReconciler.buildPrometheusRule order alertRule !! "annotations" =
  (λ m, VMap (VString <$> m)) <$> AlertRuleSpec.Annotations (AlertRule.Spec alertRule).
Proof.
  intros Hord. unfold AlertRuleReconciler.buildPrometheusRule.
  destruct (AlertRuleSpec.Annotations _) as [m|]; simpl.
  - rewrite lookup_insert_eq, (rangeInto_union VString order m _ Hord).
    by rewrite (right_id_L ∅ (∪)).
  - destruct (nonempty _); by simplify_map_eq.
Qed.

Lemma buildPrometheusRule_labels order alertRule :
  validOrder order →
  AlertRuleReconciler.buildPrometheusRule order alertRule !! "labels" =
  Some (VMap (match AlertRuleSpec.Labels (AlertRule.Spec alertRule) with
              | Some m => (VString <$> m) ∪
                  {["severity" := VString (AlertRuleSpec.Severity (AlertRule.Spec alertRule))]}
              | None =>
                  {["severity" := VString (AlertRuleSpec.Severity (AlertRule.Spec alertRule))]}
              end)).
Proof.
  intros Hord. unfold AlertRuleReconciler.buildPrometheusRule.
  destruct (AlertRuleSpec.Annotations _) as [m|], (AlertRuleSpec.Labels _) as [l|];
    simplify_map_eq; try done;
    by rewrite (rangeInto_union VString order l _ Hord).
Qed.

(** The rule does not depend on the order the runtime ranges in. *)
Lemma buildPrometheusRule_order order1 order2 alertRule :
  validOrder order1 → validOrder order2 →
  AlertRuleReconciler.buildPrometheusRule order1 alertRule =
  AlertRuleReconciler.buildPrometheusRule order2 alertRule.
Proof.
  intros H1 H2. unfold AlertRuleReconciler.buildPrometheusRule.
  destruct (AlertRuleSpec.Annotations _) as [m|], (AlertRuleSpec.Labels _) as [l|];
    by rewrite ?(rangeInto_union VString order1 _ _ H1),
               ?(rangeInto_union VString order2 _ _ H2).
Qed.

(** A severity left empty in the spec is rendered as a [severity] label
    with the empty string as its value (line 184 has no test of
    [Spec.Severity], unlike line 179 for [Spec.For]). *)
Example buildPrometheusRule_empty_severity :
  AlertRuleReconciler.buildPrometheusRule map_to_list Examples.latency !! "labels" =
  Some (VMap (<["team" := VString "sre"]> (<["severity" := VString EmptyString]> ∅))).
Proof. vm_compute. reflexivity. Qed.

(** C2 (amended).  The labels of the rendered PrometheusRule are the
    built-in ones ([managed-by], [release]) overlaid with the labels of the
    AlertRule: on every key the AlertRule has, [managed-by] included, its
    value is the one rendered; the other keys keep the built-in value. *)
Theorem createPrometheusRule_labels_overlay order alertRule :
  validOrder order →
  ∃ labels,
    Unstructured.GetLabels (AlertRuleReconciler.createPrometheusRule order alertRule)
      = Some labels ∧
    ∀ k, labels !! k = overlay (ObjectMeta.Labels (AlertRule.ObjectMeta_ alertRule)) k.
Proof.
  intros Hord. eexists. split; [by apply createPrometheusRule_labels|].
  intros k. unfold overlay.
  destruct (ObjectMeta.Labels _) as [user|]; simpl; [|done].
  rewrite lookup_union.
  destruct (user !! k) as [v|];
    [by rewrite union_Some_l | by rewrite (left_id_L None (∪))].
Qed.

Lemma createPrometheusRule_labels_overlay_witness :
  validOrder map_to_list ∧
  ∃ labels,
    Unstructured.GetLabels
      (AlertRuleReconciler.createPrometheusRule map_to_list Examples.latency)
      = Some labels ∧
    ∀ k, labels !! k =
         overlay (ObjectMeta.Labels (AlertRule.ObjectMeta_ Examples.latency)) k.
Proof.
  split; [exact validOrder_map_to_list|].
  apply (createPrometheusRule_labels_overlay map_to_list Examples.latency).
  exact validOrder_map_to_list.
Defined.

(** C2, as stated, fails: an AlertRule labelled [managed-by=custom] is
    rendered with [managed-by=custom], not [alert-rule-operator]. *)
Lemma managed_by_label_overridden :
  Unstructured.GetLabels
    (AlertRuleReconciler.createPrometheusRule map_to_list Examples.latency)
    ≫= (.!! "managed-by") = Some "custom" ∧
  Unstructured.GetLabels
    (AlertRuleReconciler.createPrometheusRule map_to_list Examples.latency)
    ≫= (.!! "managed-by") ≠ Some "alert-rule-operator".
Proof. split; [vm_compute; reflexivity | vm_compute; discriminate]. Qed.

(** C5.  Rendering is deterministic.  The rule-group renderer ranges over
    Go maps, whose iteration order the runtime picks anew each time: two
    renderings of one AlertRule agree whatever the two orders are.  The
    configuration-blob renderer builds its text from slices only; its
    output is determined by the name and the spec of the AlertRule. *)
Theorem render_deterministic order1 order2 (alertRule : AlertRule.t)
    (a b : ConfigBlob.AlertRule.t) :
  validOrder order1 → validOrder order2 →
  ConfigBlob.AlertRule.Name a = ConfigBlob.AlertRule.Name b →
  ConfigBlob.AlertRule.Spec a = ConfigBlob.AlertRule.Spec b →
  AlertRuleReconciler.createPrometheusRule order1 alertRule =
    AlertRuleReconciler.createPrometheusRule order2 alertRule ∧
  AlertRuleReconciler.buildPrometheusRule order1 alertRule =
    AlertRuleReconciler.buildPrometheusRule order2 alertRule ∧
  ConfigBlob.AlertRuleReconciler.generateAlertRulesYAML a =
    ConfigBlob.AlertRuleReconciler.generateAlertRulesYAML b.
Proof.
  intros H1 H2 Hname Hspec. split_and!.
  - unfold AlertRuleReconciler.createPrometheusRule.
    rewrite (buildPrometheusRule_order order1 order2 alertRule H1 H2).
    destruct (ObjectMeta.Labels _) as [user|]; [|done].
    by rewrite (rangeInto_union id order1 _ _ H1), (rangeInto_union id order2 _ _ H2).
  - by apply buildPrometheusRule_order.
  - unfold ConfigBlob.AlertRuleReconciler.generateAlertRulesYAML,
      ConfigBlob.AlertRuleReconciler.ruleYAML,
      ConfigBlob.AlertRuleReconciler.labelLines.
    by rewrite Hname, Hspec.
Qed.

Lemma render_deterministic_witness :
  validOrder map_to_list ∧ validOrder (reverse ∘ map_to_list) ∧
  AlertRuleReconciler.createPrometheusRule map_to_list Examples.latency =
    AlertRuleReconciler.createPrometheusRule (reverse ∘ map_to_list) Examples.latency ∧
  AlertRuleReconciler.buildPrometheusRule map_to_list Examples.latency =
    AlertRuleReconciler.buildPrometheusRule (reverse ∘ map_to_list) Examples.latency ∧
  ConfigBlob.AlertRuleReconciler.generateAlertRulesYAML (Examples.blobAlert None) =
    ConfigBlob.AlertRuleReconciler.generateAlertRulesYAML (Examples.blobAlert (Some 900)).
Proof.
  assert (validOrder (reverse ∘ map_to_list)) as Hrev.
  { intros m. simpl. apply reverse_Permutation. }
  split; [exact validOrder_map_to_list|]. split; [exact Hrev|].
  apply (render_deterministic map_to_list (reverse ∘ map_to_list) Examples.latency
           (Examples.blobAlert None) (Examples.blobAlert (Some 900)));
    [exact validOrder_map_to_list | exact Hrev | reflexivity | reflexivity].
Defined.

(** ** Names *)

Lemma append_length (a b : string) :
  String.length (a +:+ b) = (String.length a + String.length b)%nat.
Proof. induction a; simpl; [done|]. by rewrite IHa. Qed.

Lemma configMapName_differs (name : string) :
  ConfigBlob.AlertRuleReconciler.configMapNameFor name ≠ name.
Proof.
  intros Heq. apply (f_equal String.length) in Heq.
  unfold ConfigBlob.AlertRuleReconciler.configMapNameFor in Heq.
  rewrite append_length in Heq. simpl in Heq. lia.
Qed.

(** C8 (amended).  The rule-group artifact has the name and the namespace
    of its AlertRule.  The configuration-blob artifact lives in the
    namespace of its AlertRule under the name [alertrule-<name>], which is
    never the name of the AlertRule. *)
Theorem artifact_identity order (alertRule : AlertRule.t)
    (blob : ConfigBlob.AlertRule.t) (yaml : string) :
  let prometheusRule := AlertRuleReconciler.createPrometheusRule order alertRule in
  let configMap := ConfigBlob.AlertRuleReconciler.desiredConfigMap blob yaml in
  (Unstructured.GetName prometheusRule = AlertRule.Name alertRule ∧
   Unstructured.GetNamespace prometheusRule = AlertRule.Namespace alertRule ∧
   key_of prometheusRule = key_of alertRule) ∧
  (ConfigBlob.ConfigMap.Namespace configMap = ConfigBlob.AlertRule.Namespace blob ∧
   ConfigBlob.ConfigMap.Name configMap =
     "alertrule-" +:+ ConfigBlob.AlertRule.Name blob ∧
   ConfigBlob.ConfigMap.Name configMap ≠ ConfigBlob.AlertRule.Name blob).
Proof.
  simpl. split_and!; try done.
  apply configMapName_differs.
Qed.

(** ** Strings *)

Lemma append_assoc (a b c : string) : (a +:+ b) +:+ c = a +:+ b +:+ c.
Proof.
  induction a as [|x a IH]; [done|].
  change (String x ((a +:+ b) +:+ c) = String x (a +:+ b +:+ c)). by f_equal.
Qed.

Lemma append_empty_r (a : string) : a +:+ EmptyString = a.
Proof.
  induction a as [|x a IH]; [done|].
  change (String x (a +:+ EmptyString) = String x a). by f_equal.
Qed.

Lemma Join_cons_empty (s : string) (rest : list string) :
  Join (s :: rest) EmptyString = s +:+ Join rest EmptyString.
Proof. destruct rest; simpl; [by rewrite append_empty_r|done]. Qed.

Lemma Join_app_empty (l1 l2 : list string) :
  Join (l1 ++ l2) EmptyString = Join l1 EmptyString +:+ Join l2 EmptyString.
Proof.
  induction l1 as [|s l1 IH]; [done|].
  rewrite <- app_comm_cons, !Join_cons_empty, IH. by rewrite append_assoc.
Qed.

(** ** Optional fields *)

(** The PrometheusRule holds one group, named after the AlertRule, with the
    one rule [buildPrometheusRule] builds (lines 154-167). *)
Lemma createPrometheusRule_spec order alertRule :
  Unstructured.Object (AlertRuleReconciler.createPrometheusRule order alertRule) !! "spec" =
  Some (VMap {["groups" :=
                 VList [VMap (<["rules" :=
                                  VList [VMap (AlertRuleReconciler.buildPrometheusRule
                                                 order alertRule)]]>
                                (<["name" := VString (AlertRule.Name alertRule +:+ "-group")]>
                                   ∅))]]}).
Proof. unfold AlertRuleReconciler.createPrometheusRule. by simplify_map_eq. Qed.

Lemma append_empty_l (a : string) : EmptyString +:+ a = a.
Proof. done. Qed.

(** Lines joined by a newline and closed by one are the lines, each
    followed by a newline. *)
Lemma Join_lines (s : string) (l : list string) (rest : string) :
  Join (s :: l) nl +:+ nl +:+ rest = foldr (λ s acc, s +:+ nl +:+ acc) rest (s :: l).
Proof.
  revert s. induction l as [|s' l IH]; intros s; [done|].
  change (Join (s :: s' :: l) nl) with (s +:+ nl +:+ Join (s' :: l) nl).
  rewrite !append_assoc, IH. done.
Qed.

Lemma foldr_notificationLines (ns : list ConfigBlob.Notification.t) (rest : string) :
  foldr (λ s acc, s +:+ nl +:+ acc) rest
    (concat (ConfigBlob.AlertRuleReconciler.notificationLines <$> ns)) =
  foldr (λ n acc,
           (if nonempty (ConfigBlob.Notification.Discord n)
            then "    discord: " +:+ dquote +:+ ConfigBlob.Notification.Discord n +:+
                 dquote +:+ nl
            else EmptyString) +:+
           (if nonempty (ConfigBlob.Notification.Email n)
            then "    email: " +:+ dquote +:+ ConfigBlob.Notification.Email n +:+
                 dquote +:+ nl
            else EmptyString) +:+ acc)
    rest ns.
Proof.
  induction ns as [|n ns IH]; [done|].
  rewrite fmap_cons. cbn [concat foldr]. rewrite foldr_app, IH.
  unfold ConfigBlob.AlertRuleReconciler.notificationLines.
  destruct (nonempty (ConfigBlob.Notification.Discord n)),
    (nonempty (ConfigBlob.Notification.Email n)); cbn [app foldr];
    by rewrite ?append_assoc, ?append_empty_l.
Qed.

Lemma ruleYAML_text (blob : ConfigBlob.AlertRule.t) (rule : ConfigBlob.Rule.t) :
  ConfigBlob.AlertRuleReconciler.ruleYAML blob rule =
    "- alert: " +:+ ConfigBlob.Rule.Name rule +:+ nl +:+
    "  expr: " +:+ ConfigBlob.Rule.Condition rule +:+ nl +:+
    "  for: " +:+ ConfigBlob.Rule.Duration rule +:+ nl +:+
    "  labels:" +:+ nl +:+
    "    alertname: " +:+ dquote +:+ ConfigBlob.Rule.Name rule +:+ dquote +:+ nl +:+
    "    severity: " +:+ dquote +:+ ConfigBlob.Rule.Severity rule +:+ dquote +:+ nl +:+
    "    deployment: " +:+ dquote +:+
      ConfigBlob.AlertRuleSpec.TargetDeployment (ConfigBlob.AlertRule.Spec blob) +:+
      dquote +:+ nl +:+
    "  annotations:" +:+ nl +:+
    "    summary: " +:+ dquote +:+ ConfigBlob.Rule.Name rule +:+ dquote +:+ nl +:+
    "    severity: " +:+ dquote +:+ ConfigBlob.Rule.Severity rule +:+ dquote +:+ nl +:+
    foldr (λ n acc,
             (if nonempty (ConfigBlob.Notification.Discord n)
              then "    discord: " +:+ dquote +:+ ConfigBlob.Notification.Discord n +:+
                   dquote +:+ nl
              else EmptyString) +:+
             (if nonempty (ConfigBlob.Notification.Email n)
              then "    email: " +:+ dquote +:+ ConfigBlob.Notification.Email n +:+
                   dquote +:+ nl
              else EmptyString) +:+ acc)
      EmptyString (ConfigBlob.Rule.Notifications rule).
Proof.
  unfold ConfigBlob.AlertRuleReconciler.ruleYAML,
    ConfigBlob.AlertRuleReconciler.labelLines,
    ConfigBlob.AlertRuleReconciler.annotationLines.
  rewrite <- (append_empty_r (Join (_ ++ _) nl +:+ nl)), append_assoc.
  cbn [app]. rewrite !Join_lines. cbn [foldr].
  rewrite foldr_notificationLines. by rewrite !append_assoc.
Qed.

Lemma Join_empty_foldr (l : list string) :
  Join l EmptyString = foldr (λ s acc, s +:+ acc) EmptyString l.
Proof.
  induction l as [|s l IH]; [done|]. by rewrite Join_cons_empty, IH.
Qed.

Lemma generateAlertRulesYAML_text (blob : ConfigBlob.AlertRule.t) :
  (ConfigBlob.AlertRuleReconciler.generateAlertRulesYAML blob).1 =
    "groups:" +:+ nl +:+ "- name: " +:+ ConfigBlob.AlertRule.Name blob +:+ nl +:+
    "  rules:" +:+ nl +:+
    foldr (λ rule acc, ConfigBlob.AlertRuleReconciler.ruleYAML blob rule +:+ acc)
      EmptyString (ConfigBlob.AlertRuleSpec.Rules (ConfigBlob.AlertRule.Spec blob)).
Proof.
  unfold ConfigBlob.AlertRuleReconciler.generateAlertRulesYAML. cbn [fst].
  by rewrite Join_empty_foldr, foldr_fmap.
Qed.


Lemma notificationLines_length notif :
  length (ConfigBlob.AlertRuleReconciler.notificationLines notif) =
  ((if nonempty (ConfigBlob.Notification.Discord notif) then 1 else 0) +
   (if nonempty (ConfigBlob.Notification.Email notif) then 1 else 0))%nat.
Proof.
  unfold ConfigBlob.AlertRuleReconciler.notificationLines.
  by destruct (nonempty _), (nonempty _).
Qed.

(** C9 (amended).  The rule-group renderer leaves [for] out exactly when
    the spec's [for] is the empty string, and leaves [annotations] out
    exactly when the spec has no annotations map (an empty map that is
    present is rendered as an empty map); the rule so built is the one rule
    of the PrometheusRule.  The configuration-blob renderer leaves out the
    discord and the email line of an endpoint that is empty; it writes the
    [for] line and both severity lines of every rule, whatever the duration
    and the severity are: the text of a rule is the [alert], [expr] and
    [for] lines, the three label lines, the summary and severity annotation
    lines and, endpoint by endpoint, the discord and email lines of the
    endpoints that are not empty, and the text of the artifact is the
    header followed by the text of every rule of the spec. *)
Theorem optional_fields order (alertRule : AlertRule.t)
    (blob : ConfigBlob.AlertRule.t) (rule : ConfigBlob.Rule.t)
    (notif : ConfigBlob.Notification.t) :
  validOrder order →
  let spec := AlertRule.Spec alertRule in
  let rendered := AlertRuleReconciler.buildPrometheusRule order alertRule in
  (rendered !! "for" =
     if nonempty (AlertRuleSpec.For spec)
     then Some (VString (AlertRuleSpec.For spec)) else None) ∧
  (rendered !! "annotations" =
     (λ m, VMap (VString <$> m)) <$> AlertRuleSpec.Annotations spec) ∧
  (ConfigBlob.Notification.Discord notif = EmptyString →
   ConfigBlob.AlertRuleReconciler.notificationLines notif =
     if nonempty (ConfigBlob.Notification.Email notif)
     then ["    email: " +:+ dquote +:+ ConfigBlob.Notification.Email notif +:+ dquote]
     else []) ∧
  (ConfigBlob.Notification.Email notif = EmptyString →
   ConfigBlob.AlertRuleReconciler.notificationLines notif =
     if nonempty (ConfigBlob.Notification.Discord notif)
     then ["    discord: " +:+ dquote +:+ ConfigBlob.Notification.Discord notif +:+ dquote]
     else []) ∧
  (ConfigBlob.AlertRuleReconciler.ruleYAML blob rule =
     "- alert: " +:+ ConfigBlob.Rule.Name rule +:+ nl +:+
     "  expr: " +:+ ConfigBlob.Rule.Condition rule +:+ nl +:+
     "  for: " +:+ ConfigBlob.Rule.Duration rule +:+ nl +:+
     "  labels:" +:+ nl +:+
     "    alertname: " +:+ dquote +:+ ConfigBlob.Rule.Name rule +:+ dquote +:+ nl +:+
     "    severity: " +:+ dquote +:+ ConfigBlob.Rule.Severity rule +:+ dquote +:+ nl +:+
     "    deployment: " +:+ dquote +:+
       ConfigBlob.AlertRuleSpec.TargetDeployment (ConfigBlob.AlertRule.Spec blob) +:+
       dquote +:+ nl +:+
     "  annotations:" +:+ nl +:+
     "    summary: " +:+ dquote +:+ ConfigBlob.Rule.Name rule +:+ dquote +:+ nl +:+
     "    severity: " +:+ dquote +:+ ConfigBlob.Rule.Severity rule +:+ dquote +:+ nl +:+
     foldr (λ n acc,
              (if nonempty (ConfigBlob.Notification.Discord n)
               then "    discord: " +:+ dquote +:+ ConfigBlob.Notification.Discord n +:+
                    dquote +:+ nl
               else EmptyString) +:+
              (if nonempty (ConfigBlob.Notification.Email n)
               then "    email: " +:+ dquote +:+ ConfigBlob.Notification.Email n +:+
                    dquote +:+ nl
               else EmptyString) +:+ acc)
       EmptyString (ConfigBlob.Rule.Notifications rule)) ∧
  ("    severity: " +:+ dquote +:+ ConfigBlob.Rule.Severity rule +:+ dquote
     ∈ ConfigBlob.AlertRuleReconciler.labelLines blob rule) ∧
  ("    severity: " +:+ dquote +:+ ConfigBlob.Rule.Severity rule +:+ dquote
     ∈ ConfigBlob.AlertRuleReconciler.annotationLines rule) ∧
  ((ConfigBlob.AlertRuleReconciler.generateAlertRulesYAML blob).1 =
     "groups:" +:+ nl +:+ "- name: " +:+ ConfigBlob.AlertRule.Name blob +:+ nl +:+
     "  rules:" +:+ nl +:+
     foldr (λ rule acc, ConfigBlob.AlertRuleReconciler.ruleYAML blob rule +:+ acc)
       EmptyString (ConfigBlob.AlertRuleSpec.Rules (ConfigBlob.AlertRule.Spec blob))) ∧
  (Unstructured.Object (AlertRuleReconciler.createPrometheusRule order alertRule)
     !! "spec" =
     Some (VMap {["groups" :=
                    VList [VMap (<["rules" := VList [VMap rendered]]>
                                   (<["name" :=
                                        VString (AlertRule.Name alertRule +:+ "-group")]>
                                      ∅))]]})).
Proof.
  intros Hord. cbn zeta. split_and!.
  - apply buildPrometheusRule_for.
  - by apply buildPrometheusRule_annotations.
  - intros Hd. unfold ConfigBlob.AlertRuleReconciler.notificationLines.
    by rewrite Hd.
  - intros He. unfold ConfigBlob.AlertRuleReconciler.notificationLines.
    rewrite He. by destruct (nonempty _).
  - apply ruleYAML_text.
  - unfold ConfigBlob.AlertRuleReconciler.labelLines. set_solver.
  - unfold ConfigBlob.AlertRuleReconciler.annotationLines. set_solver.
  - apply generateAlertRulesYAML_text.
  - apply createPrometheusRule_spec.
Qed.

Lemma optional_fields_witness :
  validOrder map_to_list ∧
  AlertRuleReconciler.buildPrometheusRule map_to_list Examples.latency !! "for" = None ∧
  AlertRuleReconciler.buildPrometheusRule map_to_list Examples.checkoutAlert
    !! "annotations" = None ∧
  ConfigBlob.AlertRuleReconciler.notificationLines
    (ConfigBlob.Notification.mk EmptyString EmptyString) = [].
Proof.
  split; [exact validOrder_map_to_list|]. split_and!.
  - exact (proj1 (optional_fields map_to_list Examples.latency
                    (Examples.blobAlert None) Examples.blobRule
                    (ConfigBlob.Notification.mk EmptyString EmptyString)
                    validOrder_map_to_list)).
  - exact (proj1 (proj2 (optional_fields map_to_list Examples.checkoutAlert
                    (Examples.blobAlert None) Examples.blobRule
                    (ConfigBlob.Notification.mk EmptyString EmptyString)
                    validOrder_map_to_list))).
  - exact (proj1 (proj2 (proj2 (optional_fields map_to_list Examples.latency
                    (Examples.blobAlert None) Examples.blobRule
                    (ConfigBlob.Notification.mk EmptyString EmptyString)
                    validOrder_map_to_list))) eq_refl).
Defined.

(** C9, as stated, fails: an annotations map that is present and empty is
    rendered, and a rule of the configuration blob whose duration and
    severity are empty is rendered with an empty [for] line and with the
    empty string as severity. *)
Lemma empty_fields_are_emitted :
  AlertRuleReconciler.buildPrometheusRule map_to_list Examples.latency
    !! "annotations" = Some (VMap ∅) ∧
  ConfigBlob.AlertRuleReconciler.ruleYAML (Examples.blobAlert None) Examples.blobRule =
    "- alert: PodDown" +:+ nl +:+
    "  expr: up == 0" +:+ nl +:+
    "  for: " +:+ nl +:+
    "  labels:" +:+ nl +:+
    "    alertname: " +:+ dquote +:+ "PodDown" +:+ dquote +:+ nl +:+
    "    severity: " +:+ dquote +:+ dquote +:+ nl +:+
    "    deployment: " +:+ dquote +:+ "checkout" +:+ dquote +:+ nl +:+
    "  annotations:" +:+ nl +:+
    "    summary: " +:+ dquote +:+ "PodDown" +:+ dquote +:+ nl +:+
    "    severity: " +:+ dquote +:+ dquote +:+ nl +:+
    "    discord: " +:+ dquote +:+ "https://discord.example/hook" +:+ dquote +:+ nl.
Proof. split; vm_compute; reflexivity. Qed.

(** ** Reconciles, call by call *)

#[local] Arguments Get : simpl never.
#[local] Arguments write : simpl never.
#[local] Arguments Create : simpl never.
#[local] Arguments Update : simpl never.
#[local] Arguments StatusUpdate : simpl never.
#[local] Arguments Delete : simpl never.
#[local] Arguments mbind : simpl never.
#[local] Arguments nextFault : simpl never.

(** ** A resource that is being deleted *)

Lemma onlyRead_logged {AR Art : Type} kind key (c : Cluster.t AR Art) :
  onlyRead (Call.mk VGet kind key) c (logged (Call.mk VGet kind key) c).
Proof. by repeat split. Qed.

Lemma deployment_being_deleted {Art : Type} Scheme (c : Cluster.t AlertRule.t Art) req d :
  nextFault c = None →
  Cluster.deployments c !! Request.NamespacedName req = Some d →
  IsZero (ObjectMeta.DeletionTimestamp (Deployment.ObjectMeta_ d)) = false →
  DeploymentReconciler.Reconcile Scheme req c =
    (success, logged (Call.mk VGet KDeployment (Request.NamespacedName req)) c).
Proof.
  intros Hf Hd Hz. unfold DeploymentReconciler.Reconcile.
  rewrite bind_run, (Get_found Deployments _ _ _ Hf Hd). simpl. by rewrite Hz.
Qed.

Lemma alertRule_being_deleted order (c : Cluster.t AlertRule.t Unstructured.t) req a :
  nextFault c = None →
  Cluster.alertRules c !! Request.NamespacedName req = Some a →
  IsZero (ObjectMeta.DeletionTimestamp (AlertRule.ObjectMeta_ a)) = false →
  AlertRuleReconciler.Reconcile order req c =
    (success, logged (Call.mk VGet KAlertRule (Request.NamespacedName req)) c).
Proof.
  intros Hf Ha Hz. unfold AlertRuleReconciler.Reconcile.
  rewrite bind_run, (Get_found AlertRules _ _ _ Hf Ha). simpl. by rewrite Hz.
Qed.

(** ** The log of calls only grows *)

Lemma extends_refl {AR Art : Type} (c : Cluster.t AR Art) : extends c c.
Proof. exists []. by rewrite app_nil_r. Qed.

Lemma extends_trans {AR Art : Type} (c1 c2 c3 : Cluster.t AR Art) :
  extends c1 c2 → extends c2 c3 → extends c1 c3.
Proof.
  intros [r1 H1] [r2 H2]. exists (r1 ++ r2). by rewrite H2, H1, app_assoc.
Qed.

Section extends.
Context {AR Art : Type}.
Implicit Types c : Cluster.t AR Art.

Lemma ret_extends {A : Type} (x : A) c :
  extends c ((mret x : M (Cluster.t AR Art) A) c).2.
Proof. apply extends_refl. Qed.

Lemma bind_extends {A B : Type} (m : M (Cluster.t AR Art) A)
    (f : A → M (Cluster.t AR Art) B) c :
  extends c (m c).2 → (∀ a c1, extends c1 (f a c1).2) → extends c ((m ≫= f) c).2.
Proof. intros Hm Hf. rewrite bind_run. eapply extends_trans; [exact Hm|apply Hf]. Qed.

Lemma fmap_extends {A B : Type} (g : A → B) (m : M (Cluster.t AR Art) A) c :
  extends c (m c).2 → extends c ((g <$> m) c).2.
Proof. unfold fmap, M_fmap. by destruct (m c). Qed.

Lemma Now_extends c : extends c (Now c).2.
Proof. apply extends_refl. Qed.

Context {T : Type} `{!Object T} (R : Resource (AR:=AR) (Art:=Art) T).

Lemma Get_extends k c : extends c (Get R k c).2.
Proof. unfold Get. eexists. by destruct (nextFault c). Qed.

(** the store of a kind is apart from the log *)
Hypothesis over_calls : ∀ s c, Cluster.calls (over R s c) = Cluster.calls c.

Lemma write_extends verb o op c : extends c (write verb R o op c).2.
Proof.
  unfold write. exists [Call.mk verb (kind R) (key_of o)].
  destruct (nextFault c); [done|].
  destruct (op _ _ _) as [?|[? ?]]; [done|]. simpl. by rewrite over_calls.
Qed.

Lemma Delete_extends o c : extends c (Delete R o c).2.
Proof.
  unfold Delete. exists [Call.mk VDelete (kind R) (key_of o)].
  destruct (nextFault c); [done|].
  destruct (store_delete _ _); [done|]. simpl. by rewrite over_calls.
Qed.
End extends.

Ltac extends_tac :=
  repeat first
    [ apply ret_extends | apply Now_extends | apply Get_extends
    | apply write_extends; [done] | apply Delete_extends; [done]
    | apply fmap_extends
    | apply bind_extends; [|intros ? ?]
    | case_match ].

Lemma blob_updateStatus_calls
    (c : Cluster.t ConfigBlob.AlertRule.t ConfigBlob.ConfigMap.t) a cond :
  Cluster.calls (ConfigBlob.AlertRuleReconciler.updateStatus a cond c).2 =
  Cluster.calls c ++ [Call.mk VStatusUpdate KAlertRule (key_of a)].
Proof.
  unfold ConfigBlob.AlertRuleReconciler.updateStatus.
  rewrite bind_run. unfold Now. cbn [fst snd]. rewrite bind_run.
  unfold StatusUpdate, write.
  destruct (nextFault c); [done|].
  by destruct (store_status_update _ _ _) as [?|[? ?]].
Qed.

Lemma blob_updateStatus_extends
    (c : Cluster.t ConfigBlob.AlertRule.t ConfigBlob.ConfigMap.t) a cond :
  extends c (ConfigBlob.AlertRuleReconciler.updateStatus a cond c).2.
Proof. eexists. apply blob_updateStatus_calls. Qed.

Lemma blob_reconcile_writes_status
    (c : Cluster.t ConfigBlob.AlertRule.t ConfigBlob.ConfigMap.t) req a :
  nextFault c = None →
  Cluster.alertRules c !! Request.NamespacedName req = Some a →
  key_of a = Request.NamespacedName req →
  ∃ rest,
    Cluster.calls (ConfigBlob.AlertRuleReconciler.Reconcile req c).2 =
    Cluster.calls c ++
      [Call.mk VGet KAlertRule (Request.NamespacedName req);
       Call.mk VStatusUpdate KAlertRule (Request.NamespacedName req)] ++ rest.
Proof.
  intros Hf Ha Hk. unfold ConfigBlob.AlertRuleReconciler.Reconcile.
  rewrite bind_run, (Get_found AlertRules _ _ _ Hf Ha). cbn [fst snd].
  rewrite bind_run.
  pose proof (blob_updateStatus_calls
    (logged (Call.mk VGet KAlertRule (Request.NamespacedName req)) c) a
    (ConfigBlob.AlertRuleReconciler.newCondition "Progressing" ConditionTrue
       "Reconciling" "Reconciling AlertRule")) as Hcalls.
  rewrite Hk in Hcalls. simpl in Hcalls. rewrite <- app_assoc in Hcalls. simpl in Hcalls.
  destruct (ConfigBlob.AlertRuleReconciler.updateStatus _ _ _) as [[a1 e1] c2].
  cbn [fst snd] in *.
  match goal with
  | |- ∃ rest, Cluster.calls (?m c2).2 = _ =>
      assert (extends c2 (m c2).2) as [rest Hrest]
  end.
  2:{ exists rest. by rewrite Hrest, Hcalls, <- app_assoc. }
  destruct e1 as [err|]; [apply ret_extends|].
  cbn [ConfigBlob.AlertRuleReconciler.generateAlertRulesYAML].
  unfold ConfigBlob.AlertRuleReconciler.degraded.
  extends_tac; apply blob_updateStatus_extends.
Qed.

(** ** The deletion fallback *)

Lemma deletePrometheusRule_absent (c : Cluster.t AlertRule.t Unstructured.t) ns name :
  nextFault c = None →
  Cluster.artifacts c !! (ns, name) = None →
  AlertRuleReconciler.deletePrometheusRule ns name c =
    (success, logged (Call.mk VGet KArtifact (ns, name)) c).
Proof.
  intros Hf Ha. unfold AlertRuleReconciler.deletePrometheusRule.
  by rewrite bind_run, (Get_missing Artifacts _ _ Hf Ha).
Qed.

Lemma deletePrometheusRule_present (c : Cluster.t AlertRule.t Unstructured.t)
    ns name art :
  Cluster.faults c = [] →
  Cluster.artifacts c !! (ns, name) = Some art →
  key_of art = (ns, name) →
  ∃ c',
    AlertRuleReconciler.deletePrometheusRule ns name c = (success, c') ∧
    Cluster.artifacts c' = delete (ns, name) (Cluster.artifacts c) ∧
    Cluster.alertRules c' = Cluster.alertRules c ∧
    Cluster.deployments c' = Cluster.deployments c ∧
    Cluster.faults c' = [] ∧
    Cluster.calls c' = Cluster.calls c ++
      [Call.mk VGet KArtifact (ns, name); Call.mk VDelete KArtifact (ns, name)].
Proof.
  intros Hf Ha Hk. unfold AlertRuleReconciler.deletePrometheusRule.
  rewrite bind_run, (Get_found Artifacts _ _ art (nextFault_nil _ Hf) Ha).
  cbn [fst snd]. rewrite bind_run.
  rewrite (Delete_found Artifacts art art).
  - eexists. split; [reflexivity|]. simpl. rewrite Hk, Hf.
    split_and!; try done. by rewrite <- app_assoc.
  - apply nextFault_nil. by apply faults_logged_nil.
  - by rewrite Hk.
Qed.

(** A delete that answers not-found (the object went away between the read
    and the delete; in the store of the model: the object read is stored
    under a key that is not its own) is a success as well. *)
Lemma deletePrometheusRule_delete_not_found
    (c : Cluster.t AlertRule.t Unstructured.t) ns name art :
  Cluster.faults c = [] →
  Cluster.artifacts c !! (ns, name) = Some art →
  Cluster.artifacts c !! key_of art = None →
  AlertRuleReconciler.deletePrometheusRule ns name c =
    (success,
     logged (Call.mk VDelete KArtifact (key_of art))
       (logged (Call.mk VGet KArtifact (ns, name)) c)).
Proof.
  intros Hf Ha Hk. unfold AlertRuleReconciler.deletePrometheusRule.
  rewrite bind_run, (Get_found Artifacts _ _ art (nextFault_nil _ Hf) Ha).
  cbn [fst snd]. rewrite bind_run.
  rewrite (Delete_missing Artifacts art); [done| |done].
  apply nextFault_nil. by apply faults_logged_nil.
Qed.

(** Whatever the store holds and whichever calls fail, the error
    [deletePrometheusRule] reports is never a not-found. *)
Lemma deletePrometheusRule_error (c : Cluster.t AlertRule.t Unstructured.t)
    ns name err :
  (AlertRuleReconciler.deletePrometheusRule ns name c).1.2 = Some err →
  apierrors.IsNotFound err = false.
Proof.
  unfold AlertRuleReconciler.deletePrometheusRule. rewrite bind_run.
  unfold Get, store_get, mret, M_ret.
  destruct (nextFault c) as [f|]; cbn [fst snd].
  { rewrite IsNotFound_transient. cbn [fst snd]. intros [= <-].
    apply IsNotFound_transient. }
  destruct (view Artifacts c !! (ns, name)) as [art|]; cbn [fst snd].
  2:{ cbn. done. }
  rewrite bind_run. unfold Delete, store_delete.
  destruct (nextFault _) as [f|]; cbn [fst snd].
  { rewrite IsNotFound_transient. cbn. intros [= <-]. apply IsNotFound_transient. }
  destruct (_ !! key_of art); cbn; done.
Qed.

Lemma deletePrometheusRule_converges (c : Cluster.t AlertRule.t Unstructured.t) ns name :
  Cluster.faults c = [] →
  (∀ art, Cluster.artifacts c !! (ns, name) = Some art → key_of art = (ns, name)) →
  ∃ c',
    AlertRuleReconciler.deletePrometheusRule ns name c = (success, c') ∧
    Cluster.artifacts c' = delete (ns, name) (Cluster.artifacts c) ∧
    Cluster.alertRules c' = Cluster.alertRules c ∧
    Cluster.deployments c' = Cluster.deployments c ∧
    Cluster.faults c' = [] ∧
    (is_Some (Cluster.artifacts c !! (ns, name)) →
     Call.mk VDelete KArtifact (ns, name) ∈ Cluster.calls c').
Proof.
  intros Hf Hwf.
  destruct (Cluster.artifacts c !! (ns, name)) as [art|] eqn:Hart.
  - destruct (deletePrometheusRule_present c ns name art)
      as (c' & -> & ? & ? & ? & ? & Hcalls); [done..|by apply Hwf|].
    exists c'. split_and!; try done. intros _. rewrite Hcalls. set_solver.
  - rewrite deletePrometheusRule_absent; [|by apply nextFault_nil|done].
    eexists. split_and!; try done; simpl.
    + by rewrite delete_id.
    + by rewrite Hf.
Qed.

Lemma Reconcile_absent order (c : Cluster.t AlertRule.t Unstructured.t) ns name :
  nextFault c = None →
  Cluster.alertRules c !! (ns, name) = None →
  AlertRuleReconciler.Reconcile order (Request.mk ns name) c =
  AlertRuleReconciler.deletePrometheusRule ns name
    (logged (Call.mk VGet KAlertRule (ns, name)) c).
Proof.
  intros Hf Har. unfold AlertRuleReconciler.Reconcile, Request.NamespacedName.
  cbn [Request.Namespace Request.Name].
  by rewrite bind_run, (Get_missing AlertRules _ _ Hf Har).
Qed.

(** C3 (amended).  When the AlertRule of the key is absent and no call
    fails, the rule-group reconciler returns success and leaves no artifact
    under the key: an artifact that was there is deleted (a delete call is
    made), one that was absent stays absent, and nothing else in the store
    changes; reconciling the key again returns success and changes no
    artifact.  The configuration-blob reconciler returns success after the
    one read of the AlertRule: it attempts no delete and leaves the
    ConfigMap to the garbage collector.  Whatever fails, the error the
    deletion fallback reports is never a not-found. *)
Theorem deletion_fallback :
  (∀ order (c : Cluster.t AlertRule.t Unstructured.t) req,
     Cluster.faults c = [] →
     Cluster.alertRules c !! Request.NamespacedName req = None →
     (∀ art, Cluster.artifacts c !! Request.NamespacedName req = Some art →
             key_of art = Request.NamespacedName req) →
     ∃ c' c'',
       AlertRuleReconciler.Reconcile order req c = (success, c') ∧
       Cluster.artifacts c' = delete (Request.NamespacedName req) (Cluster.artifacts c) ∧
       Cluster.alertRules c' = Cluster.alertRules c ∧
       Cluster.deployments c' = Cluster.deployments c ∧
       (is_Some (Cluster.artifacts c !! Request.NamespacedName req) →
        Call.mk VDelete KArtifact (Request.NamespacedName req) ∈ Cluster.calls c') ∧
       AlertRuleReconciler.Reconcile order req c' = (success, c'') ∧
       Cluster.artifacts c'' = Cluster.artifacts c' ∧
       Cluster.artifacts c'' !! Request.NamespacedName req = None) ∧
  (∀ (c : Cluster.t ConfigBlob.AlertRule.t ConfigBlob.ConfigMap.t) req,
     nextFault c = None →
     Cluster.alertRules c !! Request.NamespacedName req = None →
     ∃ c',
       ConfigBlob.AlertRuleReconciler.Reconcile req c = (success, c') ∧
       onlyRead (Call.mk VGet KAlertRule (Request.NamespacedName req)) c c') ∧
  (∀ (c : Cluster.t AlertRule.t Unstructured.t) ns name err,
     (AlertRuleReconciler.deletePrometheusRule ns name c).1.2 = Some err →
     apierrors.IsNotFound err = false).
Proof.
  split_and!; [| |apply deletePrometheusRule_error].
  - intros order c [ns name]. unfold Request.NamespacedName. simpl.
    intros Hf Har Hwf.
    rewrite Reconcile_absent by (by try apply nextFault_nil).
    destruct (deletePrometheusRule_converges
                (logged (Call.mk VGet KAlertRule (ns, name)) c) ns name)
      as (c' & Hrun & Hart & Hrules & Hdep & Hf' & Hcall);
      [by simpl; rewrite Hf | done |].
    simpl in *.
    assert (Cluster.artifacts c' !! (ns, name) = None) as Hgone.
    { rewrite Hart. apply lookup_delete_eq. }
    destruct (deletePrometheusRule_converges
                (logged (Call.mk VGet KAlertRule (ns, name)) c') ns name)
      as (c'' & Hrun' & Hart' & _);
      [by simpl; rewrite Hf' | by simpl; rewrite Hgone |].
    simpl in *.
    exists c', c''. split_and!; try done.
    + rewrite Reconcile_absent; [done|by apply nextFault_nil|by rewrite Hrules].
    + by rewrite Hart', delete_id.
    + by rewrite Hart', delete_id.
  - intros c [ns name]. unfold Request.NamespacedName. simpl. intros Hf Har.
    unfold ConfigBlob.AlertRuleReconciler.Reconcile, Request.NamespacedName.
    cbn [Request.Namespace Request.Name].
    rewrite bind_run, (Get_missing AlertRules _ _ Hf Har).
    eexists. split; [done|]. by repeat split.
Qed.

(** ** The reference to the workload *)

Lemma refDiffers_false a d :
  DeploymentReconciler.refDiffers a d = false →
  AlertRuleSpec.DeploymentRef (AlertRule.Spec a) =
  Some (DeploymentReference.mk (Deployment.Namespace d) (Deployment.Name d)).
Proof.
  unfold DeploymentReconciler.refDiffers.
  destruct (AlertRuleSpec.DeploymentRef _) as [[ns name]|]; [|done]. simpl.
  intros [Hns Hname]%orb_false_elim.
  apply bool_decide_eq_false in Hns, Hname.
  apply dec_stable in Hns, Hname. by subst.
Qed.

Lemma refDiffers_true a d :
  DeploymentReconciler.refDiffers a d = true →
  AlertRuleSpec.DeploymentRef (AlertRule.Spec a) ≠
  Some (DeploymentReference.mk (Deployment.Namespace d) (Deployment.Name d)).
Proof.
  unfold DeploymentReconciler.refDiffers. intros Hdiff Href.
  rewrite Href in Hdiff. simpl in Hdiff.
  by rewrite !bool_decide_eq_false_2 in Hdiff by (by intros ?).
Qed.

Lemma key_of_SetSpec s a : key_of (AlertRule.SetSpec s a) = key_of a.
Proof. done. Qed.

Lemma sameButRef_refl a : sameButRef a a.
Proof. by repeat split. Qed.

Lemma nextFault_faults {AR Art : Type} (c : Cluster.t AR Art) f :
  nextFault c = Some f → Cluster.faults c ≠ [].
Proof. unfold nextFault. by destruct (Cluster.faults c). Qed.

Lemma faults_logged {AR Art : Type} call (c : Cluster.t AR Art) :
  Cluster.faults (logged call c) ≠ [] → Cluster.faults c ≠ [].
Proof. simpl. by destruct (Cluster.faults c). Qed.

Lemma refReconciled_unchanged {Art : Type} key ref a (c c' : Cluster.t AlertRule.t Art) :
  Cluster.alertRules c !! key = Some a →
  Cluster.alertRules c' = Cluster.alertRules c →
  Cluster.deployments c' = Cluster.deployments c →
  Cluster.artifacts c' = Cluster.artifacts c →
  AlertRuleSpec.DeploymentRef (AlertRule.Spec a) = Some ref ∨ Cluster.faults c ≠ [] →
  refReconciled key ref a c c'.
Proof.
  intros Ha Hrules Hdeps Harts Hcase. exists a.
  rewrite Hrules, Hdeps, Harts. split_and!; auto using sameButRef_refl.
  intros Hnil. by destruct Hcase.
Qed.

(** C1.  When the workload exists, is not being deleted, and its AlertRule
    [<workload>-alert] exists, a reconcile of the workload changes the
    [deploymentRef] of that AlertRule at most: alert, expression, severity,
    [for], labels, annotations (and status, metadata labels and owner
    references) are as before, nothing is written when the reference named
    the workload already, and no other object of the store changes.  This
    holds whichever calls fail. *)
Theorem existing_alertrule_only_ref_updated {Art : Type} Scheme
    (c : Cluster.t AlertRule.t Art) req d a :
  let key :=
    (Request.Namespace req, DeploymentReconciler.alertRuleNameFor (Deployment.Name d)) in
  let ref := DeploymentReference.mk (Deployment.Namespace d) (Deployment.Name d) in
  Cluster.deployments c !! Request.NamespacedName req = Some d →
  IsZero (ObjectMeta.DeletionTimestamp (Deployment.ObjectMeta_ d)) = true →
  Cluster.alertRules c !! key = Some a →
  key_of a = key →
  refReconciled key ref a c (DeploymentReconciler.Reconcile Scheme req c).2.
Proof.
  intros key ref Hd Hz Ha Hk. subst key.
  unfold DeploymentReconciler.Reconcile.
  rewrite bind_run.
  destruct (nextFault c) as [f1|] eqn:Hf1.
  { rewrite (Get_fault _ _ _ _ Hf1). simpl. rewrite IsNotFound_transient. simpl.
    apply refReconciled_unchanged; eauto using nextFault_faults. }
  rewrite (Get_found Deployments _ _ _ Hf1 Hd). simpl. rewrite Hz. simpl.
  rewrite bind_run.
  set (c1 := logged _ c).
  destruct (nextFault c1) as [f2|] eqn:Hf2.
  { rewrite (Get_fault _ _ _ _ Hf2). simpl. rewrite IsNotFound_transient. simpl.
    apply refReconciled_unchanged; eauto using nextFault_faults, faults_logged. }
  rewrite (Get_found AlertRules _ _ a Hf2 Ha). simpl.
  destruct (DeploymentReconciler.refDiffers a d) eqn:Hdiff.
  2:{ simpl. apply refReconciled_unchanged; auto. left. by apply refDiffers_false. }
  rewrite bind_run. set (c2 := logged _ c1).
  unfold Update, store_update.
  destruct (nextFault c2) as [f3|] eqn:Hf3.
  { rewrite (write_fault _ _ _ _ _ _ Hf3). simpl.
    apply refReconciled_unchanged; eauto using nextFault_faults, faults_logged. }
  erewrite (replace_fresh AlertRules); [|done| |].
  2:{ rewrite key_of_SetSpec, Hk. exact Ha. }
  2:{ by apply stale_same. }
  rewrite key_of_SetSpec, Hk. simpl.
  eexists. split; [apply lookup_insert_eq|].
  split_and!; simpl; auto.
  - by repeat split.
  - intros Href. by apply refDiffers_true in Hdiff.
  - intros k Hne. by rewrite lookup_insert_ne.
Qed.

(** ** The default AlertRule *)

Lemma createDefaultAlertRule_spec Scheme d name :
  AlertRule.Spec (DeploymentReconciler.createDefaultAlertRule Scheme d name) =
  AlertRuleSpec.mk
    (Deployment.Name d +:+ "PodDown")
    ("up{job=" +:+ dquote +:+ Deployment.Name d +:+ dquote +:+ "} == 0")
    "critical" "1m"
    (Some (<["namespace" := Deployment.Namespace d]>
             (<["deployment" := Deployment.Name d]> ∅)))
    (Some (<["description" :=
               "Pod " +:+ Deployment.Name d +:+ " in namespace " +:+
               Deployment.Namespace d +:+ " has been down for more than 1 minutes"]>
             (<["summary" := "Pod " +:+ Deployment.Name d +:+ " is down"]> ∅)))
    (Some (DeploymentReference.mk (Deployment.Namespace d) (Deployment.Name d))).
Proof.
  unfold DeploymentReconciler.createDefaultAlertRule.
  by destruct (controllerutil.SetControllerReference _ _ _).
Qed.

Lemma createDefaultAlertRule_key Scheme d name :
  key_of (DeploymentReconciler.createDefaultAlertRule Scheme d name) =
  (Deployment.Namespace d, name).
Proof.
  unfold DeploymentReconciler.createDefaultAlertRule.
  by destruct (controllerutil.SetControllerReference _ _ _).
Qed.

(** Whether [SetControllerReference] accepts the owner or fails, the
    AlertRule has one owner reference, a controller reference to the
    workload. *)
Lemma createDefaultAlertRule_owner Scheme d name :
  ∃ ref,
    ObjectMeta.OwnerReferences
      (AlertRule.ObjectMeta_ (DeploymentReconciler.createDefaultAlertRule Scheme d name))
      = [ref] ∧
    OwnerReference.Controller ref = Some true ∧
    OwnerReference.Name ref = Deployment.Name d ∧
    OwnerReference.UID ref = Deployment.UID d.
Proof.
  unfold DeploymentReconciler.createDefaultAlertRule,
    controllerutil.SetControllerReference.
  cbn [ObjectMeta.Namespace ObjectMeta.OwnerReferences].
  destruct (nonempty _ && _); [by eexists|].
  destruct Scheme as [gvk|]; [|by eexists].
  simpl.
  destruct (controllerutil.referSameObject _ _) eqn:Hsame; [|by eexists].
  unfold controllerutil.upsertOwnerRef. simpl. rewrite Hsame. simpl. by eexists.
Qed.

(** C6.  For a workload [W] in namespace [N] that is not being deleted
    and has no AlertRule [W-alert], the reconcile (no call failing) creates
    the AlertRule [W-alert] in [N] with alert [WPodDown], expression
    [up{job="W"} == 0], [for] one minute, severity critical, the labels
    deployment=W and namespace=N, a summary and a description built from
    [W] and [N], and a controller owner reference to the workload. *)
Theorem default_alert_rule_created {Art : Type} Scheme
    (c : Cluster.t AlertRule.t Art) req d :
  let W := Deployment.Name d in
  let N := Deployment.Namespace d in
  Cluster.faults c = [] →
  Cluster.deployments c !! Request.NamespacedName req = Some d →
  key_of d = Request.NamespacedName req →
  IsZero (ObjectMeta.DeletionTimestamp (Deployment.ObjectMeta_ d)) = true →
  Cluster.alertRules c !! (N, W +:+ "-alert") = None →
  ∃ created c' owner,
    DeploymentReconciler.Reconcile Scheme req c = (success, c') ∧
    Cluster.alertRules c' !! (N, W +:+ "-alert") = Some created ∧
    AlertRule.Name created = W +:+ "-alert" ∧
    AlertRule.Namespace created = N ∧
    AlertRuleSpec.Alert (AlertRule.Spec created) = W +:+ "PodDown" ∧
    AlertRuleSpec.Expr (AlertRule.Spec created) =
      "up{job=" +:+ dquote +:+ W +:+ dquote +:+ "} == 0" ∧
    AlertRuleSpec.For (AlertRule.Spec created) = "1m" ∧
    AlertRuleSpec.Severity (AlertRule.Spec created) = "critical" ∧
    AlertRuleSpec.Labels (AlertRule.Spec created) =
      Some (<["namespace" := N]> (<["deployment" := W]> ∅)) ∧
    AlertRuleSpec.Annotations (AlertRule.Spec created) =
      Some (<["description" :=
                "Pod " +:+ W +:+ " in namespace " +:+ N +:+
                " has been down for more than 1 minutes"]>
              (<["summary" := "Pod " +:+ W +:+ " is down"]> ∅)) ∧
    ObjectMeta.OwnerReferences (AlertRule.ObjectMeta_ created) = [owner] ∧
    OwnerReference.Controller owner = Some true ∧
    OwnerReference.Name owner = W ∧
    OwnerReference.UID owner = Deployment.UID d.
Proof.
  intros W N Hf Hd Hk Hz Ha. subst W N.
  assert (Request.Namespace req = Deployment.Namespace d) as Hns.
  { unfold key_of, Request.NamespacedName in Hk. by simplify_eq. }
  unfold DeploymentReconciler.Reconcile.
  rewrite bind_run, (Get_found Deployments _ _ d (nextFault_nil _ Hf) Hd).
  cbn [fst snd]. rewrite Hz. cbn [negb]. rewrite bind_run.
  unfold DeploymentReconciler.alertRuleNameFor. rewrite Hns.
  rewrite (Get_missing AlertRules);
    [|apply nextFault_nil; by apply faults_logged_nil|exact Ha].
  cbn [fst snd apierrors.IsNotFound]. rewrite bool_decide_eq_true_2 by done.
  cbn [negb]. rewrite bind_run.
  set (new := DeploymentReconciler.createDefaultAlertRule Scheme d _).
  match goal with
  | |- context [Create AlertRules new ?cx] =>
      destruct (Create_new AlertRules new cx) as (created & Hrun & Hcreated)
  end.
  { apply nextFault_nil. by do 2 apply faults_logged_nil. }
  { subst new. by rewrite createDefaultAlertRule_key. }
  rewrite Hrun.
  destruct (createDefaultAlertRule_owner Scheme d (Deployment.Name d +:+ "-alert"))
    as (owner & Hown & ? & ? & ?).
  exists created. eexists. exists owner.
  split; [reflexivity|].
  assert (AlertRule.Spec created = AlertRule.Spec new) as Hspec by (by subst created).
  rewrite Hspec. subst new. rewrite createDefaultAlertRule_spec.
  cbn [fst snd]. rewrite createDefaultAlertRule_key.
  split; [apply lookup_insert_eq|].
  pose proof (createDefaultAlertRule_key Scheme d (Deployment.Name d +:+ "-alert")) as Hkey.
  unfold key_of in Hkey. simpl in Hkey.
  subst created. simpl. split_and!; try done; by simplify_eq.
Qed.

(** ** Recording a condition *)

(** The outcome of a status write: the caller's AlertRule carries the
    conditions sent whether the write failed or not, and after a write that
    went through it is the stored AlertRule. *)
Lemma StatusUpdate_conditions {Art : Type} (c : Cluster.t AlertRule.t Art) (a : AlertRule.t) :
  let out := StatusUpdate AlertRules a c in
  match out.1 with
  | inl _ => True
  | inr stored =>
      AlertRule.Conditions stored = AlertRule.Conditions a ∧
      Cluster.alertRules out.2 !! key_of a = Some stored
  end.
Proof.
  unfold StatusUpdate, write, store_status_update, store_replace.
  destruct (nextFault c); [done|].
  destruct (_ !! key_of a) as [stored|]; [|done].
  destruct (stale stored a); [done|]. simpl. split; [done|]. apply lookup_insert_eq.
Qed.

Lemma blob_StatusUpdate_conditions {Art : Type}
    (c : Cluster.t ConfigBlob.AlertRule.t Art) (a : ConfigBlob.AlertRule.t) :
  let out := StatusUpdate AlertRules a c in
  match out.1 with
  | inl _ => True
  | inr stored =>
      ConfigBlob.AlertRule.Conditions stored = ConfigBlob.AlertRule.Conditions a ∧
      Cluster.alertRules out.2 !! key_of a = Some stored
  end.
Proof.
  unfold StatusUpdate, write, store_status_update, store_replace.
  destruct (nextFault c); [done|].
  destruct (_ !! key_of a) as [stored|]; [|done].
  destruct (stale stored a); [done|]. simpl. split; [done|]. apply lookup_insert_eq.
Qed.

(** C4.  Both versions of [updateStatus] keep the condition list free of
    duplicate types: the condition recorded replaces the first condition
    of its type where it stands, or is appended when there is none; it is
    stamped with the current time and the generation of the AlertRule on
    every call; after a status write that went through, the stored
    AlertRule carries that list. *)
Theorem updateStatus_upserts :
  (∀ (c : Cluster.t ConfigBlob.AlertRule.t ConfigBlob.ConfigMap.t)
     (a : ConfigBlob.AlertRule.t) (condition : Condition.t),
     let out := ConfigBlob.AlertRuleReconciler.updateStatus a condition c in
     let a' := out.1.1 in
     let stored :=
       Condition.mk (Condition.Type_ condition) (Condition.Status condition)
         (ObjectMeta.Generation (ConfigBlob.AlertRule.ObjectMeta_ a))
         (Cluster.clock c)
         (Condition.Reason condition) (Condition.Message condition) in
     uniqueTypes (ConfigBlob.AlertRule.Conditions a) →
     ConfigBlob.AlertRule.Conditions a' =
       replaceOrAppend (ConfigBlob.AlertRule.Conditions a) stored ∧
     uniqueTypes (ConfigBlob.AlertRule.Conditions a') ∧
     stored ∈ ConfigBlob.AlertRule.Conditions a' ∧
     (out.1.2 = None → Cluster.alertRules out.2 !! key_of a = Some a')) ∧
  (∀ (c : Cluster.t AlertRule.t Unstructured.t) (a : AlertRule.t),
     let out := AlertRuleReconciler.updateStatus a c in
     let a' := out.1.1 in
     let fetched := (Get Artifacts (AlertRule.Namespace a, AlertRule.Name a) c).1 in
     let stored := AlertRuleReconciler.readyCondition a (Cluster.clock c) fetched in
     uniqueTypes (AlertRule.Conditions a) →
     AlertRule.Conditions a' = replaceOrAppend (AlertRule.Conditions a) stored ∧
     uniqueTypes (AlertRule.Conditions a') ∧
     stored ∈ AlertRule.Conditions a' ∧
     Condition.LastTransitionTime stored = Cluster.clock c ∧
     Condition.ObservedGeneration stored =
       ObjectMeta.Generation (AlertRule.ObjectMeta_ a) ∧
     (out.1.2 = None → Cluster.alertRules out.2 !! key_of a = Some a')).
Proof.
  split.
  - intros c a condition out a' stored Huniq.
    set (sent := ConfigBlob.AlertRule.SetStatus
                   (AlertRuleStatus.mk
                      (upsertCondition (ConfigBlob.AlertRule.Conditions a) stored)) a).
    assert (ConfigBlob.AlertRule.Conditions a' =
              upsertCondition (ConfigBlob.AlertRule.Conditions a) stored ∧
            (out.1.2 = None → Cluster.alertRules out.2 !! key_of a = Some a'))
      as [Hconds Hstored].
    { subst out a'. unfold ConfigBlob.AlertRuleReconciler.updateStatus.
      rewrite bind_run. unfold Now. cbn [fst snd]. rewrite bind_run.
      change (Condition.SetObservedGeneration _
                (Condition.SetLastTransitionTime _ condition)) with stored.
      fold sent.
      pose proof (blob_StatusUpdate_conditions c sent) as Hw. cbn zeta in Hw.
      destruct (StatusUpdate AlertRules sent c) as [[err|st] c2]; cbn [fst snd] in *.
      - done.
      - destruct Hw as [Hc Hs]. unfold mret, M_ret. cbn [fst snd].
        by rewrite Hc. }
    rewrite Hconds. split_and!; [|by apply upsertCondition_unique| |done].
    + apply upsertCondition_replaceOrAppend.
    + apply upsertCondition_elem.
  - intros c a out a' fetched stored Huniq.
    set (sent := AlertRule.SetStatus
                   (AlertRuleStatus.mk (upsertCondition (AlertRule.Conditions a) stored)) a).
    assert (AlertRule.Conditions a' = upsertCondition (AlertRule.Conditions a) stored ∧
            (out.1.2 = None → Cluster.alertRules out.2 !! key_of a = Some a'))
      as [Hconds Hstored].
    { subst out a'. unfold AlertRuleReconciler.updateStatus.
      rewrite bind_run. fold fetched. rewrite bind_run. unfold Now. cbn [fst snd].
      rewrite bind_run.
      assert (Cluster.clock (Get Artifacts (AlertRule.Namespace a, AlertRule.Name a) c).2
              = Cluster.clock c) as ->.
      { unfold Get. by destruct (nextFault c). }
      fold stored. fold sent.
      match goal with
      | |- context [StatusUpdate AlertRules sent ?cx] =>
          pose proof (StatusUpdate_conditions cx sent) as Hw; cbn zeta in Hw;
          destruct (StatusUpdate AlertRules sent cx) as [[err|st] c2]
      end; cbn [fst snd] in *.
      - done.
      - destruct Hw as [Hc Hs]. unfold mret, M_ret. cbn [fst snd].
        by rewrite Hc. }
    rewrite Hconds. split_and!; [|by apply upsertCondition_unique| | | |done].
    + apply upsertCondition_replaceOrAppend.
    + apply upsertCondition_elem.
    + subst stored. unfold AlertRuleReconciler.readyCondition.
      destruct fetched as [err|?]; [|done]. by destruct (apierrors.IsNotFound err).
    + subst stored. unfold AlertRuleReconciler.readyCondition.
      destruct fetched as [err|?]; [|done]. by destruct (apierrors.IsNotFound err).
Qed.

(** ** Triples *)

Lemma hoare_ret {S A : Type} (P : S → Prop) (x : A) (Q : A → S → Prop) :
  (∀ s, P s → Q x s) → hoare P (mret x) Q.
Proof. intros H s Hs. by apply H. Qed.

Lemma hoare_bind {S A B : Type} (P : S → Prop) (m : M S A) (f : A → M S B)
    (Q : A → S → Prop) (R : B → S → Prop) :
  hoare P m Q → (∀ a, hoare (Q a) (f a) R) → hoare P (m ≫= f) R.
Proof. intros Hm Hf s Hs. rewrite bind_run. apply Hf. by apply Hm. Qed.

Lemma hoare_fmap {S A B : Type} (P : S → Prop) (m : M S A) (g : A → B)
    (R : B → S → Prop) :
  hoare P m (λ a, R (g a)) → hoare P (g <$> m) R.
Proof.
  intros Hm s Hs. specialize (Hm s Hs). unfold fmap, M_fmap. by destruct (m s).
Qed.

Lemma hoare_weaken {S A : Type} (P : S → Prop) (m : M S A) (Q Q' : A → S → Prop) :
  hoare P m Q → (∀ a s, Q a s → Q' a s) → hoare P m Q'.
Proof. intros Hm HQ s Hs. apply HQ. by apply Hm. Qed.

Lemma hoare_assume {S A : Type} (P : S → Prop) (φ : Prop) (m : M S A)
    (Q : A → S → Prop) :
  (φ → hoare P m Q) → hoare (λ s, P s ∧ φ) m Q.
Proof. intros H s [Hs Hφ]. by apply H. Qed.

(** ** No condition [GenerationFailed] is ever recorded *)

Section generation.
#[local] Abbreviation C := (Cluster.t ConfigBlob.AlertRule.t ConfigBlob.ConfigMap.t).
Implicit Types (c : C) (a : ConfigBlob.AlertRule.t).

(** the cluster the reconcile started from *)
Variable c0 : C.

#[local] Abbreviation clean := (clean c0).
#[local] Abbreviation Inv := (allClean c0).

Lemma Inv_start : Inv c0.
Proof. intros k a Ha cond Hin _. by exists k, a. Qed.

Lemma Get_AlertRules_inv k :
  hoare Inv (Get AlertRules k)
    (λ r c, Inv c ∧ ∀ a, r = inr a → clean (ConfigBlob.AlertRule.Conditions a)).
Proof.
  intros c Hinv. unfold Get, store_get.
  destruct (nextFault c); [by split|]. simpl.
  destruct (Cluster.alertRules c !! k) as [a|] eqn:Ha; simpl; (split; [done|]).
  - intros ? [= <-]. by eapply Hinv.
  - done.
Qed.

Lemma Get_Artifacts_inv k :
  hoare Inv (Get Artifacts k) (λ _ c, Inv c).
Proof. intros c Hinv. unfold Get. by destruct (nextFault c). Qed.

Lemma write_Artifacts_inv verb o op :
  hoare Inv (write verb Artifacts o op) (λ _ c, Inv c).
Proof.
  intros c Hinv. unfold write. destruct (nextFault c); [done|].
  by destruct (op _ _ _) as [?|[? ?]].
Qed.

Lemma updateStatus_inv a cond :
  Condition.Reason cond ≠ "GenerationFailed" →
  clean (ConfigBlob.AlertRule.Conditions a) →
  hoare Inv (ConfigBlob.AlertRuleReconciler.updateStatus a cond)
    (λ r c, Inv c ∧ clean (ConfigBlob.AlertRule.Conditions r.1)).
Proof.
  intros Hreason Hclean c Hinv.
  unfold ConfigBlob.AlertRuleReconciler.updateStatus.
  rewrite bind_run. unfold Now. cbn [fst snd]. rewrite bind_run.
  set (stamped := Condition.SetObservedGeneration _ _).
  assert (clean (upsertCondition (ConfigBlob.AlertRule.Conditions a) stamped)) as Hup.
  { intros x [->|Hx]%upsertCondition_subset Hr; [done|by apply Hclean]. }
  unfold StatusUpdate, write, store_status_update, store_replace.
  destruct (nextFault c); [by split|].
  destruct (_ !! key_of _) as [stored|]; [|by split].
  destruct (stale _ _); [by split|].
  cbn [fst snd mret M_ret]. split; [|done].
  intros k x. simpl. rewrite lookup_insert. case_decide.
  - by intros [= <-].
  - apply Hinv.
Qed.

Lemma degraded_inv a reason message err :
  reason ≠ "GenerationFailed" →
  clean (ConfigBlob.AlertRule.Conditions a) →
  hoare Inv (ConfigBlob.AlertRuleReconciler.degraded a reason message err) (λ _ c, Inv c).
Proof.
  intros Hreason Hclean. unfold ConfigBlob.AlertRuleReconciler.degraded.
  eapply hoare_bind; [by apply updateStatus_inv|].
  intros [a1 e1]. apply hoare_ret. by intros c [? ?].
Qed.

Lemma Reconcile_inv req :
  hoare Inv (ConfigBlob.AlertRuleReconciler.Reconcile req) (λ _ c, Inv c).
Proof.
  unfold ConfigBlob.AlertRuleReconciler.Reconcile.
  eapply hoare_bind; [apply Get_AlertRules_inv|].
  intros [err|a]; apply hoare_assume; intros Hclean.
  { destruct (apierrors.IsNotFound err); by apply hoare_ret. }
  specialize (Hclean a eq_refl).
  eapply hoare_bind; [by apply updateStatus_inv|].
  intros [a1 e1]. apply hoare_assume. cbn [fst]. intros Hclean1.
  destruct e1 as [err|]; [by apply hoare_ret|].
  cbn [ConfigBlob.AlertRuleReconciler.generateAlertRulesYAML].
  eapply hoare_bind; [apply Get_Artifacts_inv|].
  intros r. eapply (hoare_bind _ _ _ (λ _ c, Inv c)).
  - destruct r as [err|existing].
    + destruct (apierrors.IsNotFound err); [|by apply hoare_ret].
      eapply hoare_bind; [apply write_Artifacts_inv|].
      intros [err'|?]; [|by apply hoare_ret].
      apply hoare_fmap. by apply degraded_inv.
    + eapply hoare_bind; [apply write_Artifacts_inv|].
      intros [err'|?]; [|by apply hoare_ret].
      apply hoare_fmap. by apply degraded_inv.
  - intros [out|[]]; [by apply hoare_ret|].
    eapply hoare_bind; [by apply updateStatus_inv|].
    intros [a2 [err|]]; apply hoare_ret; by intros c [? ?].
Qed.
End generation.

(** C10.  [generateAlertRulesYAML] returns a nil error for every AlertRule;
    for an empty rules list its text is the groups/name/rules header; and
    no reconcile of the configuration-blob version records a condition with
    the reason [GenerationFailed]: such a condition found in the store
    after a reconcile was there before. *)
Theorem generation_never_fails :
  (∀ a, (ConfigBlob.AlertRuleReconciler.generateAlertRulesYAML a).2 = None) ∧
  (∀ a,
     ConfigBlob.AlertRuleSpec.Rules (ConfigBlob.AlertRule.Spec a) = [] →
     (ConfigBlob.AlertRuleReconciler.generateAlertRulesYAML a).1 =
     "groups:" +:+ nl +:+ "- name: " +:+ ConfigBlob.AlertRule.Name a +:+ nl +:+
     "  rules:" +:+ nl) ∧
  (∀ c req cond,
     recorded ConfigBlob.AlertRule.Conditions
       (ConfigBlob.AlertRuleReconciler.Reconcile req c).2 cond →
     Condition.Reason cond = "GenerationFailed" →
     recorded ConfigBlob.AlertRule.Conditions c cond).
Proof.
  split_and!.
  - done.
  - intros a Hrules. unfold ConfigBlob.AlertRuleReconciler.generateAlertRulesYAML.
    rewrite Hrules. simpl. induction (ConfigBlob.AlertRule.Name a); simpl; [done|].
    by f_equal.
  - intros c req cond (k & a & Ha & Hin) Hreason.
    by apply (Reconcile_inv c req c (Inv_start c) k a Ha cond).
Qed.

(** C7 (amended).  When the first read answers with a resource whose
    deletion timestamp is set, the rule-group AlertRule reconciler and the
    workload reconciler return success having made that one read and no
    write.  The configuration-blob AlertRule reconciler does not look at
    the deletion timestamp: whatever it is, the call after the read is the
    write of the [Progressing] condition. *)
Theorem being_deleted_is_noop :
  (∀ order (c : Cluster.t AlertRule.t Unstructured.t) req a,
     nextFault c = None →
     Cluster.alertRules c !! Request.NamespacedName req = Some a →
     IsZero (ObjectMeta.DeletionTimestamp (AlertRule.ObjectMeta_ a)) = false →
     ∃ c',
       AlertRuleReconciler.Reconcile order req c = (success, c') ∧
       onlyRead (Call.mk VGet KAlertRule (Request.NamespacedName req)) c c') ∧
  (∀ (Art : Type) Scheme (c : Cluster.t AlertRule.t Art) req d,
     nextFault c = None →
     Cluster.deployments c !! Request.NamespacedName req = Some d →
     IsZero (ObjectMeta.DeletionTimestamp (Deployment.ObjectMeta_ d)) = false →
     ∃ c',
       DeploymentReconciler.Reconcile Scheme req c = (success, c') ∧
       onlyRead (Call.mk VGet KDeployment (Request.NamespacedName req)) c c') ∧
  (∀ (c : Cluster.t ConfigBlob.AlertRule.t ConfigBlob.ConfigMap.t) req a,
     nextFault c = None →
     Cluster.alertRules c !! Request.NamespacedName req = Some a →
     key_of a = Request.NamespacedName req →
     ∃ rest,
       Cluster.calls (ConfigBlob.AlertRuleReconciler.Reconcile req c).2 =
       Cluster.calls c ++
         [Call.mk VGet KAlertRule (Request.NamespacedName req);
          Call.mk VStatusUpdate KAlertRule (Request.NamespacedName req)] ++ rest).
Proof.
  split_and!.
  - intros order c req a Hf Ha Hz. eexists.
    split; [by apply (alertRule_being_deleted order c req a)|apply onlyRead_logged].
  - intros Art Scheme c req d Hf Hd Hz. eexists.
    split; [by apply (deployment_being_deleted Scheme c req d)|apply onlyRead_logged].
  - apply blob_reconcile_writes_status.
Qed.

(** ** The properties at work on concrete clusters *)

Lemma being_deleted_is_noop_witness :
  (∃ c',
     AlertRuleReconciler.Reconcile map_to_list (Request.mk "shop" "checkout-alert")
       (Examples.cluster [] [Examples.checkoutAlertDeleting] [Examples.staleArtifact])
     = (success, c') ∧
     onlyRead (Call.mk VGet KAlertRule ("shop", "checkout-alert"))
       (Examples.cluster [] [Examples.checkoutAlertDeleting] [Examples.staleArtifact])
       c') ∧
  (∃ c',
     DeploymentReconciler.Reconcile Examples.apps (Request.mk "shop" "checkout")
       (Examples.cluster [Examples.checkoutDeleting] [Examples.checkoutAlert] [])
     = (success, c') ∧
     onlyRead (Call.mk VGet KDeployment ("shop", "checkout"))
       (Examples.cluster [Examples.checkoutDeleting] [Examples.checkoutAlert] [])
       c').
Proof.
  split.
  - apply (proj1 being_deleted_is_noop map_to_list
             (Examples.cluster [] [Examples.checkoutAlertDeleting] [Examples.staleArtifact])
             (Request.mk "shop" "checkout-alert") Examples.checkoutAlertDeleting);
      vm_compute; reflexivity.
  - apply (proj1 (proj2 being_deleted_is_noop) Unstructured.t Examples.apps
             (Examples.cluster [Examples.checkoutDeleting] [Examples.checkoutAlert] [])
             (Request.mk "shop" "checkout") Examples.checkoutDeleting);
      vm_compute; reflexivity.
Defined.

(** C7, as stated, fails for the configuration-blob version: an AlertRule
    whose deletion timestamp is set is reconciled like any other; its
    status is written and its ConfigMap created. *)
Lemma blob_reconciles_alertrule_being_deleted :
  let c := Examples.blobCluster [Examples.blobAlert (Some 900)] [] in
  let out := ConfigBlob.AlertRuleReconciler.Reconcile (Request.mk "shop" "pods") c in
  IsZero (ObjectMeta.DeletionTimestamp
            (ConfigBlob.AlertRule.ObjectMeta_ (Examples.blobAlert (Some 900)))) = false ∧
  out.1 = success ∧
  Cluster.calls out.2 =
    [ Call.mk VGet KAlertRule ("shop", "pods");
      Call.mk VStatusUpdate KAlertRule ("shop", "pods");
      Call.mk VGet KArtifact ("shop", "alertrule-pods");
      Call.mk VCreate KArtifact ("shop", "alertrule-pods");
      Call.mk VStatusUpdate KAlertRule ("shop", "pods") ] ∧
  Cluster.revision out.2 = Cluster.revision c + 3 ∧
  ConfigBlob.ConfigMap.Name <$> Cluster.artifacts out.2 !! ("shop", "alertrule-pods")
    = Some "alertrule-pods".
Proof. vm_compute. repeat split; reflexivity. Qed.

Lemma deletion_fallback_witness :
  ∃ c' c'',
    AlertRuleReconciler.Reconcile map_to_list (Request.mk "shop" "checkout-alert")
      (Examples.cluster [] [] [Examples.staleArtifact]) = (success, c') ∧
    Cluster.artifacts c' =
      delete ("shop", "checkout-alert")
        (Cluster.artifacts (Examples.cluster [] [] [Examples.staleArtifact])) ∧
    Cluster.alertRules c' =
      Cluster.alertRules (Examples.cluster [] [] [Examples.staleArtifact]) ∧
    Cluster.deployments c' =
      Cluster.deployments (Examples.cluster [] [] [Examples.staleArtifact]) ∧
    (is_Some (Cluster.artifacts (Examples.cluster [] [] [Examples.staleArtifact])
                !! ("shop", "checkout-alert")) →
     Call.mk VDelete KArtifact ("shop", "checkout-alert") ∈ Cluster.calls c') ∧
    AlertRuleReconciler.Reconcile map_to_list (Request.mk "shop" "checkout-alert") c'
      = (success, c'') ∧
    Cluster.artifacts c'' = Cluster.artifacts c' ∧
    Cluster.artifacts c'' !! ("shop", "checkout-alert") = None.
Proof.
  apply (proj1 deletion_fallback map_to_list
           (Examples.cluster [] [] [Examples.staleArtifact])
           (Request.mk "shop" "checkout-alert")).
  - reflexivity.
  - vm_compute; reflexivity.
  - intros art Hart. vm_compute in Hart. injection Hart as <-. reflexivity.
Defined.

(** C3, as stated, fails for the configuration-blob version: with the
    AlertRule gone and its ConfigMap still there, the reconcile returns
    success after reading the AlertRule; no delete is attempted and the
    ConfigMap stays. *)
Lemma blob_artifact_not_deleted :
  let c := Examples.blobCluster [] [Examples.orphanConfigMap] in
  let out := ConfigBlob.AlertRuleReconciler.Reconcile (Request.mk "shop" "pods") c in
  out.1 = success ∧
  Cluster.calls out.2 = [Call.mk VGet KAlertRule ("shop", "pods")] ∧
  Cluster.artifacts out.2 !! ("shop", "alertrule-pods") = Some Examples.orphanConfigMap ∧
  Cluster.artifacts out.2 !! ("shop", "pods") = None.
Proof. vm_compute. repeat split; reflexivity. Qed.

(** C8, as stated, fails for the configuration-blob version: the artifact
    of the AlertRule [pods] is the ConfigMap [alertrule-pods]; nothing is
    stored under the name [pods]. *)
Lemma blob_artifact_has_another_name :
  let c := Examples.blobCluster [Examples.blobAlert None] [] in
  let out := ConfigBlob.AlertRuleReconciler.Reconcile (Request.mk "shop" "pods") c in
  out.1 = success ∧
  Cluster.artifacts out.2 !! ("shop", "pods") = None ∧
  ConfigBlob.ConfigMap.Name <$> Cluster.artifacts out.2 !! ("shop", "alertrule-pods")
    = Some "alertrule-pods" ∧
  ConfigBlob.ConfigMap.Name
    (ConfigBlob.AlertRuleReconciler.desiredConfigMap (Examples.blobAlert None) EmptyString)
    ≠ ConfigBlob.AlertRule.Name (Examples.blobAlert None).
Proof. vm_compute. repeat split; (reflexivity || discriminate). Qed.

Lemma existing_alertrule_only_ref_updated_witness :
  refReconciled ("shop", "checkout-alert") (DeploymentReference.mk "shop" "checkout")
    Examples.checkoutAlert
    (Examples.cluster [Examples.checkout] [Examples.checkoutAlert] [])
    (DeploymentReconciler.Reconcile Examples.apps (Request.mk "shop" "checkout")
       (Examples.cluster [Examples.checkout] [Examples.checkoutAlert] [])).2.
Proof.
  apply (existing_alertrule_only_ref_updated Examples.apps
           (Examples.cluster [Examples.checkout] [Examples.checkoutAlert] [])
           (Request.mk "shop" "checkout") Examples.checkout Examples.checkoutAlert);
    vm_compute; reflexivity.
Defined.

(** The scenario of the design: the AlertRule has severity warning and a
    reference into another namespace; after the reconcile of the workload
    the reference names the workload and the rest of the spec is as it
    was. *)
Example non_destructive_ref_update :
  AlertRule.Spec <$>
    Cluster.alertRules
      (DeploymentReconciler.Reconcile Examples.apps (Request.mk "shop" "checkout")
         (Examples.cluster [Examples.checkout] [Examples.checkoutAlert] [])).2
      !! ("shop", "checkout-alert") =
  Some (AlertRuleSpec.mk "CheckoutSlow" "latency_seconds > 1" "warning" "5m"
          (Some (<["team" := "sre"]> ∅)) None
          (Some (DeploymentReference.mk "shop" "checkout"))).
Proof. vm_compute. reflexivity. Qed.

Lemma default_alert_rule_created_witness :
  ∃ created c' owner,
    DeploymentReconciler.Reconcile Examples.apps (Request.mk "shop" "checkout")
      (Examples.cluster [Examples.checkout] [] []) = (success, c') ∧
    Cluster.alertRules c' !! ("shop", "checkout-alert") = Some created ∧
    AlertRule.Name created = "checkout-alert" ∧
    AlertRule.Namespace created = "shop" ∧
    AlertRuleSpec.Alert (AlertRule.Spec created) = "checkoutPodDown" ∧
    AlertRuleSpec.Expr (AlertRule.Spec created) =
      "up{job=" +:+ dquote +:+ "checkout" +:+ dquote +:+ "} == 0" ∧
    AlertRuleSpec.For (AlertRule.Spec created) = "1m" ∧
    AlertRuleSpec.Severity (AlertRule.Spec created) = "critical" ∧
    AlertRuleSpec.Labels (AlertRule.Spec created) =
      Some (<["namespace" := "shop"]> (<["deployment" := "checkout"]> ∅)) ∧
    AlertRuleSpec.Annotations (AlertRule.Spec created) =
      Some (<["description" :=
                "Pod checkout in namespace shop has been down for more than 1 minutes"]>
              (<["summary" := "Pod checkout is down"]> ∅)) ∧
    ObjectMeta.OwnerReferences (AlertRule.ObjectMeta_ created) = [owner] ∧
    OwnerReference.Controller owner = Some true ∧
    OwnerReference.Name owner = "checkout" ∧
    OwnerReference.UID owner = "uid-d".
Proof.
  apply (default_alert_rule_created Examples.apps
           (Examples.cluster [Examples.checkout] [] [])
           (Request.mk "shop" "checkout") Examples.checkout);
    vm_compute; reflexivity.
Defined.

Lemma updateStatus_upserts_witness :
  uniqueTypes
    (AlertRule.Conditions
       (AlertRuleReconciler.updateStatus Examples.checkoutAlert
          (Examples.cluster [] [Examples.checkoutAlert] [Examples.staleArtifact])).1.1) ∧
  uniqueTypes
    (ConfigBlob.AlertRule.Conditions
       (ConfigBlob.AlertRuleReconciler.updateStatus Examples.emptyBlobAlert
          (ConfigBlob.AlertRuleReconciler.newCondition "Progressing" ConditionTrue
             "Reconciling" "Reconciling AlertRule")
          (Examples.blobCluster [Examples.emptyBlobAlert] [])).1.1).
Proof.
  split.
  - apply (proj2 updateStatus_upserts
             (Examples.cluster [] [Examples.checkoutAlert] [Examples.staleArtifact])
             Examples.checkoutAlert).
    apply NoDup_singleton.
  - apply (proj1 updateStatus_upserts
             (Examples.blobCluster [Examples.emptyBlobAlert] [])
             Examples.emptyBlobAlert
             (ConfigBlob.AlertRuleReconciler.newCondition "Progressing" ConditionTrue
                "Reconciling" "Reconciling AlertRule")).
    apply NoDup_singleton.
Defined.

(** A condition that is recorded again with the status, reason and message
    it had is stamped again: the time moves from 100 to the clock's 1000. *)
Example updateStatus_restamps_unchanged :
  AlertRule.Conditions Examples.checkoutAlert =
    [Condition.mk "PrometheusRuleReady" ConditionTrue 2 100
       "PrometheusRuleCreated" "PrometheusRule has been successfully created"] ∧
  AlertRule.Conditions
    (AlertRuleReconciler.updateStatus Examples.checkoutAlert
       (Examples.cluster [] [Examples.checkoutAlert] [Examples.staleArtifact])).1.1 =
    [Condition.mk "PrometheusRuleReady" ConditionTrue 2 1000
       "PrometheusRuleCreated" "PrometheusRule has been successfully created"].
Proof. vm_compute. split; reflexivity. Qed.

Lemma generation_never_fails_witness :
  (ConfigBlob.AlertRuleReconciler.generateAlertRulesYAML Examples.emptyBlobAlert).1 =
    "groups:" +:+ nl +:+ "- name: pods" +:+ nl +:+ "  rules:" +:+ nl ∧
  recorded ConfigBlob.AlertRule.Conditions
    (Examples.blobCluster [Examples.emptyBlobAlert] [])
    (Condition.mk "Degraded" ConditionTrue 1 100 "GenerationFailed" "by hand").
Proof.
  split.
  - apply (proj1 (proj2 generation_never_fails) Examples.emptyBlobAlert). reflexivity.
  - apply (proj2 (proj2 generation_never_fails)
             (Examples.blobCluster [Examples.emptyBlobAlert] [])
             (Request.mk "shop" "pods")); [|reflexivity].
    exists ("shop", "pods"). eexists. split; [vm_compute; reflexivity|].
    vm_compute. apply list_elem_of_here.
Defined.

(** The end-to-end scenario of the design: the workload [checkout] with no
    AlertRule is reconciled, then its AlertRule [checkout-alert] is
    reconciled; the PrometheusRule [checkout-alert] exists, is labelled
    [managed-by=alert-rule-operator], the AlertRule is marked ready, and the
    rule rendered has the alert, expression and [for] of the default. *)
Example end_to_end :
  let c1 :=
    (DeploymentReconciler.Reconcile Examples.apps (Request.mk "shop" "checkout")
       (Examples.cluster [Examples.checkout] [] [])).2 in
  let out :=
    AlertRuleReconciler.Reconcile map_to_list (Request.mk "shop" "checkout-alert") c1 in
  out.1 = success ∧
  (u ← Cluster.artifacts out.2 !! ("shop", "checkout-alert");
   labels ← Unstructured.GetLabels u;
   (labels : gmap string string) !! "managed-by") = Some "alert-rule-operator" ∧
  (a ← Cluster.alertRules out.2 !! ("shop", "checkout-alert");
   condition ← head (AlertRule.Conditions a);
   Some (Condition.Type_ condition, Condition.Status condition)) =
    Some ("PrometheusRuleReady", ConditionTrue) ∧
  (let rule :=
     AlertRuleReconciler.buildPrometheusRule map_to_list
       (DeploymentReconciler.createDefaultAlertRule Examples.apps Examples.checkout
          "checkout-alert") in
   rule !! "alert" = Some (VString "checkoutPodDown") ∧
   rule !! "expr" =
     Some (VString ("up{job=" +:+ dquote +:+ "checkout" +:+ dquote +:+ "} == 0")) ∧
   rule !! "for" = Some (VString "1m")).
Proof. repeat split; vm_compute; reflexivity. Qed.

(** ** More on the condition list *)

Lemma upsertCondition_find conditions condition :
  snd <$> list_find (λ c, Condition.Type_ c = Condition.Type_ condition)
            (upsertCondition conditions condition) = Some condition.
Proof.
  induction conditions as [|c rest IH]; simpl.
  - by rewrite decide_True.
  - case_bool_decide as Hty; simpl.
    + by rewrite decide_True.
    + rewrite decide_False by done.
      destruct (list_find _ (upsertCondition rest condition)) as [[i x]|]; simpl in *;
        by simplify_eq.
Qed.

(** X1.  Recording a condition and then another of the same type leaves
    the list as recording the second one alone does (the latest wins, no
    duplicate arises), and looking the type up afterwards finds the
    condition recorded. *)
Theorem upsertCondition_latest_wins conditions first second :
  Condition.Type_ first = Condition.Type_ second →
  upsertCondition (upsertCondition conditions first) second =
    upsertCondition conditions second ∧
  snd <$> list_find (λ c, Condition.Type_ c = Condition.Type_ second)
            (upsertCondition (upsertCondition conditions first) second) = Some second.
Proof.
  intros Hty. split; [|apply upsertCondition_find].
  induction conditions as [|c rest IH]; simpl.
  - by rewrite bool_decide_eq_true_2.
  - rewrite Hty. case_bool_decide as Hc; simpl.
    + by rewrite bool_decide_eq_true_2.
    + rewrite bool_decide_eq_false_2 by done. f_equal. rewrite <- Hty in Hc.
      by rewrite IH.
Qed.

Lemma upsertCondition_latest_wins_witness :
  upsertCondition
    (upsertCondition (AlertRule.Conditions Examples.checkoutAlert)
       (Condition.mk "PrometheusRuleReady" ConditionFalse 2 200
          "PrometheusRuleNotFound" "PrometheusRule not found"))
    (Condition.mk "PrometheusRuleReady" ConditionUnknown 3 300 "Error" "timeout") =
  [Condition.mk "PrometheusRuleReady" ConditionUnknown 3 300 "Error" "timeout"].
Proof.
  rewrite (proj1 (upsertCondition_latest_wins
             (AlertRule.Conditions Examples.checkoutAlert)
             (Condition.mk "PrometheusRuleReady" ConditionFalse 2 200
                "PrometheusRuleNotFound" "PrometheusRule not found")
             (Condition.mk "PrometheusRuleReady" ConditionUnknown 3 300 "Error" "timeout")
             eq_refl)).
  reflexivity.
Defined.

(** X2.  Recording a condition leaves the conditions of every other type
    as they were, in their order, and makes the list longer by one exactly
    when the type is new. *)
Theorem upsertCondition_others conditions condition :
  filter (λ c, Condition.Type_ c ≠ Condition.Type_ condition)
    (upsertCondition conditions condition) =
  filter (λ c, Condition.Type_ c ≠ Condition.Type_ condition) conditions ∧
  length (upsertCondition conditions condition) =
    if bool_decide (Condition.Type_ condition ∈ Condition.Type_ <$> conditions)
    then length conditions else S (length conditions).
Proof.
  split.
  - induction conditions as [|c rest IH]; simpl.
    + by rewrite filter_cons_False, filter_nil by (by intros ?).
    + case_bool_decide as Hty.
      * rewrite !filter_cons_False; [done|by intros ?|by intros ?].
      * rewrite !filter_cons_True by done. by rewrite IH.
  - rewrite <- (length_fmap Condition.Type_ (upsertCondition _ _)),
      upsertCondition_types.
    case_bool_decide; rewrite ?length_app, length_fmap; simpl; lia.
Qed.

(** ** Failures are reported *)

Lemma hoare_pre {S A : Type} (P P' : S → Prop) (m : M S A) (Q : A → S → Prop) :
  (∀ s, P s → P' s) → hoare P' m Q → hoare P m Q.
Proof. intros HP Hm s Hs. apply Hm. by apply HP. Qed.

Lemma tail_drop {A : Type} (n : nat) (l : list A) : tail (drop n l) = drop (S n) l.
Proof.
  revert l. induction n as [|n IH]; intros [|x l]; simpl; done.
Qed.

Lemma take_S_quiet (n : nat) (l : list (option Transient)) :
  match drop n l with f :: _ => f | [] => None end = None →
  Forall (λ f, f = None) (take n l) → Forall (λ f, f = None) (take (S n) l).
Proof.
  revert l. induction n as [|n IH]; intros [|x l]; simpl; try done.
  - intros -> _. by repeat constructor.
  - intros Hd [Hx Hl]%Forall_cons. constructor; [done|]. by apply IH.
Qed.

Lemma undisturbed_refl {AR Art : Type} (c : Cluster.t AR Art) : undisturbed c c.
Proof.
  exists 0%nat. split_and!; [lia|by rewrite drop_0|by rewrite take_0].
Qed.

(** One more call, which met no failure. *)
Lemma undisturbed_step {AR Art : Type} (c0 c c' : Cluster.t AR Art) call :
  undisturbed c0 c → nextFault c = None →
  Cluster.calls c' = Cluster.calls c ++ [call] →
  Cluster.faults c' = tail (Cluster.faults c) →
  undisturbed c0 c'.
Proof.
  intros (n & Hlen & Hfaults & Hnone) Hnext Hcalls Htail.
  exists (S n). split_and!.
  - rewrite Hcalls, length_app, Hlen. simpl. lia.
  - by rewrite Htail, Hfaults, tail_drop.
  - apply take_S_quiet; [|done]. unfold nextFault in Hnext. by rewrite <- Hfaults.
Qed.

Section undisturbed_calls.
Context {AR Art : Type} (c0 : Cluster.t AR Art).
Context {T : Type} `{!Object T} (R : Resource (AR:=AR) (Art:=Art) T).
Hypothesis over_calls : ∀ s c, Cluster.calls (over R s c) = Cluster.calls c.
Hypothesis over_faults : ∀ s c, Cluster.faults (over R s c) = Cluster.faults c.

Lemma Get_undisturbed k :
  hoare (undisturbed c0) (Get R k)
    (λ r c, match r with
            | inl err => apierrors.IsNotFound err = true → undisturbed c0 c
            | inr _ => undisturbed c0 c
            end).
Proof.
  intros c Hc. unfold Get, store_get.
  destruct (nextFault c) eqn:Hf; cbn [fst snd].
  { by rewrite IsNotFound_transient. }
  assert (undisturbed c0 (logged (Call.mk VGet (kind R) k) c)).
  { by eapply undisturbed_step. }
  by destruct (view R c !! k).
Qed.

Lemma write_undisturbed verb o op :
  hoare (undisturbed c0) (write verb R o op)
    (λ r c, match r with inl _ => True | inr _ => undisturbed c0 c end).
Proof.
  intros c Hc. unfold write.
  destruct (nextFault c) eqn:Hf; cbn [fst snd]; [done|].
  destruct (op _ _ _) as [err|[o' s']]; cbn [fst snd]; [done|].
  eapply undisturbed_step; [done..| |]; simpl.
  - by rewrite over_calls.
  - by rewrite over_faults.
Qed.

Lemma Delete_undisturbed o :
  hoare (undisturbed c0) (Delete R o)
    (λ r c, match r with
            | Some err => apierrors.IsNotFound err = true → undisturbed c0 c
            | None => undisturbed c0 c
            end).
Proof.
  intros c Hc. unfold Delete, store_delete.
  destruct (nextFault c) eqn:Hf; cbn [fst snd].
  { by rewrite IsNotFound_transient. }
  destruct (view R c !! key_of o); cbn [fst snd].
  - eapply undisturbed_step; [done..| |]; simpl.
    + by rewrite over_calls.
    + by rewrite over_faults.
  - intros _. by eapply undisturbed_step.
Qed.
End undisturbed_calls.

(** The end of a branch: an error is returned, or the calls so far met
    no failure. *)
Ltac reported :=
  apply hoare_ret; intros ? Hpre; cbn [fst snd]; first [done | intros _; auto].

Lemma deleteAlertRuleForDeployment_reports {Art : Type}
    (c0 : Cluster.t AlertRule.t Art) namespace name :
  hoare (undisturbed c0)
    (DeploymentReconciler.deleteAlertRuleForDeployment namespace name)
    (λ out c, out.2 = None → undisturbed c0 c).
Proof.
  unfold DeploymentReconciler.deleteAlertRuleForDeployment.
  eapply hoare_bind; [apply Get_undisturbed|].
  intros [err|a].
  - destruct (apierrors.IsNotFound err); reported.
  - eapply hoare_bind; [by apply Delete_undisturbed|].
    intros [err|]; [|reported].
    destruct (apierrors.IsNotFound err); reported.
Qed.

Lemma DeploymentReconciler_reports {Art : Type} Scheme
    (c0 : Cluster.t AlertRule.t Art) req :
  hoare (undisturbed c0) (DeploymentReconciler.Reconcile Scheme req)
    (λ out c, out.2 = None → undisturbed c0 c).
Proof.
  unfold DeploymentReconciler.Reconcile.
  eapply hoare_bind; [apply Get_undisturbed|].
  intros [err|d].
  - destruct (apierrors.IsNotFound err) eqn:Hnf.
    + eapply hoare_pre; [|apply deleteAlertRuleForDeployment_reports]. auto.
    + unfold apierrors.IgnoreNotFound. rewrite Hnf. reported.
  - destruct (negb _); [reported|].
    eapply hoare_bind; [apply Get_undisturbed|].
    intros [err|a].
    + destruct (apierrors.IsNotFound err) eqn:Hnf; cbn [negb]; [|reported].
      eapply hoare_pre; [intros c Hc; exact (Hc eq_refl)|].
      eapply hoare_bind; [by apply write_undisturbed|].
      intros [err'|?]; reported.
    + destruct (DeploymentReconciler.refDiffers a d); [|reported].
      eapply hoare_bind; [by apply write_undisturbed|].
      intros [err'|?]; reported.
Qed.

Lemma hoare_Now {AR Art : Type} (P : Cluster.t AR Art → Prop) :
  hoare P Now (λ _ c, P c).
Proof. by intros c Hc. Qed.

Lemma blob_updateStatus_reports
    (c0 : Cluster.t ConfigBlob.AlertRule.t ConfigBlob.ConfigMap.t) a condition :
  hoare (undisturbed c0) (ConfigBlob.AlertRuleReconciler.updateStatus a condition)
    (λ r c, r.2 = None → undisturbed c0 c).
Proof.
  unfold ConfigBlob.AlertRuleReconciler.updateStatus.
  eapply hoare_bind; [apply hoare_Now|]. intros now. cbn beta.
  eapply hoare_bind; [by apply write_undisturbed|].
  intros [err|?]; reported.
Qed.

Lemma blob_degraded_fails
    (c : Cluster.t ConfigBlob.AlertRule.t ConfigBlob.ConfigMap.t) a reason message err :
  (ConfigBlob.AlertRuleReconciler.degraded a reason message err c).1 =
  (Result.zero, Some err).
Proof.
  unfold ConfigBlob.AlertRuleReconciler.degraded. rewrite bind_run.
  by destruct (ConfigBlob.AlertRuleReconciler.updateStatus _ _ _).1.
Qed.

Lemma blob_Reconcile_reports
    (c0 : Cluster.t ConfigBlob.AlertRule.t ConfigBlob.ConfigMap.t) req :
  hoare (undisturbed c0) (ConfigBlob.AlertRuleReconciler.Reconcile req)
    (λ out c, out.2 = None → undisturbed c0 c).
Proof.
  unfold ConfigBlob.AlertRuleReconciler.Reconcile.
  eapply hoare_bind; [apply Get_undisturbed|].
  intros [err|a].
  { destruct (apierrors.IsNotFound err); reported. }
  eapply hoare_bind; [apply blob_updateStatus_reports|].
  intros [a1 [err|]]; cbn [snd]; [reported|].
  eapply hoare_pre; [intros c Hc; exact (Hc eq_refl)|].
  cbn [ConfigBlob.AlertRuleReconciler.generateAlertRulesYAML].
  eapply hoare_bind; [apply Get_undisturbed|].
  intros r.
  eapply (hoare_bind _ _ _
            (λ w c, match w with
                    | inl out => out.2 = None → undisturbed c0 c
                    | inr _ => undisturbed c0 c
                    end)).
  - destruct r as [err|existing].
    + destruct (apierrors.IsNotFound err) eqn:Hnf; [|reported].
      eapply hoare_pre; [intros c Hc; exact (Hc eq_refl)|].
      eapply hoare_bind; [by apply write_undisturbed|].
      intros [err'|?]; [|reported].
      intros c _. unfold fmap, M_fmap.
      pose proof (blob_degraded_fails c a1 "ConfigMapCreationFailed"
                    ("Failed to create ConfigMap: " +:+ ErrorString err') err') as Hd.
      destruct (ConfigBlob.AlertRuleReconciler.degraded _ _ _ _ c) as [out c'].
      cbn [fst snd] in *. by subst out.
    + eapply hoare_bind; [by apply write_undisturbed|].
      intros [err'|?]; [|reported].
      intros c _. unfold fmap, M_fmap.
      pose proof (blob_degraded_fails c a1 "ConfigMapUpdateFailed"
                    ("Failed to update ConfigMap: " +:+ ErrorString err') err') as Hd.
      destruct (ConfigBlob.AlertRuleReconciler.degraded _ _ _ _ c) as [out c'].
      cbn [fst snd] in *. by subst out.
  - intros [out|[]]; [reported|].
    eapply hoare_bind; [apply blob_updateStatus_reports|].
    intros [a2 [err|]]; reported.
Qed.

(** X3.  The workload reconciler swallows no failure: when it returns a nil
    error, none of the calls it made had failed. *)
Theorem DeploymentReconciler_reports_failures {Art : Type} Scheme
    (c : Cluster.t AlertRule.t Art) req :
  (DeploymentReconciler.Reconcile Scheme req c).1.2 = None →
  undisturbed c (DeploymentReconciler.Reconcile Scheme req c).2.
Proof. apply (DeploymentReconciler_reports Scheme c req c), undisturbed_refl. Qed.

Lemma DeploymentReconciler_reports_failures_witness :
  undisturbed
    (Examples.withFaults [None; None; None; Some Timeout]
       (Examples.cluster [Examples.checkout] [] []))
    (DeploymentReconciler.Reconcile Examples.apps (Request.mk "shop" "checkout")
       (Examples.withFaults [None; None; None; Some Timeout]
          (Examples.cluster [Examples.checkout] [] []))).2.
Proof.
  apply (DeploymentReconciler_reports_failures Examples.apps
           (Examples.withFaults [None; None; None; Some Timeout]
              (Examples.cluster [Examples.checkout] [] []))
           (Request.mk "shop" "checkout")).
  vm_compute. reflexivity.
Defined.

(** X4.  The configuration-blob AlertRule reconciler swallows no failure:
    when it returns a nil error, none of the calls it made had failed (a
    failed write of the [Degraded] condition is logged only, but then the
    error of the ConfigMap write is returned). *)
Theorem blob_Reconcile_reports_failures
    (c : Cluster.t ConfigBlob.AlertRule.t ConfigBlob.ConfigMap.t) req :
  (ConfigBlob.AlertRuleReconciler.Reconcile req c).1.2 = None →
  undisturbed c (ConfigBlob.AlertRuleReconciler.Reconcile req c).2.
Proof. apply (blob_Reconcile_reports c req c), undisturbed_refl. Qed.

Lemma blob_Reconcile_reports_failures_witness :
  undisturbed
    (Examples.withFaults [None; None; None; None; None; Some Internal]
       (Examples.blobCluster [Examples.blobAlert None] []))
    (ConfigBlob.AlertRuleReconciler.Reconcile (Request.mk "shop" "pods")
       (Examples.withFaults [None; None; None; None; None; Some Internal]
          (Examples.blobCluster [Examples.blobAlert None] []))).2.
Proof.
  apply (blob_Reconcile_reports_failures
           (Examples.withFaults [None; None; None; None; None; Some Internal]
              (Examples.blobCluster [Examples.blobAlert None] []))
           (Request.mk "shop" "pods")).
  vm_compute. reflexivity.
Defined.

(** ** What the reconcilers leave alone *)

Lemma keeps_ret {S A : Type} (J : S → Prop) (x : A) : keeps J (mret x).
Proof. by apply hoare_ret. Qed.

Lemma keeps_bind {S A B : Type} (J : S → Prop) (m : M S A) (f : A → M S B) :
  keeps J m → (∀ a, keeps J (f a)) → keeps J (m ≫= f).
Proof. intros Hm Hf. eapply hoare_bind; [exact Hm|exact Hf]. Qed.

Lemma keeps_fmap {S A B : Type} (J : S → Prop) (m : M S A) (g : A → B) :
  keeps J m → keeps J (g <$> m).
Proof. intros Hm. by apply hoare_fmap. Qed.

Lemma keeps_Now {AR Art : Type} (J : Cluster.t AR Art → Prop) : keeps J Now.
Proof. apply hoare_Now. Qed.

Section untouched_calls.
Context {AR Art B : Type} `{!Object AR, !Object Art}.
Context (f : AR → B) (c0 : Cluster.t AR Art).
Hypothesis f_status :
  ∀ rev stored sent, f (stamp rev (onStatusUpdate stored sent)) = f stored.

Lemma Get_untouched {T : Type} `{!Object T}
    (R : Resource (AR:=AR) (Art:=Art) T) k :
  keeps (untouched f c0) (Get R k).
Proof. intros c Hc. unfold Get. by destruct (nextFault c). Qed.

Lemma Artifacts_write_untouched verb o op :
  keeps (untouched f c0) (write verb Artifacts o op).
Proof.
  intros c Hc. unfold write. destruct (nextFault c); [done|].
  by destruct (op _ _ _) as [?|[? ?]].
Qed.

Lemma Artifacts_Delete_untouched o :
  keeps (untouched f c0) (Delete Artifacts o).
Proof.
  intros c Hc. unfold Delete. destruct (nextFault c); [done|].
  by destruct (store_delete _ _).
Qed.

Lemma StatusUpdate_untouched a :
  keeps (untouched f c0) (StatusUpdate AlertRules a).
Proof.
  intros c [Hrules Hdeps]. unfold StatusUpdate, write, store_status_update, store_replace.
  destruct (nextFault c); [done|]. cbn [view AlertRules].
  destruct (Cluster.alertRules c !! key_of a) as [stored|] eqn:Hst; [|done].
  destruct (stale stored a); [done|]. split; [|done].
  intros k. simpl. rewrite lookup_insert. case_decide as Hk.
  - subst k. simpl. by rewrite f_status, <- Hrules, Hst.
  - apply Hrules.
Qed.
End untouched_calls.

Ltac keep :=
  repeat first
    [ apply keeps_ret
    | apply keeps_Now
    | apply keeps_fmap
    | apply Get_untouched
    | apply Artifacts_write_untouched
    | apply Artifacts_Delete_untouched
    | apply StatusUpdate_untouched; done
    | apply keeps_bind; [|intros ?]
    | case_match ].

Lemma AlertRuleReconciler_untouched order
    (c0 : Cluster.t AlertRule.t Unstructured.t) req :
  keeps (untouched declared c0) (AlertRuleReconciler.Reconcile order req).
Proof.
  unfold AlertRuleReconciler.Reconcile, AlertRuleReconciler.deletePrometheusRule,
    AlertRuleReconciler.reconcilePrometheusRule, AlertRuleReconciler.updateStatus.
  keep; apply _.
Qed.

Lemma blob_Reconcile_untouched
    (c0 : Cluster.t ConfigBlob.AlertRule.t ConfigBlob.ConfigMap.t) req :
  keeps (untouched blobDeclared c0) (ConfigBlob.AlertRuleReconciler.Reconcile req).
Proof.
  unfold ConfigBlob.AlertRuleReconciler.Reconcile,
    ConfigBlob.AlertRuleReconciler.degraded,
    ConfigBlob.AlertRuleReconciler.updateStatus.
  keep; apply _.
Qed.

Lemma untouched_refl {AR Art B : Type} (f : AR → B) (c : Cluster.t AR Art) :
  untouched f c c.
Proof. by split. Qed.

(** X5.  Whatever the store holds and whichever calls fail, the rule-group
    AlertRule reconciler writes the status of AlertRules only: it adds and
    removes no AlertRule, changes no spec, label or owner reference of one,
    and leaves the workloads alone. *)
Theorem AlertRuleReconciler_writes_status_only order
    (c : Cluster.t AlertRule.t Unstructured.t) req :
  let c' := (AlertRuleReconciler.Reconcile order req c).2 in
  (∀ k, declared <$> Cluster.alertRules c' !! k = declared <$> Cluster.alertRules c !! k) ∧
  dom (Cluster.alertRules c') = dom (Cluster.alertRules c) ∧
  Cluster.deployments c' = Cluster.deployments c.
Proof.
  destruct (AlertRuleReconciler_untouched order c req c (untouched_refl _ c))
    as [Hrules Hdeps].
  split_and!; [exact Hrules| |exact Hdeps].
  apply set_eq. intros k. rewrite !elem_of_dom, <- !(fmap_is_Some declared).
  by rewrite Hrules.
Qed.

(** X6.  Whatever the store holds and whichever calls fail, the
    configuration-blob AlertRule reconciler writes the status of AlertRules
    only: it adds and removes no AlertRule, changes no spec, label or owner
    reference of one, and leaves the workloads alone. *)
Theorem blob_Reconcile_writes_status_only
    (c : Cluster.t ConfigBlob.AlertRule.t ConfigBlob.ConfigMap.t) req :
  let c' := (ConfigBlob.AlertRuleReconciler.Reconcile req c).2 in
  (∀ k, blobDeclared <$> Cluster.alertRules c' !! k =
        blobDeclared <$> Cluster.alertRules c !! k) ∧
  dom (Cluster.alertRules c') = dom (Cluster.alertRules c) ∧
  Cluster.deployments c' = Cluster.deployments c.
Proof.
  destruct (blob_Reconcile_untouched c req c (untouched_refl _ c)) as [Hrules Hdeps].
  split_and!; [exact Hrules| |exact Hdeps].
  apply set_eq. intros k. rewrite !elem_of_dom, <- !(fmap_is_Some blobDeclared).
  by rewrite Hrules.
Qed.

(** ** The one object a reconcile writes *)

Lemma store_create_others {T : Type} `{!Object T} (rev : Z)
    (s s' : gmap (string * string) T) (o o' : T) (k : string * string) :
  store_create rev s o = inr (o', s') → k ≠ key_of o → s' !! k = s !! k.
Proof.
  unfold store_create. destruct (s !! key_of o); [done|].
  intros [= _ <-] Hk. by rewrite lookup_insert_ne.
Qed.

Lemma store_replace_others {T : Type} `{!Object T} (merge : T → T → T) (rev : Z)
    (s s' : gmap (string * string) T) (o o' : T) (k : string * string) :
  store_replace merge rev s o = inr (o', s') → k ≠ key_of o → s' !! k = s !! k.
Proof.
  unfold store_replace. destruct (s !! key_of o); [|done].
  destruct (stale _ _); [done|].
  intros [= _ <-] Hk. by rewrite lookup_insert_ne.
Qed.

Section one_alertRule.
Context {Art : Type} (c0 : Cluster.t AlertRule.t Art) (key : string * string).
#[local] Abbreviation before := (asBefore c0).
#[local] Abbreviation butKey := (butAlertRule key c0).

Lemma asBefore_butKey c : before c → butKey c.
Proof. intros (Hd & Ha & Hart). split_and!; [done..|]. intros k _. by rewrite Ha. Qed.

Lemma Get_Deployments_asBefore k :
  hoare before (Get Deployments k)
    (λ r c, before c ∧ ∀ d, r = inr d → Cluster.deployments c0 !! k = Some d).
Proof.
  intros c (Hd & Ha & Hart). unfold Get, store_get.
  destruct (nextFault c); cbn [fst snd]; (split; [done|]); [done|].
  cbn [view Deployments]. rewrite Hd.
  destruct (Cluster.deployments c0 !! k); intros d' [=]. by subst.
Qed.

Lemma Get_AlertRules_asBefore k :
  hoare before (Get AlertRules k)
    (λ r c, before c ∧ ∀ a, r = inr a → Cluster.alertRules c0 !! k = Some a).
Proof.
  intros c (Hd & Ha & Hart). unfold Get, store_get.
  destruct (nextFault c); cbn [fst snd]; (split; [done|]); [done|].
  cbn [view AlertRules]. rewrite Ha.
  destruct (Cluster.alertRules c0 !! k); intros d' [=]. by subst.
Qed.

Lemma write_AlertRules_butKey verb o op :
  key_of o = key →
  (∀ rev s o' s' k, op rev s o = inr (o', s') → k ≠ key_of o → s' !! k = s !! k) →
  hoare before (write verb AlertRules o op) (λ _ c, butKey c).
Proof.
  intros Hkey Hop c Hc. unfold write.
  destruct (nextFault c); cbn [fst snd]; [by apply asBefore_butKey|].
  destruct (op _ _ _) as [err|[o' s']] eqn:Hrun; cbn [fst snd];
    [by apply asBefore_butKey|].
  destruct Hc as (Hd & Ha & Hart). split_and!; [done..|].
  intros k Hk. simpl. rewrite <- Ha. eapply Hop; [done|]. by rewrite Hkey.
Qed.

Lemma Delete_AlertRules_butKey o :
  key_of o = key →
  hoare before (Delete AlertRules o) (λ _ c, butKey c).
Proof.
  intros Hkey c Hc. unfold Delete, store_delete.
  destruct (nextFault c); cbn [fst snd]; [by apply asBefore_butKey|].
  cbn [view AlertRules].
  destruct (Cluster.alertRules c !! key_of o); cbn [fst snd];
    [|by apply asBefore_butKey].
  destruct Hc as (Hd & Ha & Hart). split_and!; [done..|].
  intros k Hk. simpl. rewrite lookup_delete_ne by by rewrite Hkey. by rewrite Ha.
Qed.
End one_alertRule.

Lemma DeploymentReconciler_one_alertRule {Art : Type} Scheme
    (c0 : Cluster.t AlertRule.t Art) req :
  wellKeyed (Cluster.deployments c0) → wellKeyed (Cluster.alertRules c0) →
  hoare (asBefore c0) (DeploymentReconciler.Reconcile Scheme req)
    (λ _ c, butAlertRule
              (Request.Namespace req,
               DeploymentReconciler.alertRuleNameFor (Request.Name req)) c0 c).
Proof.
  intros Hdeps Hrules. destruct req as [ns name].
  unfold DeploymentReconciler.Reconcile,
    DeploymentReconciler.deleteAlertRuleForDeployment, Request.NamespacedName.
  cbn [Request.Namespace Request.Name].
  set (key := (ns, DeploymentReconciler.alertRuleNameFor name)).
  assert (∀ A (x : A), hoare (asBefore c0) (mret x) (λ _ c, butAlertRule key c0 c)) as Hret.
  { intros A x. apply hoare_ret. intros c. apply asBefore_butKey. }
  eapply hoare_bind; [apply Get_Deployments_asBefore|].
  intros [err|d]; cbn beta.
  - eapply hoare_pre; [intros c Hc; exact (proj1 Hc)|].
    destruct (apierrors.IsNotFound err); [|apply Hret].
    eapply hoare_bind; [apply Get_AlertRules_asBefore|].
    intros [err'|a]; cbn beta.
    + eapply hoare_pre; [intros c Hc; exact (proj1 Hc)|]. case_match; apply Hret.
    + apply hoare_assume. intros Ha. specialize (Ha a eq_refl).
      eapply hoare_bind; [apply (Delete_AlertRules_butKey c0 key); by apply Hrules|].
      intros [err'|]; repeat case_match; by apply hoare_ret.
  - apply hoare_assume. intros Hd. specialize (Hd d eq_refl). apply Hdeps in Hd.
    injection Hd as Hdns Hdname.
    case_match; [apply Hret|].
    unfold Deployment.Name. rewrite Hdname. fold key.
    eapply hoare_bind; [apply Get_AlertRules_asBefore|].
    intros [err'|a]; cbn beta.
    + eapply hoare_pre; [intros c Hc; exact (proj1 Hc)|].
      case_match; [apply Hret|].
      eapply hoare_bind.
      { apply (write_AlertRules_butKey c0 key).
        - rewrite createDefaultAlertRule_key. unfold Deployment.Namespace.
          by rewrite Hdns.
        - intros *. apply store_create_others. }
      intros [?|?]; by apply hoare_ret.
    + apply hoare_assume. intros Ha. specialize (Ha a eq_refl).
      case_match; [|apply Hret].
      eapply hoare_bind.
      { apply (write_AlertRules_butKey c0 key).
        - rewrite key_of_SetSpec. by apply Hrules.
        - intros *. apply store_replace_others. }
      intros [?|?]; by apply hoare_ret.
Qed.

Lemma asBefore_refl {AR Art : Type} (c : Cluster.t AR Art) : asBefore c c.
Proof. done. Qed.

Lemma wellKeyed_list_to_map {T : Type} `{!Object T} (l : list T) :
  wellKeyed (list_to_map ((λ o, (key_of o, o)) <$> l) : gmap (string * string) T).
Proof.
  intros k o Hko. apply elem_of_list_to_map_2 in Hko.
  apply list_elem_of_fmap in Hko as (o' & [= -> ->] & _). done.
Qed.

(** X7.  In a store whose objects are stored under their own namespace and
    name, a reconcile of the workload [W] in namespace [N] writes no object
    but the AlertRule [W-alert] of [N], whatever the store holds and
    whichever calls fail: every other AlertRule, every workload and every
    artifact is left as it was. *)
Theorem DeploymentReconciler_writes_one_alertRule {Art : Type} Scheme
    (c : Cluster.t AlertRule.t Art) req :
  wellKeyed (Cluster.deployments c) → wellKeyed (Cluster.alertRules c) →
  let c' := (DeploymentReconciler.Reconcile Scheme req c).2 in
  Cluster.deployments c' = Cluster.deployments c ∧
  Cluster.artifacts c' = Cluster.artifacts c ∧
  ∀ k, k ≠ (Request.Namespace req,
            DeploymentReconciler.alertRuleNameFor (Request.Name req)) →
       Cluster.alertRules c' !! k = Cluster.alertRules c !! k.
Proof.
  intros Hdeps Hrules.
  apply (DeploymentReconciler_one_alertRule Scheme c req Hdeps Hrules c), asBefore_refl.
Qed.

Lemma DeploymentReconciler_writes_one_alertRule_witness :
  Cluster.deployments
    (DeploymentReconciler.Reconcile Examples.apps (Request.mk "shop" "checkout")
       (Examples.cluster [Examples.checkout] [Examples.latency] [])).2 =
  Cluster.deployments (Examples.cluster [Examples.checkout] [Examples.latency] []) ∧
  Cluster.artifacts
    (DeploymentReconciler.Reconcile Examples.apps (Request.mk "shop" "checkout")
       (Examples.cluster [Examples.checkout] [Examples.latency] [])).2 =
  Cluster.artifacts (Examples.cluster [Examples.checkout] [Examples.latency] []) ∧
  ∀ k, k ≠ ("shop", DeploymentReconciler.alertRuleNameFor "checkout") →
       Cluster.alertRules
         (DeploymentReconciler.Reconcile Examples.apps (Request.mk "shop" "checkout")
            (Examples.cluster [Examples.checkout] [Examples.latency] [])).2 !! k =
       Cluster.alertRules (Examples.cluster [Examples.checkout] [Examples.latency] []) !! k.
Proof.
  apply (DeploymentReconciler_writes_one_alertRule Examples.apps
           (Examples.cluster [Examples.checkout] [Examples.latency] [])
           (Request.mk "shop" "checkout"));
    apply wellKeyed_list_to_map.
Defined.

(** ** The one artifact an AlertRule reconcile writes *)

Section one_artifact.
Context {AR Art : Type} `{!Object AR, !Object Art}.
Context (c0 : Cluster.t AR Art) (key : string * string).

(** no artifact written yet, and the AlertRules under their keys *)
#[local] Abbreviation before := (λ c : Cluster.t AR Art,
  Cluster.artifacts c = Cluster.artifacts c0 ∧ wellKeyed (Cluster.alertRules c)).
#[local] Abbreviation butKey := (butArtifact key c0).

Lemma before_butKey c : before c → butKey c.
Proof. intros [Hart _] k _. by rewrite Hart. Qed.

Lemma Get_AlertRules_before k :
  hoare before (Get AlertRules k)
    (λ r c, before c ∧ ∀ a, r = inr a → key_of a = k).
Proof.
  intros c [Hart Hwk]. unfold Get, store_get.
  destruct (nextFault c); cbn [fst snd]; (split; [done|]); [done|].
  cbn [view AlertRules].
  destruct (Cluster.alertRules c !! k) eqn:Hk; intros a' [=]. subst. by apply Hwk.
Qed.

Lemma Get_Artifacts_before k :
  hoare before (Get Artifacts k)
    (λ r c, before c ∧ ∀ o, r = inr o → Cluster.artifacts c0 !! k = Some o).
Proof.
  intros c [Hart Hwk]. unfold Get, store_get.
  destruct (nextFault c); cbn [fst snd]; (split; [done|]); [done|].
  cbn [view Artifacts]. rewrite Hart.
  destruct (Cluster.artifacts c0 !! k); intros o' [=]. by subst.
Qed.

Hypothesis key_stamp : ∀ rev (o : AR), key_of (stamp rev o) = key_of o.
Hypothesis key_status : ∀ stored sent : AR, key_of (onStatusUpdate stored sent) = key_of stored.

Lemma StatusUpdate_before a :
  hoare before (StatusUpdate AlertRules a)
    (λ r c, before c ∧ ∀ stored, r = inr stored → key_of stored = key_of a).
Proof.
  intros c [Hart Hwk].
  unfold StatusUpdate, write, store_status_update, store_replace.
  destruct (nextFault c); cbn [fst snd]; [by split|]. cbn [view AlertRules].
  destruct (Cluster.alertRules c !! key_of a) as [stored|] eqn:Hst; [|by split].
  destruct (stale stored a); [by split|]. cbn [fst snd].
  assert (key_of (stamp (Cluster.revision c + 1) (onStatusUpdate stored a)) = key_of a)
    as Hkey.
  { rewrite key_stamp, key_status. by apply Hwk. }
  split_and!; [done| |by intros ? [= <-]].
  intros k o. simpl. rewrite lookup_insert. case_decide as Hk.
  - intros [= <-]. by rewrite Hkey.
  - apply Hwk.
Qed.

Lemma Get_butKey {T : Type} `{!Object T} (R : Resource (AR:=AR) (Art:=Art) T) k :
  keeps butKey (Get R k).
Proof. intros c Hc. unfold Get. by destruct (nextFault c). Qed.

Lemma AlertRules_write_butKey verb a op :
  keeps butKey (write verb AlertRules a op).
Proof.
  intros c Hc. unfold write. destruct (nextFault c); [done|].
  by destruct (op _ _ _) as [?|[? ?]].
Qed.

Lemma Artifacts_write_butKey verb o op :
  key_of o = key →
  (∀ rev s o' s' k, op rev s o = inr (o', s') → k ≠ key_of o → s' !! k = s !! k) →
  hoare before (write verb Artifacts o op) (λ _ c, butKey c).
Proof.
  intros Hkey Hop c Hc. unfold write.
  destruct (nextFault c); cbn [fst snd]; [by apply before_butKey|].
  destruct (op _ _ _) as [err|[o' s']] eqn:Hrun; cbn [fst snd];
    [by apply before_butKey|].
  destruct Hc as [Hart _]. intros k Hk. simpl. rewrite <- Hart.
  eapply Hop; [done|]. by rewrite Hkey.
Qed.

Lemma Artifacts_Delete_butKey o :
  key_of o = key →
  hoare before (Delete Artifacts o) (λ _ c, butKey c).
Proof.
  intros Hkey c Hc. unfold Delete, store_delete.
  destruct (nextFault c); cbn [fst snd]; [by apply before_butKey|].
  cbn [view Artifacts].
  destruct (Cluster.artifacts c !! key_of o); cbn [fst snd];
    [|by apply before_butKey].
  destruct Hc as [Hart _]. intros k Hk. simpl.
  rewrite lookup_delete_ne by by rewrite Hkey. by rewrite Hart.
Qed.
End one_artifact.

Lemma key_of_createPrometheusRule order a :
  key_of (AlertRuleReconciler.createPrometheusRule order a) = key_of a.
Proof. done. Qed.

Lemma AlertRuleReconciler_one_artifact order
    (c0 : Cluster.t AlertRule.t Unstructured.t) req :
  wellKeyed (Cluster.artifacts c0) →
  hoare (λ c, Cluster.artifacts c = Cluster.artifacts c0 ∧
              wellKeyed (Cluster.alertRules c))
    (AlertRuleReconciler.Reconcile order req)
    (λ _ c, butArtifact (Request.NamespacedName req) c0 c).
Proof.
  intros Harts. destruct req as [ns name].
  unfold AlertRuleReconciler.Reconcile, AlertRuleReconciler.deletePrometheusRule,
    AlertRuleReconciler.reconcilePrometheusRule, AlertRuleReconciler.updateStatus,
    Request.NamespacedName.
  cbn [Request.Namespace Request.Name].
  set (key := (ns, name)).
  assert (∀ A (x : A) (φ : Prop),
            hoare (λ c, (Cluster.artifacts c = Cluster.artifacts c0 ∧
                         wellKeyed (Cluster.alertRules c)) ∧ φ)
              (mret x) (λ _ c, butArtifact key c0 c)) as Hret.
  { intros A x φ. apply hoare_ret. intros c [Hc _]. by apply before_butKey. }
  eapply hoare_bind; [apply Get_AlertRules_before|].
  intros [err|a]; cbn beta.
  - destruct (apierrors.IsNotFound err); [|apply Hret].
    eapply hoare_pre; [intros c Hc; exact (proj1 Hc)|].
    eapply hoare_bind; [apply Get_Artifacts_before|].
    intros [err'|existing]; cbn beta; [case_match; apply Hret|].
    apply hoare_assume. intros Hex. specialize (Hex existing eq_refl).
    eapply hoare_bind; [apply (Artifacts_Delete_butKey c0 key); by apply Harts|].
    intros [err'|]; repeat case_match; by apply hoare_ret.
  - case_match; [apply Hret|].
    apply hoare_assume. intros Ha. specialize (Ha a eq_refl).
    change (AlertRule.Namespace a, AlertRule.Name a) with (key_of a). rewrite Ha.
    eapply (hoare_bind _ _ _ (λ _ c, butArtifact key c0 c)).
    + eapply hoare_bind; [apply Get_Artifacts_before|].
      intros [err'|existing]; cbn beta.
      * case_match; [apply Hret|].
        eapply hoare_pre; [intros c Hc; exact (proj1 Hc)|].
        eapply hoare_bind.
        { apply (Artifacts_write_butKey c0 key); [done|].
          intros *. apply store_create_others. }
        intros [?|?]; by apply hoare_ret.
      * eapply hoare_pre; [intros c Hc; exact (proj1 Hc)|].
        eapply hoare_bind.
        { apply (Artifacts_write_butKey c0 key); [done|].
          intros *. apply store_replace_others. }
        intros [?|?]; by apply hoare_ret.
    + intros [err'|]; [by apply hoare_ret|].
      apply (keeps_bind (butArtifact key c0)).
      { apply keeps_bind; [apply Get_butKey; apply _|]. intros fetched.
        apply keeps_bind; [apply keeps_Now|]. intros now. cbn beta.
        apply keeps_bind; [apply AlertRules_write_butKey|].
        intros [?|?]; apply keeps_ret. }
      intros [a' [?|]]; apply keeps_ret.
Qed.

(** X8.  In a store whose objects are stored under their own namespace and
    name, a reconcile of the rule-group AlertRule reconciler for the key
    [N/R] creates, replaces or deletes no artifact but the PrometheusRule
    [R] of [N], whatever the store holds and whichever calls fail. *)
Theorem AlertRuleReconciler_writes_one_artifact order
    (c : Cluster.t AlertRule.t Unstructured.t) req :
  wellKeyed (Cluster.alertRules c) → wellKeyed (Cluster.artifacts c) →
  ∀ k, k ≠ Request.NamespacedName req →
       Cluster.artifacts (AlertRuleReconciler.Reconcile order req c).2 !! k =
       Cluster.artifacts c !! k.
Proof.
  intros Hrules Harts.
  by apply (AlertRuleReconciler_one_artifact order c req Harts c).
Qed.

Lemma AlertRuleReconciler_writes_one_artifact_witness :
  Cluster.artifacts
    (AlertRuleReconciler.Reconcile map_to_list (Request.mk "shop" "latency")
       (Examples.cluster [] [Examples.latency] [Examples.staleArtifact])).2
    !! ("shop", "checkout-alert") =
  Cluster.artifacts (Examples.cluster [] [Examples.latency] [Examples.staleArtifact])
    !! ("shop", "checkout-alert").
Proof.
  apply (AlertRuleReconciler_writes_one_artifact map_to_list
           (Examples.cluster [] [Examples.latency] [Examples.staleArtifact])
           (Request.mk "shop" "latency"));
    [apply wellKeyed_list_to_map..|vm_compute; discriminate].
Defined.

Lemma blob_updateStatus_before
    (c0 : Cluster.t ConfigBlob.AlertRule.t ConfigBlob.ConfigMap.t) a condition :
  hoare (λ c, Cluster.artifacts c = Cluster.artifacts c0 ∧
              wellKeyed (Cluster.alertRules c))
    (ConfigBlob.AlertRuleReconciler.updateStatus a condition)
    (λ r c, (Cluster.artifacts c = Cluster.artifacts c0 ∧
             wellKeyed (Cluster.alertRules c)) ∧
            (r.2 = None → key_of r.1 = key_of a)).
Proof.
  unfold ConfigBlob.AlertRuleReconciler.updateStatus.
  eapply hoare_bind; [apply hoare_Now|]. intros now. cbn beta.
  eapply hoare_bind; [by apply StatusUpdate_before|].
  intros [err|stored]; apply hoare_ret; intros c [Hc Hkey]; (split; [done|]);
    cbn [fst snd]; [done|].
  intros _. by rewrite (Hkey stored eq_refl).
Qed.

Lemma blob_updateStatus_butKey
    (c0 : Cluster.t ConfigBlob.AlertRule.t ConfigBlob.ConfigMap.t) key a condition :
  keeps (butArtifact key c0) (ConfigBlob.AlertRuleReconciler.updateStatus a condition).
Proof.
  unfold ConfigBlob.AlertRuleReconciler.updateStatus.
  apply keeps_bind; [apply keeps_Now|]. intros now. cbn beta.
  apply keeps_bind; [apply AlertRules_write_butKey|].
  intros [?|?]; apply keeps_ret.
Qed.

Lemma blob_degraded_butKey
    (c0 : Cluster.t ConfigBlob.AlertRule.t ConfigBlob.ConfigMap.t) key a reason message err :
  keeps (butArtifact key c0)
    (ConfigBlob.AlertRuleReconciler.degraded a reason message err).
Proof.
  unfold ConfigBlob.AlertRuleReconciler.degraded.
  apply keeps_bind; [apply blob_updateStatus_butKey|].
  intros [? ?]. apply keeps_ret.
Qed.

Lemma blob_Reconcile_one_artifact
    (c0 : Cluster.t ConfigBlob.AlertRule.t ConfigBlob.ConfigMap.t) req :
  wellKeyed (Cluster.artifacts c0) →
  hoare (λ c, Cluster.artifacts c = Cluster.artifacts c0 ∧
              wellKeyed (Cluster.alertRules c))
    (ConfigBlob.AlertRuleReconciler.Reconcile req)
    (λ _ c, butArtifact
              (Request.Namespace req,
               ConfigBlob.AlertRuleReconciler.configMapNameFor (Request.Name req))
              c0 c).
Proof.
  intros Harts. destruct req as [ns name].
  unfold ConfigBlob.AlertRuleReconciler.Reconcile, Request.NamespacedName.
  cbn [Request.Namespace Request.Name].
  set (key := (ns, ConfigBlob.AlertRuleReconciler.configMapNameFor name)).
  assert (∀ A (x : A) (φ : Prop),
            hoare (λ c, (Cluster.artifacts c = Cluster.artifacts c0 ∧
                         wellKeyed (Cluster.alertRules c)) ∧ φ)
              (mret x) (λ _ c, butArtifact key c0 c)) as Hret.
  { intros A x φ. apply hoare_ret. intros c [Hc _]. by apply before_butKey. }
  eapply hoare_bind; [apply Get_AlertRules_before|].
  intros [err|a]; cbn beta; [case_match; apply Hret|].
  apply hoare_assume. intros Ha. specialize (Ha a eq_refl).
  eapply hoare_bind; [apply blob_updateStatus_before|].
  intros [a1 [err|]]; cbn [fst snd]; [apply Hret|].
  apply hoare_assume. intros Ha1. specialize (Ha1 eq_refl).
  rewrite Ha in Ha1. injection Ha1 as Hns Hname.
  cbn [ConfigBlob.AlertRuleReconciler.generateAlertRulesYAML].
  unfold ConfigBlob.AlertRule.Namespace, ConfigBlob.AlertRule.Name.
  rewrite Hns, Hname. fold key.
  eapply hoare_bind; [apply Get_Artifacts_before|].
  intros r. eapply (hoare_bind _ _ _ (λ _ c, butArtifact key c0 c)).
  - destruct r as [err|existing]; cbn beta.
    + case_match; [|apply Hret].
      eapply hoare_pre; [intros c Hc; exact (proj1 Hc)|].
      eapply hoare_bind.
      { apply (Artifacts_write_butKey c0 key).
        - unfold key_of. simpl.
          unfold ConfigBlob.AlertRule.Namespace, ConfigBlob.AlertRule.Name.
          by rewrite Hns, Hname.
        - intros *. apply store_create_others. }
      intros [err'|?]; [|apply keeps_ret].
      apply keeps_fmap, blob_degraded_butKey.
    + apply hoare_assume. intros Hex. specialize (Hex existing eq_refl).
      eapply hoare_bind.
      { apply (Artifacts_write_butKey c0 key).
        - by apply Harts in Hex.
        - intros *. apply store_replace_others. }
      intros [err'|?]; [|apply keeps_ret].
      apply keeps_fmap, blob_degraded_butKey.
  - intros [out|[]]; [apply keeps_ret|].
    apply keeps_bind; [apply blob_updateStatus_butKey|].
    intros [a2 [err|]]; apply keeps_ret.
Qed.

(** X9.  In a store whose objects are stored under their own namespace and
    name, a reconcile of the configuration-blob AlertRule reconciler for the
    key [N/R] writes no artifact but the ConfigMap [alertrule-R] of [N],
    whatever the store holds and whichever calls fail. *)
Theorem blob_Reconcile_writes_one_artifact
    (c : Cluster.t ConfigBlob.AlertRule.t ConfigBlob.ConfigMap.t) req :
  wellKeyed (Cluster.alertRules c) → wellKeyed (Cluster.artifacts c) →
  ∀ k, k ≠ (Request.Namespace req,
            ConfigBlob.AlertRuleReconciler.configMapNameFor (Request.Name req)) →
       Cluster.artifacts (ConfigBlob.AlertRuleReconciler.Reconcile req c).2 !! k =
       Cluster.artifacts c !! k.
Proof.
  intros Hrules Harts.
  by apply (blob_Reconcile_one_artifact c req Harts c).
Qed.

Lemma blob_Reconcile_writes_one_artifact_witness :
  Cluster.artifacts
    (ConfigBlob.AlertRuleReconciler.Reconcile (Request.mk "shop" "pods")
       (Examples.blobCluster [Examples.blobAlert None]
          [Examples.orphanConfigMap;
           ConfigBlob.ConfigMap.mk
             (ObjectMeta.mk "dashboards" "shop" None [] "uid-e" "2" 1 None) None])).2
    !! ("shop", "dashboards") =
  Cluster.artifacts
    (Examples.blobCluster [Examples.blobAlert None]
       [Examples.orphanConfigMap;
        ConfigBlob.ConfigMap.mk
          (ObjectMeta.mk "dashboards" "shop" None [] "uid-e" "2" 1 None) None])
    !! ("shop", "dashboards").
Proof.
  apply (blob_Reconcile_writes_one_artifact
           (Examples.blobCluster [Examples.blobAlert None]
              [Examples.orphanConfigMap;
               ConfigBlob.ConfigMap.mk
                 (ObjectMeta.mk "dashboards" "shop" None [] "uid-e" "2" 1 None) None])
           (Request.mk "shop" "pods"));
    [apply wellKeyed_list_to_map..|vm_compute; discriminate].
Defined.

(** ** The failure script, call by call *)

Lemma faultAt_0 {AR Art : Type} (c : Cluster.t AR Art) : faultAt 0 c = nextFault c.
Proof. unfold faultAt, nextFault. by destruct (Cluster.faults c). Qed.

Lemma faultAt_logged {AR Art : Type} call (c : Cluster.t AR Art) i :
  faultAt i (logged call c) = faultAt (S i) c.
Proof. unfold faultAt. simpl. by destruct (Cluster.faults c). Qed.

Lemma faultAt_next {AR Art : Type} call (c : Cluster.t AR Art) :
  faultAt 1 c = nextFault (logged call c).
Proof. by rewrite <- faultAt_0, faultAt_logged. Qed.

Lemma faultAt_two {AR Art : Type} call1 call2 (c : Cluster.t AR Art) i :
  faultAt i (logged call2 (logged call1 c)) = faultAt (2 + i) c.
Proof. by rewrite !faultAt_logged. Qed.

Lemma quiet_faultAt {AR Art : Type} (c : Cluster.t AR Art) i :
  quiet c → faultAt i c = None.
Proof.
  unfold quiet, faultAt. intros Hq.
  destruct (Cluster.faults c !! i) as [f|] eqn:Hi; [|done].
  simpl. by eapply Forall_lookup_1 in Hq.
Qed.

(** ** What a reconcile of the artifact leaves in the store *)

Lemma stale_rendered order a (existing : Unstructured.t) :
  stale existing
    (Unstructured.SetResourceVersion (Unstructured.GetResourceVersion existing)
       (Unstructured.SetUID (Unstructured.GetUID existing)
          (AlertRuleReconciler.createPrometheusRule order a))) = false.
Proof. by apply stale_same. Qed.

Lemma reconcilePrometheusRule_cases order
    (c : Cluster.t AlertRule.t Unstructured.t) (a : AlertRule.t) :
  let key := (AlertRule.Namespace a, AlertRule.Name a) in
  let out := AlertRuleReconciler.reconcilePrometheusRule order a c in
  match out.1 with
  | None =>
      ∃ o, Cluster.artifacts out.2 = <[key := o]> (Cluster.artifacts c) ∧
           renders (AlertRuleReconciler.createPrometheusRule order a) o ∧
           match Cluster.artifacts c !! key with
           | Some old => Unstructured.GetUID o = Unstructured.GetUID old
           | None => True
           end
  | Some err =>
      Cluster.artifacts out.2 = Cluster.artifacts c ∧
      ∃ prefix f, err = apierrors.Errorf prefix (transientError f)
  end ∧
  (nextFault c = None → faultAt 1 c = None →
   out.1 = None ∧
   Cluster.alertRules out.2 = Cluster.alertRules c ∧
   Cluster.clock out.2 = Cluster.clock c ∧
   Cluster.calls out.2 =
     Cluster.calls c ++
       [Call.mk VGet KArtifact key;
        Call.mk match Cluster.artifacts c !! key with
                | Some _ => VUpdate
                | None => VCreate
                end KArtifact key] ∧
   ∀ i, faultAt i out.2 = faultAt (2 + i) c).
Proof.
  intros key out. subst out. unfold AlertRuleReconciler.reconcilePrometheusRule.
  fold key. rewrite bind_run.
  destruct (nextFault c) as [f|] eqn:Hf.
  { rewrite (Get_fault Artifacts _ _ _ Hf). cbn [fst snd].
    rewrite IsNotFound_transient. cbn [negb]. unfold mret, M_ret. cbn [fst snd].
    split; [|done]. split; [done|]. by eexists _, _. }
  destruct (Cluster.artifacts c !! key) as [old|] eqn:Hold.
  - rewrite (Get_found Artifacts _ _ old Hf Hold). cbn [fst snd]. rewrite bind_run.
    set (c1 := logged _ c).
    destruct (nextFault c1) as [f|] eqn:Hf1.
    { unfold Update. rewrite (write_fault Artifacts _ _ _ _ _ Hf1). cbn [fst snd].
      unfold mret, M_ret. cbn [fst snd]. split.
      - split; [done|]. by eexists _, _.
      - intros _ H1. unfold c1 in Hf1. rewrite <- faultAt_next in Hf1. congruence. }
    unfold Update, store_update.
    rewrite (replace_fresh Artifacts onUpdate VUpdate _ old c1 Hf1);
      [|exact Hold|apply stale_rendered].
    cbn [fst snd]. unfold mret, M_ret. cbn [fst snd]. split.
    + eexists. split_and!; [reflexivity|done..].
    + intros _ _. split_and!; [done..| |].
      * simpl. by rewrite <- (assoc_L (++)).
      * intros i. apply faultAt_two.
  - rewrite (Get_missing Artifacts _ _ Hf Hold).
    cbn [fst snd apierrors.IsNotFound]. rewrite bool_decide_eq_true_2 by done.
    cbn [negb]. rewrite bind_run.
    set (c1 := logged _ c).
    destruct (nextFault c1) as [f|] eqn:Hf1.
    { unfold Create. rewrite (write_fault Artifacts _ _ _ _ _ Hf1). cbn [fst snd].
      unfold mret, M_ret. cbn [fst snd]. split.
      - split; [done|]. by eexists _, _.
      - intros _ H1. unfold c1 in Hf1. rewrite <- faultAt_next in Hf1. congruence. }
    destruct (Create_new Artifacts (AlertRuleReconciler.createPrometheusRule order a) c1)
      as (o' & -> & Ho'); [done|exact Hold|].
    cbn [fst snd]. unfold mret, M_ret. cbn [fst snd]. split.
    + exists o'. split_and!; [reflexivity| |done]. by subst o'.
    + intros _ _. split_and!; [done..| |].
      * simpl. by rewrite <- (assoc_L (++)).
      * intros i. apply faultAt_two.
Qed.

(** X10.  The outcome of [reconcilePrometheusRule], whichever calls fail.
    On a nil error the store holds, under the namespace and name of the
    AlertRule, an artifact with the content, the labels and the owner
    reference rendered from the AlertRule (those of an artifact that was
    there before are overwritten, its UID is kept), and no other artifact
    changed.  An error leaves the artifacts as they were, and is the
    wrapped failure of a call: no error arises from the content of the
    store. *)
Theorem reconcilePrometheusRule_outcome order
    (c : Cluster.t AlertRule.t Unstructured.t) (a : AlertRule.t) :
  let key := (AlertRule.Namespace a, AlertRule.Name a) in
  let out := AlertRuleReconciler.reconcilePrometheusRule order a c in
  match out.1 with
  | None =>
      ∃ o, Cluster.artifacts out.2 = <[key := o]> (Cluster.artifacts c) ∧
           renders (AlertRuleReconciler.createPrometheusRule order a) o ∧
           match Cluster.artifacts c !! key with
           | Some old => Unstructured.GetUID o = Unstructured.GetUID old
           | None => True
           end
  | Some err =>
      Cluster.artifacts out.2 = Cluster.artifacts c ∧
      ∃ prefix f, err = apierrors.Errorf prefix (transientError f)
  end.
Proof. apply reconcilePrometheusRule_cases. Qed.

(** ** A reconcile of the rule-group AlertRule that goes through *)

Lemma Reconcile_run order (c : Cluster.t AlertRule.t Unstructured.t) req a :
  faultAt 0 c = None → faultAt 1 c = None → faultAt 2 c = None → faultAt 4 c = None →
  Cluster.alertRules c !! Request.NamespacedName req = Some a →
  key_of a = Request.NamespacedName req →
  IsZero (ObjectMeta.DeletionTimestamp (AlertRule.ObjectMeta_ a)) = true →
  ∃ c' o a',
    AlertRuleReconciler.Reconcile order req c = (success, c') ∧
    Cluster.artifacts c' = <[Request.NamespacedName req := o]> (Cluster.artifacts c) ∧
    renders (AlertRuleReconciler.createPrometheusRule order a) o ∧
    Cluster.alertRules c' = <[Request.NamespacedName req := a']> (Cluster.alertRules c) ∧
    declared a' = declared a ∧
    AlertRuleReconciler.createPrometheusRule order a' =
      AlertRuleReconciler.createPrometheusRule order a ∧
    AlertRule.Conditions a' =
      upsertCondition (AlertRule.Conditions a)
        (AlertRuleReconciler.readyCondition a (Cluster.clock c)
           match faultAt 3 c with
           | Some f => inl (transientError f)
           | None => inr o
           end) ∧
    Cluster.calls c' =
      Cluster.calls c ++
        [Call.mk VGet KAlertRule (Request.NamespacedName req);
         Call.mk VGet KArtifact (Request.NamespacedName req);
         Call.mk match Cluster.artifacts c !! Request.NamespacedName req with
                 | Some _ => VUpdate
                 | None => VCreate
                 end KArtifact (Request.NamespacedName req);
         Call.mk VGet KArtifact (Request.NamespacedName req);
         Call.mk VStatusUpdate KAlertRule (Request.NamespacedName req)].
Proof.
  intros H0 H1 H2 H4 Ha Hkey Hz.
  unfold AlertRuleReconciler.Reconcile.
  rewrite bind_run, (Get_found AlertRules _ _ a); [|by rewrite <- faultAt_0|done].
  cbn [fst snd]. rewrite Hz. cbn [negb]. rewrite bind_run.
  set (c1 := logged _ c).
  pose proof (reconcilePrometheusRule_cases order c1 a) as [Hout Hquiet].
  cbn zeta in Hout, Hquiet.
  destruct Hquiet as (Hnone & Hrules & Hclock & Hcalls & Hfaults).
  { unfold c1. by rewrite <- faultAt_next. }
  { unfold c1. by rewrite faultAt_logged. }
  destruct (AlertRuleReconciler.reconcilePrometheusRule order a c1) as [e c3].
  cbn [fst snd] in *. subst e. destruct Hout as (o & Harts & Hrenders & _).
  change (AlertRule.Namespace a, AlertRule.Name a) with (key_of a) in Harts, Hcalls.
  rewrite Hkey in Harts, Hcalls.
  unfold AlertRuleReconciler.updateStatus. rewrite !bind_run.
  change (AlertRule.Namespace a, AlertRule.Name a) with (key_of a). rewrite Hkey.
  set (fetched := match faultAt 3 c with
                  | Some f => inl (transientError f)
                  | None => inr o
                  end).
  assert (Get Artifacts (Request.NamespacedName req) c3 =
            (fetched, logged (Call.mk VGet KArtifact (Request.NamespacedName req)) c3))
    as ->.
  { subst fetched. pose proof (Hfaults 0%nat) as H3. unfold c1 in H3.
    rewrite faultAt_logged, faultAt_0 in H3. simpl in H3. rewrite <- H3.
    destruct (nextFault c3) as [f|] eqn:Hf3.
    - by apply Get_fault.
    - apply (Get_found Artifacts); [done|]. simpl. rewrite Harts.
      apply lookup_insert_eq. }
  cbn [fst snd]. unfold Now. cbn [fst snd].
  set (c4 := logged _ c3).
  assert (Cluster.clock c4 = Cluster.clock c) as -> by done.
  set (sent := AlertRule.SetStatus _ a).
  unfold StatusUpdate, store_status_update.
  rewrite (replace_fresh AlertRules onStatusUpdate VStatusUpdate sent a c4).
  - cbn [fst snd]. unfold mret, M_ret. cbn [fst snd].
    eexists _, o, _. split; [reflexivity|].
    change (key_of sent) with (key_of a). rewrite Hkey. simpl.
    rewrite Hrules. split_and!; try done.
    rewrite Hcalls. simpl. by rewrite <- !(assoc_L (++)).
  - unfold c4. rewrite <- faultAt_0, faultAt_logged, Hfaults. unfold c1.
    by rewrite faultAt_logged.
  - change (key_of sent) with (key_of a). rewrite Hkey. simpl. by rewrite Hrules.
  - by apply stale_same.
Qed.

(** X11.  When no call fails, a reconcile of an AlertRule that is not being
    deleted succeeds and leaves the store reconciled: the artifact under
    the key carries what [createPrometheusRule] renders from the AlertRule,
    the AlertRule has the condition [PrometheusRuleReady] with status True
    recorded for its generation at the time of the reconcile, what the user
    declared of it is unchanged, and the AlertRule as stored renders the
    same artifact again. *)
Theorem AlertRuleReconciler_reconciles order
    (c : Cluster.t AlertRule.t Unstructured.t) req a :
  quiet c →
  Cluster.alertRules c !! Request.NamespacedName req = Some a →
  key_of a = Request.NamespacedName req →
  IsZero (ObjectMeta.DeletionTimestamp (AlertRule.ObjectMeta_ a)) = true →
  ∃ c' o a',
    AlertRuleReconciler.Reconcile order req c = (success, c') ∧
    Cluster.artifacts c' = <[Request.NamespacedName req := o]> (Cluster.artifacts c) ∧
    renders (AlertRuleReconciler.createPrometheusRule order a) o ∧
    Cluster.alertRules c' = <[Request.NamespacedName req := a']> (Cluster.alertRules c) ∧
    declared a' = declared a ∧
    AlertRuleReconciler.createPrometheusRule order a' =
      AlertRuleReconciler.createPrometheusRule order a ∧
    AlertRule.Conditions a' =
      upsertCondition (AlertRule.Conditions a)
        (Condition.mk "PrometheusRuleReady" ConditionTrue
           (ObjectMeta.Generation (AlertRule.ObjectMeta_ a)) (Cluster.clock c)
           "PrometheusRuleCreated" "PrometheusRule has been successfully created").
Proof.
  intros Hq Ha Hkey Hz.
  destruct (Reconcile_run order c req a) as (c' & o & a' & Hrun);
    [by apply quiet_faultAt..|done|done|done|].
  rewrite (quiet_faultAt c 3 Hq) in Hrun. exists c', o, a'.
  destruct Hrun as (? & ? & ? & ? & ? & ? & ? & _). by split_and!.
Qed.

Lemma AlertRuleReconciler_reconciles_witness :
  ∃ c' o a',
    AlertRuleReconciler.Reconcile map_to_list (Request.mk "shop" "latency")
      (Examples.cluster [] [Examples.latency] [Examples.staleArtifact]) = (success, c') ∧
    Cluster.artifacts c' =
      <[("shop", "latency") := o]>
        (Cluster.artifacts
           (Examples.cluster [] [Examples.latency] [Examples.staleArtifact])) ∧
    renders (AlertRuleReconciler.createPrometheusRule map_to_list Examples.latency) o ∧
    Cluster.alertRules c' =
      <[("shop", "latency") := a']>
        (Cluster.alertRules
           (Examples.cluster [] [Examples.latency] [Examples.staleArtifact])) ∧
    declared a' = declared Examples.latency ∧
    AlertRuleReconciler.createPrometheusRule map_to_list a' =
      AlertRuleReconciler.createPrometheusRule map_to_list Examples.latency ∧
    AlertRule.Conditions a' =
      upsertCondition (AlertRule.Conditions Examples.latency)
        (Condition.mk "PrometheusRuleReady" ConditionTrue 2 1000
           "PrometheusRuleCreated" "PrometheusRule has been successfully created").
Proof.
  apply (AlertRuleReconciler_reconciles map_to_list
           (Examples.cluster [] [Examples.latency] [Examples.staleArtifact])
           (Request.mk "shop" "latency") Examples.latency);
    [constructor|vm_compute; reflexivity..].
Defined.

(** X12.  A failure of the existence check of [updateStatus] (the fourth
    call of a reconcile) is not reported: the reconcile returns success, and
    the AlertRule gets the condition [PrometheusRuleReady] with status
    Unknown and the text of the failure, although the artifact was written
    by the same reconcile. *)
Theorem AlertRuleReconciler_swallows_check_failure order
    (c : Cluster.t AlertRule.t Unstructured.t) req a f :
  Cluster.faults c = [None; None; None; Some f] →
  Cluster.alertRules c !! Request.NamespacedName req = Some a →
  key_of a = Request.NamespacedName req →
  IsZero (ObjectMeta.DeletionTimestamp (AlertRule.ObjectMeta_ a)) = true →
  ∃ c' o a',
    AlertRuleReconciler.Reconcile order req c = (success, c') ∧
    Cluster.artifacts c' !! Request.NamespacedName req = Some o ∧
    renders (AlertRuleReconciler.createPrometheusRule order a) o ∧
    Cluster.alertRules c' !! Request.NamespacedName req = Some a' ∧
    AlertRule.Conditions a' =
      upsertCondition (AlertRule.Conditions a)
        (Condition.mk "PrometheusRuleReady" ConditionUnknown
           (ObjectMeta.Generation (AlertRule.ObjectMeta_ a)) (Cluster.clock c)
           "Error" ("Error checking PrometheusRule: " +:+ ErrorString (transientError f))).
Proof.
  intros Hf Ha Hkey Hz.
  destruct (Reconcile_run order c req a)
    as (c' & o & a' & Hrun & Harts & Hrenders & Hrules & _ & _ & Hconds & _);
    [by unfold faultAt; rewrite Hf..|done|done|done|].
  exists c', o, a'. split_and!; [done| |done| |].
  - rewrite Harts. apply lookup_insert_eq.
  - rewrite Hrules. apply lookup_insert_eq.
  - rewrite Hconds. unfold faultAt. rewrite Hf. simpl.
    unfold AlertRuleReconciler.readyCondition. by rewrite IsNotFound_transient.
Qed.

Lemma AlertRuleReconciler_swallows_check_failure_witness :
  ∃ c' o a',
    AlertRuleReconciler.Reconcile map_to_list (Request.mk "shop" "latency")
      (Examples.withFaults [None; None; None; Some Timeout]
         (Examples.cluster [] [Examples.latency] [])) = (success, c') ∧
    Cluster.artifacts c' !! ("shop", "latency") = Some o ∧
    renders (AlertRuleReconciler.createPrometheusRule map_to_list Examples.latency) o ∧
    Cluster.alertRules c' !! ("shop", "latency") = Some a' ∧
    AlertRule.Conditions a' =
      upsertCondition (AlertRule.Conditions Examples.latency)
        (Condition.mk "PrometheusRuleReady" ConditionUnknown 2 1000
           "Error" "Error checking PrometheusRule: server timeout").
Proof.
  apply (AlertRuleReconciler_swallows_check_failure map_to_list
           (Examples.withFaults [None; None; None; Some Timeout]
              (Examples.cluster [] [Examples.latency] []))
           (Request.mk "shop" "latency") Examples.latency Timeout);
    vm_compute; reflexivity.
Defined.

(** X13.  When no call fails, every reconcile of an AlertRule that is not
    being deleted makes the same five calls, two of them writes: the
    artifact is created or, when one is there, replaced without being
    compared with what is rendered, and the status is written whether or not
    it changes. *)
Theorem AlertRuleReconciler_writes_every_time order
    (c : Cluster.t AlertRule.t Unstructured.t) req a :
  quiet c →
  Cluster.alertRules c !! Request.NamespacedName req = Some a →
  key_of a = Request.NamespacedName req →
  IsZero (ObjectMeta.DeletionTimestamp (AlertRule.ObjectMeta_ a)) = true →
  Cluster.calls (AlertRuleReconciler.Reconcile order req c).2 =
    Cluster.calls c ++
      [Call.mk VGet KAlertRule (Request.NamespacedName req);
       Call.mk VGet KArtifact (Request.NamespacedName req);
       Call.mk match Cluster.artifacts c !! Request.NamespacedName req with
               | Some _ => VUpdate
               | None => VCreate
               end KArtifact (Request.NamespacedName req);
       Call.mk VGet KArtifact (Request.NamespacedName req);
       Call.mk VStatusUpdate KAlertRule (Request.NamespacedName req)].
Proof.
  intros Hq Ha Hkey Hz.
  destruct (Reconcile_run order c req a) as (c' & o & a' & Hrun & Hrest);
    [by apply quiet_faultAt..|done|done|done|].
  rewrite Hrun. cbn [snd]. apply Hrest.
Qed.

Lemma AlertRuleReconciler_writes_every_time_witness :
  Call.verb <$>
    Cluster.calls
      (AlertRuleReconciler.Reconcile map_to_list (Request.mk "shop" "latency")
         (AlertRuleReconciler.Reconcile map_to_list (Request.mk "shop" "latency")
            (Examples.cluster [] [Examples.latency] [])).2).2 =
  [VGet; VGet; VCreate; VGet; VStatusUpdate; VGet; VGet; VUpdate; VGet; VStatusUpdate].
Proof.
  rewrite (AlertRuleReconciler_writes_every_time map_to_list
             (AlertRuleReconciler.Reconcile map_to_list (Request.mk "shop" "latency")
                (Examples.cluster [] [Examples.latency] [])).2
             (Request.mk "shop" "latency")
             (default Examples.latency
                (Cluster.alertRules
                   (AlertRuleReconciler.Reconcile map_to_list (Request.mk "shop" "latency")
                      (Examples.cluster [] [Examples.latency] [])).2
                 !! ("shop", "latency"))));
    [|constructor|vm_compute; reflexivity..].
  vm_compute. reflexivity.
Defined.

(** ** A reconcile of the configuration-blob AlertRule that goes through *)

Lemma quiet_nextFault {AR Art : Type} (c : Cluster.t AR Art) :
  quiet c → nextFault c = None.
Proof. intros Hq. rewrite <- faultAt_0. by apply quiet_faultAt. Qed.

Lemma quiet_logged {AR Art : Type} call (c : Cluster.t AR Art) :
  quiet c → quiet (logged call c).
Proof.
  unfold quiet. simpl. destruct (Cluster.faults c); [done|]. by intros [_ ?]%Forall_cons.
Qed.

(** after one more call *)
Lemma quiet_tail {AR Art : Type} (c c' : Cluster.t AR Art) :
  quiet c → Cluster.faults c' = tail (Cluster.faults c) → quiet c'.
Proof.
  unfold quiet. intros Hq ->. destruct (Cluster.faults c); [done|].
  by apply Forall_cons in Hq as [_ ?].
Qed.

Lemma blob_updateStatus_run
    (c : Cluster.t ConfigBlob.AlertRule.t ConfigBlob.ConfigMap.t) a condition :
  nextFault c = None →
  Cluster.alertRules c !! key_of a = Some a →
  let stamped :=
    Condition.mk (Condition.Type_ condition) (Condition.Status condition)
      (ObjectMeta.Generation (ConfigBlob.AlertRule.ObjectMeta_ a)) (Cluster.clock c)
      (Condition.Reason condition) (Condition.Message condition) in
  let a' :=
    stamp (Cluster.revision c + 1)
      (ConfigBlob.AlertRule.SetStatus
         (AlertRuleStatus.mk (upsertCondition (ConfigBlob.AlertRule.Conditions a) stamped))
         a) in
  ConfigBlob.AlertRuleReconciler.updateStatus a condition c =
    ((a', None),
     set_revision (Cluster.revision c + 1)
       (over AlertRules (<[key_of a := a']> (Cluster.alertRules c))
          (logged (Call.mk VStatusUpdate KAlertRule (key_of a)) c))).
Proof.
  intros Hf Ha stamped a'.
  unfold ConfigBlob.AlertRuleReconciler.updateStatus.
  rewrite bind_run. unfold Now. cbn [fst snd]. rewrite bind_run.
  change (Condition.SetObservedGeneration _
            (Condition.SetLastTransitionTime _ condition)) with stamped.
  set (sent := ConfigBlob.AlertRule.SetStatus _ a).
  unfold StatusUpdate, store_status_update.
  rewrite (replace_fresh AlertRules onStatusUpdate VStatusUpdate sent a c Hf);
    [done|exact Ha|by apply stale_same].
Qed.

Lemma blob_Reconcile_run
    (c : Cluster.t ConfigBlob.AlertRule.t ConfigBlob.ConfigMap.t) req a :
  let key := Request.NamespacedName req in
  let cmkey := (Request.Namespace req,
                ConfigBlob.AlertRuleReconciler.configMapNameFor (Request.Name req)) in
  let desired :=
    ConfigBlob.AlertRuleReconciler.desiredConfigMap a
      (ConfigBlob.AlertRuleReconciler.generateAlertRulesYAML a).1 in
  let generation := ObjectMeta.Generation (ConfigBlob.AlertRule.ObjectMeta_ a) in
  quiet c →
  Cluster.alertRules c !! key = Some a →
  key_of a = key →
  wellKeyed (Cluster.artifacts c) →
  ∃ c' cm a',
    ConfigBlob.AlertRuleReconciler.Reconcile req c = (success, c') ∧
    Cluster.artifacts c' = <[cmkey := cm]> (Cluster.artifacts c) ∧
    ConfigBlob.ConfigMap.Data cm = ConfigBlob.ConfigMap.Data desired ∧
    ObjectMeta.Labels (ConfigBlob.ConfigMap.ObjectMeta_ cm) =
      ObjectMeta.Labels (ConfigBlob.ConfigMap.ObjectMeta_ desired) ∧
    ObjectMeta.OwnerReferences (ConfigBlob.ConfigMap.ObjectMeta_ cm) =
      match Cluster.artifacts c !! cmkey with
      | Some old => ObjectMeta.OwnerReferences (ConfigBlob.ConfigMap.ObjectMeta_ old)
      | None => ObjectMeta.OwnerReferences (ConfigBlob.ConfigMap.ObjectMeta_ desired)
      end ∧
    Cluster.alertRules c' = <[key := a']> (Cluster.alertRules c) ∧
    blobDeclared a' = blobDeclared a ∧
    ConfigBlob.AlertRule.Conditions a' =
      upsertCondition
        (upsertCondition (ConfigBlob.AlertRule.Conditions a)
           (Condition.mk "Progressing" ConditionTrue generation (Cluster.clock c)
              "Reconciling" "Reconciling AlertRule"))
        (Condition.mk "Available" ConditionTrue generation (Cluster.clock c)
           "Reconciled"
           ("AlertRule reconciled successfully. ConfigMap: " +:+
            ConfigBlob.AlertRuleReconciler.configMapNameFor (Request.Name req))).
Proof.
  intros key cmkey desired generation Hq Ha Hkey Harts.
  assert (ConfigBlob.AlertRule.Namespace a = Request.Namespace req ∧
          ConfigBlob.AlertRule.Name a = Request.Name req) as [Hns Hname].
  { unfold key_of in Hkey. subst key. unfold Request.NamespacedName in Hkey.
    by injection Hkey. }
  unfold ConfigBlob.AlertRuleReconciler.Reconcile. fold key.
  rewrite bind_run, (Get_found AlertRules _ _ a (quiet_nextFault _ Hq) Ha).
  cbn [fst snd]. rewrite bind_run.
  set (c1 := logged _ c).
  rewrite (blob_updateStatus_run c1 a);
    [|by apply quiet_nextFault, quiet_logged|by rewrite Hkey].
  cbn [fst snd Condition.Type_ Condition.Status Condition.Reason Condition.Message
       ConfigBlob.AlertRuleReconciler.newCondition].
  set (a1 := stamp _ _). set (c2 := set_revision _ _).
  assert (quiet c1) as Hq1 by (by apply quiet_logged).
  assert (quiet c2) as Hq2 by (by apply (quiet_tail c1)).
  cbn [ConfigBlob.AlertRuleReconciler.generateAlertRulesYAML].
  change (ConfigBlob.AlertRuleReconciler.desiredConfigMap a1 _) with desired.
  change (ConfigBlob.AlertRule.Namespace a1) with (ConfigBlob.AlertRule.Namespace a).
  change (ConfigBlob.AlertRule.Name a1) with (ConfigBlob.AlertRule.Name a).
  rewrite Hns, Hname. fold cmkey.
  rewrite bind_run.
  assert (key_of desired = cmkey) as Hdkey.
  { subst desired cmkey. unfold key_of. simpl.
    unfold ConfigBlob.AlertRule.Namespace, ConfigBlob.AlertRule.Name in *.
    by rewrite Hns, Hname. }
  assert (Cluster.alertRules c2 = <[key := a1]> (Cluster.alertRules c)) as Hrules2.
  { simpl. by rewrite Hkey. }
  assert (∃ cm c4,
            (match (Get Artifacts cmkey c2).1 with
             | inl err =>
                 if apierrors.IsNotFound err then
                   Create Artifacts desired ≫= λ e,
                     match e with
                     | inl err =>
                         inl <$> ConfigBlob.AlertRuleReconciler.degraded a1
                           "ConfigMapCreationFailed"
                           ("Failed to create ConfigMap: " +:+ ErrorString err) err
                     | inr _ => mret (inr ())
                     end
                 else mret (inl (Result.zero, Some err))
             | inr existingConfigMap =>
                 Update Artifacts
                   (ConfigBlob.ConfigMap.SetLabels
                      (ObjectMeta.Labels (ConfigBlob.ConfigMap.ObjectMeta_ desired))
                      (ConfigBlob.ConfigMap.SetData (ConfigBlob.ConfigMap.Data desired)
                         existingConfigMap)) ≫= λ e,
                   match e with
                   | inl err =>
                       inl <$> ConfigBlob.AlertRuleReconciler.degraded a1
                         "ConfigMapUpdateFailed"
                         ("Failed to update ConfigMap: " +:+ ErrorString err) err
                   | inr _ => mret (inr ())
                   end
             end) (Get Artifacts cmkey c2).2 = (inr (), c4) ∧
            quiet c4 ∧
            Cluster.clock c4 = Cluster.clock c ∧
            Cluster.alertRules c4 = Cluster.alertRules c2 ∧
            Cluster.artifacts c4 = <[cmkey := cm]> (Cluster.artifacts c) ∧
            ConfigBlob.ConfigMap.Data cm = ConfigBlob.ConfigMap.Data desired ∧
            ObjectMeta.Labels (ConfigBlob.ConfigMap.ObjectMeta_ cm) =
              ObjectMeta.Labels (ConfigBlob.ConfigMap.ObjectMeta_ desired) ∧
            ObjectMeta.OwnerReferences (ConfigBlob.ConfigMap.ObjectMeta_ cm) =
              match Cluster.artifacts c !! cmkey with
              | Some old => ObjectMeta.OwnerReferences (ConfigBlob.ConfigMap.ObjectMeta_ old)
              | None => ObjectMeta.OwnerReferences (ConfigBlob.ConfigMap.ObjectMeta_ desired)
              end) as (cm & c4 & Hwrite & Hq4 & Hclock4 & Hrules4 & Harts4 & Hcm).
  { set (c3 := logged (Call.mk VGet KArtifact cmkey) c2).
    assert (quiet c3) as Hq3 by (by apply quiet_logged).
    destruct (Cluster.artifacts c !! cmkey) as [old|] eqn:Hold.
    - rewrite (Get_found Artifacts cmkey c2 old (quiet_nextFault _ Hq2) Hold).
      cbn [fst snd]. change (logged _ c2) with c3. rewrite bind_run.
      set (sent := ConfigBlob.ConfigMap.SetLabels _ _).
      assert (key_of sent = cmkey) as Hskey by (by apply Harts in Hold).
      unfold Update, store_update.
      rewrite (replace_fresh Artifacts onUpdate VUpdate sent old c3);
        [|by apply quiet_nextFault|by rewrite Hskey|by apply stale_same].
      cbn [fst snd]. unfold mret, M_ret.
      eexists _, _. split; [reflexivity|]. rewrite Hskey.
      split_and!; try done. by apply (quiet_tail c3).
    - rewrite (Get_missing Artifacts cmkey c2 (quiet_nextFault _ Hq2) Hold).
      cbn [fst snd apierrors.IsNotFound]. rewrite bool_decide_eq_true_2 by done.
      change (logged _ c2) with c3. rewrite bind_run.
      destruct (Create_new Artifacts desired c3) as (cm & -> & Hcm);
        [by apply quiet_nextFault|by rewrite Hdkey|].
      cbn [fst snd]. unfold mret, M_ret.
      eexists _, _. split; [reflexivity|]. rewrite Hdkey.
      split_and!; try done; try (by subst cm). by apply (quiet_tail c3). }
  cbn beta. rewrite bind_run, Hwrite. cbn [fst snd]. rewrite bind_run.
  assert (Cluster.alertRules c4 !! key_of a1 = Some a1) as Ha1.
  { rewrite Hrules4, Hrules2. change (key_of a1) with (key_of a). rewrite Hkey.
    apply lookup_insert_eq. }
  rewrite (blob_updateStatus_run c4 a1); [|by apply quiet_nextFault|exact Ha1].
  cbn [fst snd Condition.Type_ Condition.Status Condition.Reason Condition.Message
       ConfigBlob.AlertRuleReconciler.newCondition].
  unfold mret, M_ret.
  set (a2 := stamp (Cluster.revision c4 + 1) _).
  eexists _, cm, a2. split; [reflexivity|].
  destruct Hcm as (Hdata & Hlabels & Howners).
  split_and!; try done.
  - simpl. change (key_of a1) with (key_of a). rewrite Hkey, Hrules4, Hrules2.
    apply insert_insert_eq.
  - subst a2. cbn. by rewrite Hclock4.
Qed.

(** X14.  When no call fails, a reconcile of the configuration-blob
    AlertRule [R] of namespace [N] succeeds and leaves the ConfigMap
    [alertrule-R] of [N] with the rendered text under [alertrules.yaml] and
    the three labels of the controller.  A ConfigMap created by the
    reconcile carries the controller reference to the AlertRule; one that
    was there already keeps the owner references it had (the reference to
    the AlertRule is not added to it).  The AlertRule ends with the
    conditions [Progressing] and [Available] recorded, both with status
    True, and what the user declared of it unchanged. *)
Theorem blob_Reconcile_reconciles
    (c : Cluster.t ConfigBlob.AlertRule.t ConfigBlob.ConfigMap.t) req a :
  let key := Request.NamespacedName req in
  let cmkey := (Request.Namespace req,
                ConfigBlob.AlertRuleReconciler.configMapNameFor (Request.Name req)) in
  let desired :=
    ConfigBlob.AlertRuleReconciler.desiredConfigMap a
      (ConfigBlob.AlertRuleReconciler.generateAlertRulesYAML a).1 in
  let generation := ObjectMeta.Generation (ConfigBlob.AlertRule.ObjectMeta_ a) in
  quiet c →
  Cluster.alertRules c !! key = Some a →
  key_of a = key →
  wellKeyed (Cluster.artifacts c) →
  ∃ c' cm a',
    ConfigBlob.AlertRuleReconciler.Reconcile req c = (success, c') ∧
    Cluster.artifacts c' = <[cmkey := cm]> (Cluster.artifacts c) ∧
    ConfigBlob.ConfigMap.Data cm = ConfigBlob.ConfigMap.Data desired ∧
    ObjectMeta.Labels (ConfigBlob.ConfigMap.ObjectMeta_ cm) =
      ObjectMeta.Labels (ConfigBlob.ConfigMap.ObjectMeta_ desired) ∧
    ObjectMeta.OwnerReferences (ConfigBlob.ConfigMap.ObjectMeta_ cm) =
      match Cluster.artifacts c !! cmkey with
      | Some old => ObjectMeta.OwnerReferences (ConfigBlob.ConfigMap.ObjectMeta_ old)
      | None => ObjectMeta.OwnerReferences (ConfigBlob.ConfigMap.ObjectMeta_ desired)
      end ∧
    Cluster.alertRules c' = <[key := a']> (Cluster.alertRules c) ∧
    blobDeclared a' = blobDeclared a ∧
    ConfigBlob.AlertRule.Conditions a' =
      upsertCondition
        (upsertCondition (ConfigBlob.AlertRule.Conditions a)
           (Condition.mk "Progressing" ConditionTrue generation (Cluster.clock c)
              "Reconciling" "Reconciling AlertRule"))
        (Condition.mk "Available" ConditionTrue generation (Cluster.clock c)
           "Reconciled"
           ("AlertRule reconciled successfully. ConfigMap: " +:+
            ConfigBlob.AlertRuleReconciler.configMapNameFor (Request.Name req))).
Proof. apply blob_Reconcile_run. Qed.

Lemma blob_Reconcile_reconciles_witness :
  ∃ c' cm a',
    ConfigBlob.AlertRuleReconciler.Reconcile (Request.mk "shop" "pods")
      (Examples.blobCluster [Examples.blobAlert None] [Examples.orphanConfigMap]) =
      (success, c') ∧
    Cluster.artifacts c' !! ("shop", "alertrule-pods") = Some cm ∧
    ConfigBlob.ConfigMap.Data cm =
      Some {["alertrules.yaml" :=
               (ConfigBlob.AlertRuleReconciler.generateAlertRulesYAML
                  (Examples.blobAlert None)).1]} ∧
    ObjectMeta.OwnerReferences (ConfigBlob.ConfigMap.ObjectMeta_ cm) = [] ∧
    Cluster.alertRules c' !! ("shop", "pods") = Some a' ∧
    Condition.Type_ <$> ConfigBlob.AlertRule.Conditions a' = ["Progressing"; "Available"].
Proof.
  destruct (blob_Reconcile_reconciles
              (Examples.blobCluster [Examples.blobAlert None] [Examples.orphanConfigMap])
              (Request.mk "shop" "pods") (Examples.blobAlert None))
    as (c' & cm & a' & Hrun & Harts & Hdata & _ & Howners & Hrules & _ & Hconds).
  - constructor.
  - vm_compute. reflexivity.
  - vm_compute. reflexivity.
  - apply wellKeyed_list_to_map.
  - exists c', cm, a'. split_and!.
    + exact Hrun.
    + rewrite Harts. apply lookup_insert_eq.
    + exact Hdata.
    + exact Howners.
    + rewrite Hrules. apply lookup_insert_eq.
    + rewrite Hconds. reflexivity.
Defined.

(** ** The workload reconciler settles in one reconcile *)

Lemma refDiffers_ref a d :
  AlertRuleSpec.DeploymentRef (AlertRule.Spec a) =
    Some (DeploymentReference.mk (Deployment.Namespace d) (Deployment.Name d)) →
  DeploymentReconciler.refDiffers a d = false.
Proof.
  unfold DeploymentReconciler.refDiffers. intros ->. simpl.
  by rewrite !bool_decide_eq_false_2 by (by intros ?).
Qed.

Lemma readsOnly_refl {AR Art : Type} (c : Cluster.t AR Art) : readsOnly c c.
Proof. exists []. by rewrite (right_id_L [] (++)). Qed.

Lemma readsOnly_Get {AR Art : Type} (c0 c : Cluster.t AR Art) kind k :
  readsOnly c0 c → readsOnly c0 (logged (Call.mk VGet kind k) c).
Proof.
  intros (reads & Hcalls & Hreads). exists (reads ++ [Call.mk VGet kind k]). split.
  - simpl. by rewrite Hcalls, (assoc_L (++)).
  - apply Forall_app. split; [done|]. by repeat constructor.
Qed.

(** The reconcile of a settled workload reads, writes nothing and
    succeeds. *)
Lemma settled_Reconcile {Art : Type} Scheme (c : Cluster.t AlertRule.t Art) req :
  quiet c → wellKeyed (Cluster.deployments c) → settled req c →
  ∃ c', DeploymentReconciler.Reconcile Scheme req c = (success, c') ∧
        asBefore c c' ∧ readsOnly c c' ∧ quiet c'.
Proof.
  intros Hq Hdeps Hs. unfold settled in Hs. cbn zeta in Hs.
  unfold DeploymentReconciler.Reconcile.
  set (c1 := logged (Call.mk VGet KDeployment (Request.NamespacedName req)) c).
  assert (quiet c1) as Hq1 by (by apply quiet_logged).
  assert (readsOnly c c1) as Hr1 by apply readsOnly_Get, readsOnly_refl.
  rewrite bind_run.
  destruct (Cluster.deployments c !! Request.NamespacedName req) as [d|] eqn:Hd.
  - rewrite (Get_found Deployments _ _ d (quiet_nextFault _ Hq) Hd). cbn [fst snd].
    destruct (IsZero _) eqn:Hz; cbn [negb].
    2:{ by exists c1. }
    destruct Hs as [?|(a & Ha & Hsame)]; [done|].
    apply Hdeps in Hd. unfold key_of, Request.NamespacedName in Hd.
    injection Hd as Hns Hname. unfold Deployment.Name. rewrite Hname.
    rewrite bind_run. change (logged _ c) with c1.
    rewrite (Get_found AlertRules _ c1 a (quiet_nextFault _ Hq1) Ha). cbn [fst snd].
    rewrite Hsame. eexists. split; [reflexivity|].
    split_and!; [done|by apply readsOnly_Get|by apply quiet_logged].
  - rewrite (Get_missing Deployments _ _ (quiet_nextFault _ Hq) Hd).
    cbn [fst snd apierrors.IsNotFound]. rewrite bool_decide_eq_true_2 by done.
    unfold DeploymentReconciler.deleteAlertRuleForDeployment. rewrite bind_run.
    change (logged _ c) with c1.
    rewrite (Get_missing AlertRules _ c1 (quiet_nextFault _ Hq1) Hs).
    cbn [fst snd apierrors.IsNotFound]. rewrite bool_decide_eq_true_2 by done.
    eexists. split; [reflexivity|].
    split_and!; [done|by apply readsOnly_Get|by apply quiet_logged].
Qed.

(** The first reconcile, when no call fails. *)
Lemma DeploymentReconciler_run {Art : Type} Scheme (c : Cluster.t AlertRule.t Art) req :
  quiet c → wellKeyed (Cluster.deployments c) → wellKeyed (Cluster.alertRules c) →
  ∃ c', DeploymentReconciler.Reconcile Scheme req c = (success, c') ∧
        settled req c' ∧ quiet c' ∧
        Cluster.deployments c' = Cluster.deployments c ∧
        Cluster.artifacts c' = Cluster.artifacts c ∧
        (Cluster.deployments c !! Request.NamespacedName req = None →
         Cluster.alertRules c' =
           delete (Request.Namespace req,
                   DeploymentReconciler.alertRuleNameFor (Request.Name req))
             (Cluster.alertRules c)).
Proof.
  intros Hq Hdeps Hrules.
  set (akey := (Request.Namespace req,
                DeploymentReconciler.alertRuleNameFor (Request.Name req))).
  destruct (Cluster.deployments c !! Request.NamespacedName req) as [d|] eqn:Hd.
  - (* the workload is there *)
    pose proof (Hdeps _ _ Hd) as Hdkey.
    unfold key_of, Request.NamespacedName in Hdkey. injection Hdkey as Hns Hname.
    destruct (IsZero (ObjectMeta.DeletionTimestamp (Deployment.ObjectMeta_ d))) eqn:Hz.
    2:{ destruct (settled_Reconcile Scheme c req Hq Hdeps)
          as (c' & Hrun & (Hd' & Ha' & Hart') & _ & Hq').
        { unfold settled. cbn zeta. rewrite Hd. by left. }
        exists c'. split_and!; [done| |done..].
        unfold settled. cbn zeta. rewrite Hd', Hd. by left. }
    destruct (Cluster.alertRules c !! akey) as [a|] eqn:Ha.
    + destruct (DeploymentReconciler.refDiffers a d) eqn:Hdiff.
      2:{ destruct (settled_Reconcile Scheme c req Hq Hdeps)
            as (c' & Hrun & (Hd' & Ha' & Hart') & _ & Hq').
          { unfold settled. cbn zeta. rewrite Hd. right. by exists a. }
          exists c'. split_and!; [done| |done..].
          unfold settled. cbn zeta. rewrite Hd', Ha', Hd. right. by exists a. }
      unfold DeploymentReconciler.Reconcile.
      rewrite bind_run, (Get_found Deployments _ _ d (quiet_nextFault _ Hq) Hd).
      cbn [fst snd]. rewrite Hz. cbn [negb].
      replace (Request.Namespace req,
               DeploymentReconciler.alertRuleNameFor (Deployment.Name d))
        with akey by (unfold akey, Deployment.Name; by rewrite Hname).
      set (c1 := logged _ c).
      assert (quiet c1) as Hq1 by (by apply quiet_logged).
      rewrite bind_run, (Get_found AlertRules _ c1 a (quiet_nextFault _ Hq1) Ha).
      cbn [fst snd]. rewrite Hdiff. rewrite bind_run.
      set (c2 := logged _ c1).
      assert (quiet c2) as Hq2 by (by apply quiet_logged).
      set (sent := AlertRule.SetSpec _ a).
      assert (key_of sent = akey) as Hskey by (by apply Hrules in Ha).
      unfold Update, store_update.
      rewrite (replace_fresh AlertRules onUpdate VUpdate sent a c2);
        [|by apply quiet_nextFault|by rewrite Hskey|by apply stale_same].
      cbn [fst snd]. unfold mret, M_ret. eexists. split; [reflexivity|].
      split_and!; [|by apply (quiet_tail c2)|done..].
      unfold settled. cbn zeta. simpl. rewrite Hd. right. fold akey.
      rewrite Hskey, lookup_insert_eq. eexists. split; [done|].
      by apply refDiffers_ref.
    + unfold DeploymentReconciler.Reconcile.
      rewrite bind_run, (Get_found Deployments _ _ d (quiet_nextFault _ Hq) Hd).
      cbn [fst snd]. rewrite Hz. cbn [negb].
      replace (Request.Namespace req,
               DeploymentReconciler.alertRuleNameFor (Deployment.Name d))
        with akey by (unfold akey, Deployment.Name; by rewrite Hname).
      set (c1 := logged _ c).
      assert (quiet c1) as Hq1 by (by apply quiet_logged).
      rewrite bind_run, (Get_missing AlertRules _ c1 (quiet_nextFault _ Hq1) Ha).
      cbn [fst snd apierrors.IsNotFound]. rewrite bool_decide_eq_true_2 by done.
      cbn [negb]. rewrite bind_run.
      set (c2 := logged _ c1).
      assert (quiet c2) as Hq2 by (by apply quiet_logged).
      set (new := DeploymentReconciler.createDefaultAlertRule Scheme d _).
      assert (key_of new = akey) as Hnkey.
      { subst new. rewrite createDefaultAlertRule_key.
        unfold akey, Deployment.Namespace, Deployment.Name. by rewrite Hns, Hname. }
      destruct (Create_new AlertRules new c2) as (created & -> & Hcreated);
        [by apply quiet_nextFault|by rewrite Hnkey|].
      cbn [fst snd]. unfold mret, M_ret. eexists. split; [reflexivity|].
      split_and!; [|by apply (quiet_tail c2)|done..].
      unfold settled. cbn zeta. simpl. rewrite Hd. right. fold akey.
      rewrite Hnkey, lookup_insert_eq. eexists. split; [done|].
      apply refDiffers_ref.
      assert (AlertRule.Spec created = AlertRule.Spec new) as -> by (by subst created).
      subst new. by rewrite createDefaultAlertRule_spec.
  - (* the workload is gone *)
    destruct (Cluster.alertRules c !! akey) as [a|] eqn:Ha.
    2:{ destruct (settled_Reconcile Scheme c req Hq Hdeps)
          as (c' & Hrun & (Hd' & Ha' & Hart') & _ & Hq').
        { unfold settled. cbn zeta. by rewrite Hd. }
        exists c'. split_and!; [done| |done..|].
        - unfold settled. cbn zeta. by rewrite Hd', Ha', Hd.
        - intros _. rewrite Ha'. symmetry. by apply delete_id. }
    unfold DeploymentReconciler.Reconcile.
    rewrite bind_run, (Get_missing Deployments _ _ (quiet_nextFault _ Hq) Hd).
    cbn [fst snd apierrors.IsNotFound]. rewrite bool_decide_eq_true_2 by done.
    unfold DeploymentReconciler.deleteAlertRuleForDeployment. fold akey.
    set (c1 := logged _ c).
    assert (quiet c1) as Hq1 by (by apply quiet_logged).
    rewrite bind_run, (Get_found AlertRules _ c1 a (quiet_nextFault _ Hq1) Ha).
    cbn [fst snd]. rewrite bind_run.
    set (c2 := logged _ c1).
    assert (quiet c2) as Hq2 by (by apply quiet_logged).
    assert (key_of a = akey) as Hakey by (by apply Hrules in Ha).
    rewrite (Delete_found AlertRules a a c2);
      [|by apply quiet_nextFault|by rewrite Hakey].
    cbn [fst snd]. unfold mret, M_ret. eexists. split; [reflexivity|].
    split_and!; [|by apply (quiet_tail c2)|done..|].
    + unfold settled. cbn zeta. simpl. rewrite Hd. fold akey.
      rewrite Hakey. apply lookup_delete_eq.
    + intros _. simpl. by rewrite Hakey.
Qed.

(** X15.  When the workload of the request is gone and no call fails, the
    reconcile deletes the AlertRule [W-alert] of the namespace, whoever made
    it (neither its owner reference nor its labels are looked at), and
    succeeds; when there is none it succeeds as well.  Nothing else
    changes. *)
Theorem DeploymentReconciler_deletes_alertRule {Art : Type} Scheme
    (c : Cluster.t AlertRule.t Art) req :
  quiet c → wellKeyed (Cluster.deployments c) → wellKeyed (Cluster.alertRules c) →
  Cluster.deployments c !! Request.NamespacedName req = None →
  ∃ c', DeploymentReconciler.Reconcile Scheme req c = (success, c') ∧
        Cluster.alertRules c' =
          delete (Request.Namespace req,
                  DeploymentReconciler.alertRuleNameFor (Request.Name req))
            (Cluster.alertRules c) ∧
        Cluster.deployments c' = Cluster.deployments c ∧
        Cluster.artifacts c' = Cluster.artifacts c.
Proof.
  intros Hq Hdeps Hrules Hd.
  destruct (DeploymentReconciler_run Scheme c req Hq Hdeps Hrules)
    as (c' & Hrun & _ & _ & Hd' & Hart' & Hdel).
  exists c'. split_and!; [done|by apply Hdel|done..].
Qed.

Lemma DeploymentReconciler_deletes_alertRule_witness :
  ∃ c', DeploymentReconciler.Reconcile Examples.apps (Request.mk "shop" "checkout")
          (Examples.cluster [] [Examples.latency; Examples.checkoutAlert] []) =
          (success, c') ∧
        Cluster.alertRules c' =
          delete ("shop", DeploymentReconciler.alertRuleNameFor "checkout")
            (Cluster.alertRules
               (Examples.cluster [] [Examples.latency; Examples.checkoutAlert] [])) ∧
        Cluster.deployments c' =
          Cluster.deployments
            (Examples.cluster [] [Examples.latency; Examples.checkoutAlert] []) ∧
        Cluster.artifacts c' =
          Cluster.artifacts
            (Examples.cluster [] [Examples.latency; Examples.checkoutAlert] []).
Proof.
  apply (DeploymentReconciler_deletes_alertRule Examples.apps
           (Examples.cluster [] [Examples.latency; Examples.checkoutAlert] [])
           (Request.mk "shop" "checkout"));
    [constructor|apply wellKeyed_list_to_map..|vm_compute; reflexivity].
Defined.

(** X16.  When no call fails, one reconcile of a workload settles it: the
    reconcile succeeds, and a second reconcile of the same workload succeeds
    with reads only and leaves every object as the first one left it
    (the default AlertRule the first one created, or the reference it
    repaired, is found in order by the second). *)
Theorem DeploymentReconciler_settles {Art : Type} Scheme
    (c : Cluster.t AlertRule.t Art) req :
  quiet c → wellKeyed (Cluster.deployments c) → wellKeyed (Cluster.alertRules c) →
  ∃ c1 c2,
    DeploymentReconciler.Reconcile Scheme req c = (success, c1) ∧
    DeploymentReconciler.Reconcile Scheme req c1 = (success, c2) ∧
    asBefore c1 c2 ∧ readsOnly c1 c2.
Proof.
  intros Hq Hdeps Hrules.
  destruct (DeploymentReconciler_run Scheme c req Hq Hdeps Hrules)
    as (c1 & Hrun1 & Hsettled & Hq1 & Hd1 & _).
  destruct (settled_Reconcile Scheme c1 req Hq1) as (c2 & Hrun2 & Hsame & Hreads & _);
    [by rewrite Hd1|done|].
  by exists c1, c2.
Qed.

Lemma DeploymentReconciler_settles_witness :
  ∃ c1 c2,
    DeploymentReconciler.Reconcile Examples.apps (Request.mk "shop" "checkout")
      (Examples.cluster [Examples.checkout] [Examples.checkoutAlert] []) =
      (success, c1) ∧
    DeploymentReconciler.Reconcile Examples.apps (Request.mk "shop" "checkout") c1 =
      (success, c2) ∧
    asBefore c1 c2 ∧ readsOnly c1 c2.
Proof.
  apply (DeploymentReconciler_settles Examples.apps
           (Examples.cluster [Examples.checkout] [Examples.checkoutAlert] [])
           (Request.mk "shop" "checkout"));
    [constructor|apply wellKeyed_list_to_map..].
Defined.

(** ** More on the renderers *)

(** X17.  The labels of the rendered rule are the labels of the spec and
    the [severity] of the spec, and on the key [severity] the labels win: a
    [severity] label in [spec.labels] replaces [spec.severity] in the rule,
    whatever order the runtime ranges in. *)
Theorem rule_labels_override_severity order (alertRule : AlertRule.t) :
  validOrder order →
  let spec := AlertRule.Spec alertRule in
  ∃ labels,
    AlertRuleReconciler.buildPrometheusRule order alertRule !! "labels" =
      Some (VMap labels) ∧
    labels !! "severity" =
      Some (VString (default (AlertRuleSpec.Severity spec)
                       (AlertRuleSpec.Labels spec ≫= (.!! "severity")))) ∧
    ∀ k, k ≠ "severity" →
         labels !! k = VString <$> (AlertRuleSpec.Labels spec ≫= (.!! k)).
Proof.
  intros Hord spec. eexists. split; [by apply buildPrometheusRule_labels|].
  fold spec. destruct (AlertRuleSpec.Labels spec) as [m|]; unfold mbind, option_bind.
  - split.
    + rewrite lookup_union, lookup_fmap, lookup_singleton_eq.
      by destruct (m !! "severity").
    + intros k Hk. rewrite lookup_union, lookup_fmap, lookup_singleton_ne by done.
      by destruct (m !! k).
  - split; [by rewrite lookup_singleton_eq|].
    intros k Hk. by rewrite lookup_singleton_ne.
Qed.

Lemma rule_labels_override_severity_witness :
  ∃ labels,
    AlertRuleReconciler.buildPrometheusRule map_to_list
      (AlertRule.SetSpec
         (AlertRuleSpec.mk "CheckoutSlow" "latency_seconds > 1" "warning" "5m"
            (Some {["severity" := "page"]}) None None)
         Examples.checkoutAlert) !! "labels" = Some (VMap labels) ∧
    labels !! "severity" = Some (VString "page") ∧
    ∀ k, k ≠ "severity" →
         labels !! k =
         VString <$> (Some ({["severity" := "page"]} : gmap string string) ≫= (.!! k)).
Proof.
  destruct (rule_labels_override_severity map_to_list
              (AlertRule.SetSpec
                 (AlertRuleSpec.mk "CheckoutSlow" "latency_seconds > 1" "warning" "5m"
                    (Some {["severity" := "page"]}) None None)
                 Examples.checkoutAlert) validOrder_map_to_list)
    as (labels & Hrule & Hseverity & Hothers).
  exists labels. split_and!; [exact Hrule| |exact Hothers].
  rewrite Hseverity. vm_compute. reflexivity.
Defined.

Lemma ruleYAML_target a a' rule :
  ConfigBlob.AlertRuleSpec.TargetDeployment (ConfigBlob.AlertRule.Spec a') =
  ConfigBlob.AlertRuleSpec.TargetDeployment (ConfigBlob.AlertRule.Spec a) →
  ConfigBlob.AlertRuleReconciler.ruleYAML a' rule =
  ConfigBlob.AlertRuleReconciler.ruleYAML a rule.
Proof.
  intros Ht. unfold ConfigBlob.AlertRuleReconciler.ruleYAML,
    ConfigBlob.AlertRuleReconciler.labelLines. by rewrite Ht.
Qed.

(** X18.  The text is built rule by rule, in the order of the spec and
    with nothing between the rules: when rules are appended to the spec of
    an AlertRule, the text rendered before is a prefix of the new text, and
    what follows is the text of the rules appended. *)
Theorem generateAlertRulesYAML_app (a a' : ConfigBlob.AlertRule.t)
    (more : list ConfigBlob.Rule.t) :
  ConfigBlob.AlertRule.Name a' = ConfigBlob.AlertRule.Name a →
  ConfigBlob.AlertRuleSpec.TargetDeployment (ConfigBlob.AlertRule.Spec a') =
    ConfigBlob.AlertRuleSpec.TargetDeployment (ConfigBlob.AlertRule.Spec a) →
  ConfigBlob.AlertRuleSpec.Rules (ConfigBlob.AlertRule.Spec a') =
    ConfigBlob.AlertRuleSpec.Rules (ConfigBlob.AlertRule.Spec a) ++ more →
  (ConfigBlob.AlertRuleReconciler.generateAlertRulesYAML a').1 =
    (ConfigBlob.AlertRuleReconciler.generateAlertRulesYAML a).1 +:+
    Join (ConfigBlob.AlertRuleReconciler.ruleYAML a <$> more) EmptyString.
Proof.
  intros Hname Htarget Hrules.
  unfold ConfigBlob.AlertRuleReconciler.generateAlertRulesYAML. cbn [fst].
  assert (∀ l : list ConfigBlob.Rule.t,
            ConfigBlob.AlertRuleReconciler.ruleYAML a' <$> l =
            ConfigBlob.AlertRuleReconciler.ruleYAML a <$> l) as Hsame.
  { intros l. apply list_fmap_ext. intros ? rule _. by apply ruleYAML_target. }
  by rewrite Hname, Hrules, fmap_app, Join_app_empty, !append_assoc, !Hsame.
Qed.

Lemma generateAlertRulesYAML_app_witness :
  (ConfigBlob.AlertRuleReconciler.generateAlertRulesYAML (Examples.blobAlert None)).1 =
    (ConfigBlob.AlertRuleReconciler.generateAlertRulesYAML Examples.emptyBlobAlert).1 +:+
    Join (ConfigBlob.AlertRuleReconciler.ruleYAML Examples.emptyBlobAlert <$>
            [Examples.blobRule]) EmptyString.
Proof.
  apply (generateAlertRulesYAML_app Examples.emptyBlobAlert (Examples.blobAlert None)
           [Examples.blobRule]); reflexivity.
Defined.

(** ** From the workload to the PrometheusRule *)

Lemma buildPrometheusRule_alert_expr order alertRule :
  AlertRuleReconciler.buildPrometheusRule order alertRule !! "alert" =
    Some (VString (AlertRuleSpec.Alert (AlertRule.Spec alertRule))) ∧
  AlertRuleReconciler.buildPrometheusRule order alertRule !! "expr" =
    Some (VString (AlertRuleSpec.Expr (AlertRule.Spec alertRule))).
Proof.
  unfold AlertRuleReconciler.buildPrometheusRule.
  destruct (AlertRuleSpec.Annotations _), (nonempty _); by simplify_map_eq.
Qed.

Lemma createDefaultAlertRule_labels Scheme d name :
  ObjectMeta.Labels (AlertRule.ObjectMeta_
                       (DeploymentReconciler.createDefaultAlertRule Scheme d name)) =
  Some (<["deployment.kubernetes.io/name" := Deployment.Name d]>
          (<["managed-by" := "alert-rule-operator"]>
             (<["app" := Deployment.Name d]> ∅))).
Proof.
  unfold DeploymentReconciler.createDefaultAlertRule.
  by destruct (controllerutil.SetControllerReference _ _ _).
Qed.

(** X19.  The two controllers composed, on the rendering: the PrometheusRule
    rendered from the default AlertRule of a workload [W] of namespace [N]
    holds one rule with alert [WPodDown], the expression [up{job="W"} == 0],
    [for] one minute, the labels severity=critical, deployment=W and
    namespace=N and the summary and description annotations; its own labels
    are app=W, deployment.kubernetes.io/name=W, release=monitoring and
    managed-by=alert-rule-operator; that rule is the one rule of the one
    group of its spec, named after the AlertRule. *)
Theorem default_alert_rule_rendered Scheme order (d : Deployment.t) (name : string) :
  validOrder order →
  let W := Deployment.Name d in
  let N := Deployment.Namespace d in
  let alertRule := DeploymentReconciler.createDefaultAlertRule Scheme d name in
  let rule := AlertRuleReconciler.buildPrometheusRule order alertRule in
  rule !! "alert" = Some (VString (W +:+ "PodDown")) ∧
  rule !! "expr" = Some (VString ("up{job=" +:+ dquote +:+ W +:+ dquote +:+ "} == 0")) ∧
  rule !! "for" = Some (VString "1m") ∧
  rule !! "labels" =
    Some (VMap (<["severity" := VString "critical"]>
                  (<["namespace" := VString N]> (<["deployment" := VString W]> ∅)))) ∧
  rule !! "annotations" =
    Some (VMap (<["description" :=
                    VString ("Pod " +:+ W +:+ " in namespace " +:+ N +:+
                             " has been down for more than 1 minutes")]>
                  (<["summary" := VString ("Pod " +:+ W +:+ " is down")]> ∅))) ∧
  Unstructured.GetLabels (AlertRuleReconciler.createPrometheusRule order alertRule) =
    Some (<["release" := "monitoring"]>
            (<["deployment.kubernetes.io/name" := W]>
               (<["managed-by" := "alert-rule-operator"]> (<["app" := W]> ∅)))) ∧
  Unstructured.Object (AlertRuleReconciler.createPrometheusRule order alertRule) !! "spec" =
    Some (VMap {["groups" :=
                   VList [VMap (<["rules" := VList [VMap rule]]>
                                  (<["name" := VString (name +:+ "-group")]> ∅))]]}).
Proof.
  intros Hord W N alertRule rule. subst rule.
  assert (AlertRule.Name alertRule = name) as Hname.
  { subst alertRule. pose proof (createDefaultAlertRule_key Scheme d name) as Hkey.
    unfold key_of in Hkey. by injection Hkey. }
  rewrite createPrometheusRule_spec, Hname.
  destruct (buildPrometheusRule_alert_expr order alertRule) as [Halert Hexpr].
  rewrite Halert, Hexpr, buildPrometheusRule_for,
    (buildPrometheusRule_labels order alertRule Hord),
    (buildPrometheusRule_annotations order alertRule Hord),
    (createPrometheusRule_labels order alertRule Hord).
  subst alertRule. rewrite createDefaultAlertRule_spec, createDefaultAlertRule_labels.
  cbn [AlertRuleSpec.Alert AlertRuleSpec.Expr AlertRuleSpec.For AlertRuleSpec.Severity
       AlertRuleSpec.Labels AlertRuleSpec.Annotations].
  by split_and!.
Qed.

Lemma default_alert_rule_rendered_witness :
  AlertRuleReconciler.buildPrometheusRule map_to_list
    (DeploymentReconciler.createDefaultAlertRule Examples.apps Examples.checkout
       "checkout-alert") !! "labels" =
    Some (VMap (<["severity" := VString "critical"]>
                  (<["namespace" := VString "shop"]>
                     (<["deployment" := VString "checkout"]> ∅)))) ∧
  Unstructured.GetLabels
    (AlertRuleReconciler.createPrometheusRule map_to_list
       (DeploymentReconciler.createDefaultAlertRule Examples.apps Examples.checkout
          "checkout-alert")) =
    Some (<["release" := "monitoring"]>
            (<["deployment.kubernetes.io/name" := "checkout"]>
               (<["managed-by" := "alert-rule-operator"]> (<["app" := "checkout"]> ∅)))).
Proof.
  destruct (default_alert_rule_rendered Examples.apps map_to_list Examples.checkout
              "checkout-alert" validOrder_map_to_list)
    as (_ & _ & _ & Hlabels & _ & Hmeta & _).
  split; [exact Hlabels|exact Hmeta].
Defined.

Lemma createDefaultAlertRule_alive Scheme d name :
  ObjectMeta.DeletionTimestamp
    (AlertRule.ObjectMeta_ (DeploymentReconciler.createDefaultAlertRule Scheme d name)) =
  None.
Proof.
  unfold DeploymentReconciler.createDefaultAlertRule.
  by destruct (controllerutil.SetControllerReference _ _ _).
Qed.

(** The reconcile that creates the default AlertRule, when no call
    fails. *)
Lemma DeploymentReconciler_creates {Art : Type} Scheme (c : Cluster.t AlertRule.t Art)
    req d :
  let alertRuleName := DeploymentReconciler.alertRuleNameFor (Request.Name req) in
  quiet c →
  Cluster.deployments c !! Request.NamespacedName req = Some d →
  key_of d = Request.NamespacedName req →
  IsZero (ObjectMeta.DeletionTimestamp (Deployment.ObjectMeta_ d)) = true →
  Cluster.alertRules c !! (Request.Namespace req, alertRuleName) = None →
  ∃ c' created,
    DeploymentReconciler.Reconcile Scheme req c = (success, c') ∧
    quiet c' ∧
    Cluster.alertRules c' =
      <[(Request.Namespace req, alertRuleName) := created]> (Cluster.alertRules c) ∧
    Cluster.artifacts c' = Cluster.artifacts c ∧
    Cluster.clock c' = Cluster.clock c ∧
    created =
      stamp (Cluster.revision c + 1)
        (WithObjectMeta
           (ObjectMeta.SetGeneration 1
              (ObjectMeta.SetUID ("uid-" +:+ pretty (Cluster.revision c + 1))
                 (GetObjectMeta
                    (DeploymentReconciler.createDefaultAlertRule Scheme d alertRuleName))))
           (DeploymentReconciler.createDefaultAlertRule Scheme d alertRuleName)).
Proof.
  intros alertRuleName Hq Hd Hdkey Hz Ha.
  unfold key_of, Request.NamespacedName in Hdkey. injection Hdkey as Hns Hname.
  unfold DeploymentReconciler.Reconcile.
  rewrite bind_run, (Get_found Deployments _ _ d (quiet_nextFault _ Hq) Hd).
  cbn [fst snd]. rewrite Hz. cbn [negb].
  replace (DeploymentReconciler.alertRuleNameFor (Deployment.Name d))
    with alertRuleName by (unfold alertRuleName, Deployment.Name; by rewrite Hname).
  set (c1 := logged _ c).
  assert (quiet c1) as Hq1 by (by apply quiet_logged).
  rewrite bind_run, (Get_missing AlertRules _ c1 (quiet_nextFault _ Hq1) Ha).
  cbn [fst snd apierrors.IsNotFound]. rewrite bool_decide_eq_true_2 by done.
  cbn [negb]. rewrite bind_run.
  set (c2 := logged _ c1).
  assert (quiet c2) as Hq2 by (by apply quiet_logged).
  set (new := DeploymentReconciler.createDefaultAlertRule Scheme d alertRuleName).
  assert (key_of new = (Request.Namespace req, alertRuleName)) as Hnkey.
  { subst new. rewrite createDefaultAlertRule_key. unfold Deployment.Namespace.
    by rewrite Hns. }
  destruct (Create_new AlertRules new c2) as (created & -> & Hcreated);
    [by apply quiet_nextFault|by rewrite Hnkey|].
  cbn [fst snd]. unfold mret, M_ret. eexists _, created. split; [reflexivity|].
  rewrite Hnkey. split_and!; [by apply (quiet_tail c2)|done..].
Qed.

(** X20.  The two controllers composed, on the store: when no call fails,
    a workload [W] of namespace [N] that is not being deleted and has no
    AlertRule gets, by a reconcile of the workload followed by a reconcile of
    the AlertRule [W-alert], a PrometheusRule [W-alert] in [N] with the
    content and the labels rendered from the default AlertRule, owned by the
    AlertRule created; the AlertRule references the workload and has the
    condition [PrometheusRuleReady] with status True. *)
Theorem workload_gets_prometheus_rule Scheme order
    (c : Cluster.t AlertRule.t Unstructured.t) req d :
  let alertRuleName := DeploymentReconciler.alertRuleNameFor (Request.Name req) in
  let alertRuleKey := (Request.Namespace req, alertRuleName) in
  let default := DeploymentReconciler.createDefaultAlertRule Scheme d alertRuleName in
  quiet c →
  Cluster.deployments c !! Request.NamespacedName req = Some d →
  key_of d = Request.NamespacedName req →
  IsZero (ObjectMeta.DeletionTimestamp (Deployment.ObjectMeta_ d)) = true →
  Cluster.alertRules c !! alertRuleKey = None →
  ∃ c1 c2 o a,
    DeploymentReconciler.Reconcile Scheme req c = (success, c1) ∧
    AlertRuleReconciler.Reconcile order (Request.mk (Request.Namespace req) alertRuleName) c1
      = (success, c2) ∧
    Cluster.artifacts c2 = <[alertRuleKey := o]> (Cluster.artifacts c) ∧
    Unstructured.Object o =
      Unstructured.Object (AlertRuleReconciler.createPrometheusRule order default) ∧
    Unstructured.GetLabels o =
      Unstructured.GetLabels (AlertRuleReconciler.createPrometheusRule order default) ∧
    Cluster.alertRules c2 = <[alertRuleKey := a]> (Cluster.alertRules c) ∧
    OwnerReference.UID <$> ObjectMeta.OwnerReferences (Unstructured.ObjectMeta_ o) =
      [ObjectMeta.UID (AlertRule.ObjectMeta_ a)] ∧
    AlertRule.Spec a = AlertRule.Spec default ∧
    AlertRule.Conditions a =
      [Condition.mk "PrometheusRuleReady" ConditionTrue 1 (Cluster.clock c)
         "PrometheusRuleCreated" "PrometheusRule has been successfully created"].
Proof.
  intros alertRuleName alertRuleKey default Hq Hd Hdkey Hz Ha.
  destruct (DeploymentReconciler_creates Scheme c req d Hq Hd Hdkey Hz Ha)
    as (c1 & created & Hrun1 & Hq1 & Hrules1 & Harts1 & Hclock1 & Hcreated).
  fold alertRuleName alertRuleKey default in Hrules1, Hcreated.
  set (req' := Request.mk (Request.Namespace req) alertRuleName).
  assert (key_of created = Request.NamespacedName req') as Hckey.
  { subst created. unfold key_of. simpl. subst default.
    pose proof (createDefaultAlertRule_key Scheme d alertRuleName) as Hk.
    unfold key_of in Hk. simpl in Hk. rewrite Hk.
    unfold key_of, Request.NamespacedName in Hdkey. injection Hdkey as Hns _.
    unfold Deployment.Namespace. by rewrite Hns. }
  destruct (Reconcile_run order c1 req' created)
    as (c2 & o & a & Hrun2 & Harts2 & (Hobj & Hlabels & Howners) & Hrules2 & Hdecl
        & Hsame & Hconds & _);
    [by apply quiet_faultAt..| | | |].
  { rewrite Hrules1. apply lookup_insert_eq. }
  { exact Hckey. }
  { subst created. simpl. subst default. by rewrite createDefaultAlertRule_alive. }
  assert (AlertRule.Conditions created = []) as Hnone.
  { subst created default. unfold DeploymentReconciler.createDefaultAlertRule.
    by destruct (controllerutil.SetControllerReference _ _ _). }
  exists c1, c2, o, a. split_and!; [done|done| | | | | | |].
  - by rewrite Harts2, Harts1.
  - rewrite Hobj. by subst created.
  - rewrite Hlabels. by subst created.
  - rewrite Hrules2, Hrules1. apply insert_insert_eq.
  - by rewrite Howners, <- Hsame.
  - injection Hdecl as Hspec _ _. rewrite Hspec. by subst created.
  - rewrite Hconds, Hnone, (quiet_faultAt c1 3 Hq1), Hclock1. by subst created.
Qed.

Lemma workload_gets_prometheus_rule_witness :
  ∃ c1 c2 o a,
    DeploymentReconciler.Reconcile Examples.apps (Request.mk "shop" "checkout")
      (Examples.cluster [Examples.checkout] [] []) = (success, c1) ∧
    AlertRuleReconciler.Reconcile map_to_list (Request.mk "shop" "checkout-alert") c1 =
      (success, c2) ∧
    Cluster.artifacts c2 !! ("shop", "checkout-alert") = Some o ∧
    Unstructured.GetLabels o =
      Unstructured.GetLabels
        (AlertRuleReconciler.createPrometheusRule map_to_list
           (DeploymentReconciler.createDefaultAlertRule Examples.apps Examples.checkout
              "checkout-alert")) ∧
    Cluster.alertRules c2 !! ("shop", "checkout-alert") = Some a ∧
    AlertRule.Conditions a =
      [Condition.mk "PrometheusRuleReady" ConditionTrue 1 1000
         "PrometheusRuleCreated" "PrometheusRule has been successfully created"].
Proof.
  destruct (workload_gets_prometheus_rule Examples.apps map_to_list
              (Examples.cluster [Examples.checkout] [] [])
              (Request.mk "shop" "checkout") Examples.checkout)
    as (c1 & c2 & o & a & Hrun1 & Hrun2 & Harts & _ & Hlabels & Hrules & _ & _ & Hconds).
  - constructor.
  - vm_compute. reflexivity.
  - vm_compute. reflexivity.
  - vm_compute. reflexivity.
  - vm_compute. reflexivity.
  - exists c1, c2, o, a. split_and!.
    + exact Hrun1.
    + exact Hrun2.
    + rewrite Harts. apply lookup_insert_eq.
    + exact Hlabels.
    + rewrite Hrules. apply lookup_insert_eq.
    + exact Hconds.
Defined.

(** ** The Degraded condition *)

Lemma blob_Reconcile_degraded_run
    (c : Cluster.t ConfigBlob.AlertRule.t ConfigBlob.ConfigMap.t) req a f :
  let key := Request.NamespacedName req in
  let cmkey := (Request.Namespace req,
                ConfigBlob.AlertRuleReconciler.configMapNameFor (Request.Name req)) in
  let generation := ObjectMeta.Generation (ConfigBlob.AlertRule.ObjectMeta_ a) in
  Cluster.faults c = [None; None; None; Some f] →
  Cluster.alertRules c !! key = Some a →
  key_of a = key →
  ∃ c' a',
    ConfigBlob.AlertRuleReconciler.Reconcile req c =
      ((Result.zero, Some (transientError f)), c') ∧
    Cluster.artifacts c' = Cluster.artifacts c ∧
    Cluster.alertRules c' = <[key := a']> (Cluster.alertRules c) ∧
    ConfigBlob.AlertRule.Conditions a' =
      upsertCondition
        (upsertCondition (ConfigBlob.AlertRule.Conditions a)
           (Condition.mk "Progressing" ConditionTrue generation (Cluster.clock c)
              "Reconciling" "Reconciling AlertRule"))
        (Condition.mk "Degraded" ConditionTrue generation (Cluster.clock c)
           match Cluster.artifacts c !! cmkey with
           | Some _ => "ConfigMapUpdateFailed"
           | None => "ConfigMapCreationFailed"
           end
           (match Cluster.artifacts c !! cmkey with
            | Some _ => "Failed to update ConfigMap: "
            | None => "Failed to create ConfigMap: "
            end +:+ ErrorString (transientError f))).
Proof.
  intros key cmkey generation Hf Ha Hkey.
  assert (ConfigBlob.AlertRule.Namespace a = Request.Namespace req ∧
          ConfigBlob.AlertRule.Name a = Request.Name req) as [Hns Hname].
  { unfold key_of in Hkey. subst key. unfold Request.NamespacedName in Hkey.
    by injection Hkey. }
  unfold ConfigBlob.AlertRuleReconciler.Reconcile. fold key.
  rewrite bind_run, (Get_found AlertRules _ _ a); [|by unfold nextFault; rewrite Hf|done].
  cbn [fst snd]. rewrite bind_run.
  set (c1 := logged _ c).
  assert (Cluster.faults c1 = [None; None; Some f]) as Hf1 by (simpl; by rewrite Hf).
  rewrite (blob_updateStatus_run c1 a);
    [|by unfold nextFault; rewrite Hf1|by rewrite Hkey].
  cbn [fst snd Condition.Type_ Condition.Status Condition.Reason Condition.Message
       ConfigBlob.AlertRuleReconciler.newCondition].
  set (a1 := stamp _ _). set (c2 := set_revision _ _).
  assert (Cluster.faults c2 = [None; Some f]) as Hf2 by (simpl; by rewrite Hf).
  cbn [ConfigBlob.AlertRuleReconciler.generateAlertRulesYAML].
  change (ConfigBlob.AlertRule.Namespace a1) with (ConfigBlob.AlertRule.Namespace a).
  change (ConfigBlob.AlertRule.Name a1) with (ConfigBlob.AlertRule.Name a).
  rewrite Hns, Hname. fold cmkey.
  rewrite bind_run.
  assert (Cluster.alertRules c2 = <[key := a1]> (Cluster.alertRules c)) as Hrules2.
  { simpl. by rewrite Hkey. }
  set (c3 := logged (Call.mk VGet KArtifact cmkey) c2).
  assert (Cluster.faults c3 = [Some f]) as Hf3 by (simpl; by rewrite Hf).
  assert (nextFault c2 = None) as Hn2 by (by unfold nextFault; rewrite Hf2).
  assert (nextFault c3 = Some f) as Hn3 by (by unfold nextFault; rewrite Hf3).
  assert (∀ call, let c4 := logged call c3 in
            nextFault c4 = None ∧
            Cluster.alertRules c4 !! key_of a1 = Some a1) as Hc4.
  { intros call c4. split; [unfold nextFault; simpl; by rewrite Hf|].
    change (key_of a1) with (key_of a). rewrite Hkey. simpl.
    change (Cluster.alertRules c2 !! key = Some a1). rewrite Hrules2.
    apply lookup_insert_eq. }
  destruct (Cluster.artifacts c !! cmkey) as [old|] eqn:Hold.
  - rewrite (Get_found Artifacts cmkey c2 old Hn2 Hold).
    cbn [fst snd]. change (logged _ c2) with c3. rewrite !bind_run.
    unfold Update. rewrite (write_fault Artifacts _ _ _ _ _ Hn3). cbn [fst snd].
    unfold fmap, M_fmap, ConfigBlob.AlertRuleReconciler.degraded. rewrite bind_run.
    match goal with
    | |- context [ConfigBlob.AlertRuleReconciler.updateStatus a1 ?cond (logged ?call c3)] =>
        destruct (Hc4 call) as [Hn4 Ha4];
        rewrite (blob_updateStatus_run (logged call c3) a1 cond Hn4 Ha4)
    end.
    cbn [fst snd Condition.Type_ Condition.Status Condition.Reason Condition.Message
         ConfigBlob.AlertRuleReconciler.newCondition].
    unfold mret, M_ret. cbn [fst snd].
    set (a2 := stamp _ _).
    eexists _, a2. split; [reflexivity|]. split_and!; [done| |done].
    simpl. change (key_of a1) with (key_of a). rewrite Hkey.
    apply insert_insert_eq.
  - rewrite (Get_missing Artifacts cmkey c2 Hn2 Hold).
    cbn [fst snd apierrors.IsNotFound]. rewrite bool_decide_eq_true_2 by done.
    change (logged _ c2) with c3. rewrite !bind_run.
    unfold Create. rewrite (write_fault Artifacts _ _ _ _ _ Hn3). cbn [fst snd].
    unfold fmap, M_fmap, ConfigBlob.AlertRuleReconciler.degraded. rewrite bind_run.
    match goal with
    | |- context [ConfigBlob.AlertRuleReconciler.updateStatus a1 ?cond (logged ?call c3)] =>
        destruct (Hc4 call) as [Hn4 Ha4];
        rewrite (blob_updateStatus_run (logged call c3) a1 cond Hn4 Ha4)
    end.
    cbn [fst snd Condition.Type_ Condition.Status Condition.Reason Condition.Message
         ConfigBlob.AlertRuleReconciler.newCondition].
    unfold mret, M_ret. cbn [fst snd].
    set (a2 := stamp _ _).
    eexists _, a2. split; [reflexivity|]. split_and!; [done| |done].
    simpl. change (key_of a1) with (key_of a). rewrite Hkey.
    apply insert_insert_eq.
Qed.

(** X21.  When the write of the ConfigMap fails (the fourth call of a
    reconcile), the configuration-blob reconciler returns the failure of
    that write, leaves the artifacts as they were, and records on the
    AlertRule, beside [Progressing], the condition [Degraded] with status
    True, the reason [ConfigMapCreationFailed] or [ConfigMapUpdateFailed]
    (as the ConfigMap was absent or there) and the text of the failure. *)
Theorem blob_Reconcile_degraded
    (c : Cluster.t ConfigBlob.AlertRule.t ConfigBlob.ConfigMap.t) req a f :
  let key := Request.NamespacedName req in
  let cmkey := (Request.Namespace req,
                ConfigBlob.AlertRuleReconciler.configMapNameFor (Request.Name req)) in
  let generation := ObjectMeta.Generation (ConfigBlob.AlertRule.ObjectMeta_ a) in
  Cluster.faults c = [None; None; None; Some f] →
  Cluster.alertRules c !! key = Some a →
  key_of a = key →
  ∃ c' a',
    ConfigBlob.AlertRuleReconciler.Reconcile req c =
      ((Result.zero, Some (transientError f)), c') ∧
    Cluster.artifacts c' = Cluster.artifacts c ∧
    Cluster.alertRules c' = <[key := a']> (Cluster.alertRules c) ∧
    ConfigBlob.AlertRule.Conditions a' =
      upsertCondition
        (upsertCondition (ConfigBlob.AlertRule.Conditions a)
           (Condition.mk "Progressing" ConditionTrue generation (Cluster.clock c)
              "Reconciling" "Reconciling AlertRule"))
        (Condition.mk "Degraded" ConditionTrue generation (Cluster.clock c)
           match Cluster.artifacts c !! cmkey with
           | Some _ => "ConfigMapUpdateFailed"
           | None => "ConfigMapCreationFailed"
           end
           (match Cluster.artifacts c !! cmkey with
            | Some _ => "Failed to update ConfigMap: "
            | None => "Failed to create ConfigMap: "
            end +:+ ErrorString (transientError f))).
Proof. apply blob_Reconcile_degraded_run. Qed.

Lemma blob_Reconcile_degraded_witness :
  ∃ c' a',
    ConfigBlob.AlertRuleReconciler.Reconcile (Request.mk "shop" "pods")
      (Examples.withFaults [None; None; None; Some Unavailable]
         (Examples.blobCluster [Examples.blobAlert None] [])) =
      ((Result.zero, Some (transientError Unavailable)), c') ∧
    Cluster.artifacts c' = ∅ ∧
    Cluster.alertRules c' !! ("shop", "pods") = Some a' ∧
    ConfigBlob.AlertRule.Conditions a' =
      [Condition.mk "Progressing" ConditionTrue 1 1000 "Reconciling" "Reconciling AlertRule";
       Condition.mk "Degraded" ConditionTrue 1 1000 "ConfigMapCreationFailed"
         "Failed to create ConfigMap: service unavailable"].
Proof.
  destruct (blob_Reconcile_degraded
              (Examples.withFaults [None; None; None; Some Unavailable]
                 (Examples.blobCluster [Examples.blobAlert None] []))
              (Request.mk "shop" "pods") (Examples.blobAlert None) Unavailable)
    as (c' & a' & Hrun & Harts & Hrules & Hconds).
  - reflexivity.
  - vm_compute. reflexivity.
  - vm_compute. reflexivity.
  - exists c', a'. split_and!.
    + exact Hrun.
    + exact Harts.
    + rewrite Hrules. apply lookup_insert_eq.
    + rewrite Hconds. reflexivity.
Defined.

Lemma upsertCondition_keeps conditions condition c :
  c ∈ conditions → Condition.Type_ c ≠ Condition.Type_ condition →
  c ∈ upsertCondition conditions condition.
Proof.
  intros Hin Hty. induction conditions as [|x rest IH]; [by apply elem_of_nil in Hin|].
  simpl. apply elem_of_cons in Hin as [->|Hin].
  - rewrite bool_decide_eq_false_2 by done. by left.
  - case_bool_decide; right; [done|by apply IH].
Qed.

(** X22.  No reconcile of the configuration-blob reconciler clears a
    condition: a condition of a type other than [Progressing] and
    [Available] that the AlertRule carries is still on it after a reconcile
    that succeeds.  So the condition [Degraded] with status True that a
    failed reconcile recorded stays, beside [Available], once the ConfigMap
    is written. *)
Theorem blob_Reconcile_keeps_conditions
    (c : Cluster.t ConfigBlob.AlertRule.t ConfigBlob.ConfigMap.t) req a condition :
  quiet c →
  Cluster.alertRules c !! Request.NamespacedName req = Some a →
  key_of a = Request.NamespacedName req →
  wellKeyed (Cluster.artifacts c) →
  condition ∈ ConfigBlob.AlertRule.Conditions a →
  Condition.Type_ condition ≠ "Progressing" →
  Condition.Type_ condition ≠ "Available" →
  ∃ c' a',
    ConfigBlob.AlertRuleReconciler.Reconcile req c = (success, c') ∧
    Cluster.alertRules c' !! Request.NamespacedName req = Some a' ∧
    condition ∈ ConfigBlob.AlertRule.Conditions a'.
Proof.
  intros Hq Ha Hkey Harts Hin Hprogressing Havailable.
  destruct (blob_Reconcile_run c req a Hq Ha Hkey Harts)
    as (c' & cm & a' & Hrun & _ & _ & _ & _ & Hrules & _ & Hconds).
  exists c', a'. split_and!; [done| |].
  - rewrite Hrules. apply lookup_insert_eq.
  - rewrite Hconds. by do 2 (apply upsertCondition_keeps; [|done]).
Qed.

Lemma blob_Reconcile_keeps_conditions_witness :
  ∃ c' a',
    ConfigBlob.AlertRuleReconciler.Reconcile (Request.mk "shop" "pods")
      (Examples.blobCluster [Examples.emptyBlobAlert] []) = (success, c') ∧
    Cluster.alertRules c' !! ("shop", "pods") = Some a' ∧
    Condition.mk "Degraded" ConditionTrue 1 100 "GenerationFailed" "by hand"
      ∈ ConfigBlob.AlertRule.Conditions a'.
Proof.
  apply (blob_Reconcile_keeps_conditions
           (Examples.blobCluster [Examples.emptyBlobAlert] [])
           (Request.mk "shop" "pods") Examples.emptyBlobAlert
           (Condition.mk "Degraded" ConditionTrue 1 100 "GenerationFailed" "by hand")).
  - constructor.
  - vm_compute. reflexivity.
  - vm_compute. reflexivity.
  - apply wellKeyed_list_to_map.
  - by left.
  - vm_compute. discriminate.
  - vm_compute. discriminate.
Defined.

(** ** The status is written after the artifact *)

Lemma reconcilePrometheusRule_alertRules order
    (c : Cluster.t AlertRule.t Unstructured.t) a :
  Cluster.alertRules (AlertRuleReconciler.reconcilePrometheusRule order a c).2 =
  Cluster.alertRules c.
Proof.
  unfold AlertRuleReconciler.reconcilePrometheusRule. rewrite bind_run.
  unfold Get at 1 2. destruct (nextFault c); cbn [fst snd].
  { by rewrite IsNotFound_transient. }
  unfold store_get. destruct (view Artifacts c !! _) as [existing|]; cbn [fst snd].
  - rewrite bind_run. unfold Update, write.
    destruct (nextFault _); [done|]. by destruct (store_update _ _ _) as [?|[? ?]].
  - cbn [apierrors.IsNotFound]. rewrite bool_decide_eq_true_2 by done. cbn [negb].
    rewrite bind_run. unfold Create, write.
    destruct (nextFault _); [done|]. by destruct (store_create _ _ _) as [?|[? ?]].
Qed.

Lemma updateStatus_artifacts (c : Cluster.t AlertRule.t Unstructured.t) a :
  Cluster.artifacts (AlertRuleReconciler.updateStatus a c).2 = Cluster.artifacts c.
Proof.
  unfold AlertRuleReconciler.updateStatus. rewrite !bind_run.
  unfold Now. cbn [fst snd].
  match goal with
  | |- context [StatusUpdate AlertRules ?sent ?cx] =>
      assert (Cluster.artifacts (StatusUpdate AlertRules sent cx).2 = Cluster.artifacts c)
        as Hw
  end.
  { unfold StatusUpdate, write, Get.
    destruct (nextFault c); cbn [fst snd];
      (destruct (nextFault _); [done|]);
      by destruct (store_status_update _ _ _) as [?|[? ?]]. }
  by destruct (StatusUpdate AlertRules _ _) as [[?|?] ?].
Qed.

(** X23.  The rule-group reconciler writes the status only after the
    artifact: whichever calls fail, when a reconcile changed an AlertRule
    of the store, the store holds, under the key of the request, an artifact
    with the content, labels and owner reference rendered from the
    AlertRule of the request. *)
Theorem status_follows_artifact order
    (c : Cluster.t AlertRule.t Unstructured.t) req a :
  let c' := (AlertRuleReconciler.Reconcile order req c).2 in
  Cluster.alertRules c !! Request.NamespacedName req = Some a →
  key_of a = Request.NamespacedName req →
  Cluster.alertRules c' ≠ Cluster.alertRules c →
  ∃ o, Cluster.artifacts c' !! Request.NamespacedName req = Some o ∧
       renders (AlertRuleReconciler.createPrometheusRule order a) o.
Proof.
  intros c' Ha Hkey Hchanged. subst c'. revert Hchanged.
  unfold AlertRuleReconciler.Reconcile. rewrite bind_run.
  destruct (nextFault c) as [f|] eqn:Hf.
  { rewrite (Get_fault AlertRules _ _ _ Hf). cbn [fst snd].
    by rewrite IsNotFound_transient. }
  rewrite (Get_found AlertRules _ _ a Hf Ha). cbn [fst snd].
  destruct (negb _); [done|]. rewrite bind_run.
  set (c1 := logged _ c).
  pose proof (reconcilePrometheusRule_cases order c1 a) as [Hout _].
  pose proof (reconcilePrometheusRule_alertRules order c1 a) as Hrules.
  cbn zeta in Hout.
  destruct (AlertRuleReconciler.reconcilePrometheusRule order a c1) as [[err|] c3];
    cbn [fst snd] in *.
  { intros Hchanged. exfalso. apply Hchanged. unfold mret, M_ret. cbn [snd].
    by rewrite Hrules. }
  intros _. destruct Hout as (o & Harts & Hrenders & _).
  change (AlertRule.Namespace a, AlertRule.Name a) with (key_of a) in Harts.
  rewrite Hkey in Harts.
  rewrite bind_run.
  pose proof (updateStatus_artifacts c3 a) as Hsame.
  destruct (AlertRuleReconciler.updateStatus a c3) as [[a' e] c4]. cbn [fst snd] in *.
  exists o. split; [|done].
  assert (Cluster.artifacts c4 !! Request.NamespacedName req = Some o) as Hlookup.
  { rewrite Hsame, Harts. apply lookup_insert_eq. }
  by destruct e.
Qed.

Lemma status_follows_artifact_witness :
  ∃ o, Cluster.artifacts
         (AlertRuleReconciler.Reconcile map_to_list (Request.mk "shop" "latency")
            (Examples.withFaults [None; None; None; Some Internal]
               (Examples.cluster [] [Examples.latency] []))).2
         !! ("shop", "latency") = Some o ∧
       renders (AlertRuleReconciler.createPrometheusRule map_to_list Examples.latency) o.
Proof.
  apply (status_follows_artifact map_to_list
           (Examples.withFaults [None; None; None; Some Internal]
              (Examples.cluster [] [Examples.latency] []))
           (Request.mk "shop" "latency") Examples.latency).
  - vm_compute. reflexivity.
  - vm_compute. reflexivity.
  - intros Hsame.
    apply (f_equal (λ m, AlertRule.Conditions <$> m !! ("shop", "latency"))) in Hsame.
    vm_compute in Hsame. discriminate.
Defined.
